(** * metadata_lab.metadata: the image-metadata worker

    A shallow embedding of [src/metadata_lab/metadata.py] and the proofs of
    its specification.

    The module is a queue-driven handler: for every record of an SQS batch
    it parses the message, derives the key of the metadata document, asks
    the blob store whether that document exists, and otherwise downloads
    the image, extracts its metadata and writes the JSON document back.

    Layout of the development:
    - [Py]      the Python values the handler manipulates (str, bytes,
                float, IFDRational, list, tuple, dict) and the builtins it
                calls on them;
    - [Codec]   [bytes.decode("utf-8", errors=...)] and [str(bytes)];
    - [Pathlib] [Path(key).name];
    - [Eff]     the monad of the handler: a world (blob store, call log,
                standard output, clock) threaded through computations that
                may raise;
    - [S3]      the three client calls of the handler on that world;
    - [Metadata] the four functions of the source file;
    - the theorems. *)

From Stdlib Require Import ZArith List String Ascii Bool Lia.
From Stdlib Require Import Floats.SpecFloat.
From Stdlib Require Strings.Byte DecimalString.
Import ListNotations.

Local Open Scope Z_scope.

(* ===================================================================== *)
(** * Python values *)
(* ===================================================================== *)

Module Py.

(** A Python [str] is a sequence of Unicode code points. *)
Definition str := list Z.

(** A Python [bytes] object. *)
Definition bytes := list Byte.byte.

(** The code points of an ASCII literal. *)
Definition u (s : string) : str :=
  map (fun a => Z.of_N (N_of_ascii a)) (list_ascii_of_string s).

#[global] Arguments u s : simpl never.

Fixpoint str_eqb (a b : str) : bool :=
  match a, b with
  | [], [] => true
  | x :: a', y :: b' => (x =? y) && str_eqb a' b'
  | _, _ => false
  end.

(** Exceptions.  Every exception of this development is an instance of
    [Exception]; [ClientError] is the only class the source tells apart
    (by [except ClientError] and by the error code of its response). *)
Inductive exn : Type :=
| ClientError (Code : str) (Message : str) (operation_name : str)
| PyError (class : str) (message : str).

(** [str(e)], as [print(e)] and the f-strings of the source render it. *)
Definition exn_str (e : exn) : str :=
  match e with
  | ClientError code msg op =>
      u "An error occurred (" ++ code ++ u ") when calling the " ++ op
        ++ u " operation: " ++ msg
  | PyError _ msg => msg
  end.

(** Results of computations that may raise. *)
Definition result (A : Type) : Type := (exn + A)%type.

Abbreviation ok := (@inr exn _).
Abbreviation raise := (@inl exn _).

Definition rbind {A B} (r : result A) (k : A -> result B) : result B :=
  match r with
  | inl e => inl e
  | inr a => k a
  end.

Definition rmap {A B} (f : A -> B) (r : result A) : result B :=
  rbind r (fun a => ok (f a)).

(** [try: r  except Exception as e: h e], without effects. *)
Definition rtry {A} (r : result A) (h : exn -> result A) : result A :=
  match r with
  | inl e => h e
  | inr a => ok a
  end.

(** Keys of the dictionaries met by the handler: tag identifiers ([int])
    and names ([str]). *)
Inductive pykey : Type :=
| KInt (i : Z)
| KStr (s : str).

Definition pykey_eqb (a b : pykey) : bool :=
  match a, b with
  | KInt i, KInt j => i =? j
  | KStr s, KStr t => str_eqb s t
  | _, _ => false
  end.

(** Python floats are IEEE 754 binary64 numbers. *)
Definition float := spec_float.
Definition prec : Z := 53.
Definition emax : Z := 1024.

(** The values: JSON values as [json.loads] builds them, and the values
    [Image._getexif] yields ([bytes], [IFDRational], tuples, nested
    dictionaries).  A dictionary keeps its items in insertion order. *)
#[local] Unset Elimination Schemes.
Inductive pyval : Type :=
| PyNone
| PyBool (b : bool)
| PyInt (i : Z)
| PyFloat (f : float)
| PyStr (s : str)
| PyBytes (b : bytes)
| IFDRational (numerator denominator : Z)
| PyList (l : list pyval)
| PyTuple (l : list pyval)
| PyDict (d : list (pykey * pyval)).
#[local] Set Elimination Schemes.

(** Induction on values, through the lists and dictionaries they nest. *)
Section Induction.

Variable P : pyval -> Prop.
Hypothesis HNone : P PyNone.
Hypothesis HBool : forall b, P (PyBool b).
Hypothesis HInt : forall i, P (PyInt i).
Hypothesis HFloat : forall f, P (PyFloat f).
Hypothesis HStr : forall s, P (PyStr s).
Hypothesis HBytes : forall b, P (PyBytes b).
Hypothesis HRational : forall n d, P (IFDRational n d).
Hypothesis HList : forall l, Forall P l -> P (PyList l).
Hypothesis HTuple : forall l, Forall P l -> P (PyTuple l).
Hypothesis HDict : forall d, Forall (fun kv => P (snd kv)) d -> P (PyDict d).

Fixpoint pyval_ind (v : pyval) : P v :=
  match v with
  | PyNone => HNone
  | PyBool b => HBool b
  | PyInt i => HInt i
  | PyFloat f => HFloat f
  | PyStr s => HStr s
  | PyBytes b => HBytes b
  | IFDRational n d => HRational n d
  | PyList l =>
      HList l ((fix all (l : list pyval) : Forall P l :=
                  match l with
                  | [] => Forall_nil P
                  | x :: l' => Forall_cons x (pyval_ind x) (all l')
                  end) l)
  | PyTuple l =>
      HTuple l ((fix all (l : list pyval) : Forall P l :=
                   match l with
                   | [] => Forall_nil P
                   | x :: l' => Forall_cons x (pyval_ind x) (all l')
                   end) l)
  | PyDict d =>
      HDict d ((fix all (d : list (pykey * pyval))
                  : Forall (fun kv => P (snd kv)) d :=
                  match d with
                  | [] => Forall_nil _
                  | kv :: d' => Forall_cons kv (pyval_ind (snd kv)) (all d')
                  end) d)
  end.

End Induction.

Definition dict := list (pykey * pyval).

(** [d.get(k)] / [k in d]. *)
Fixpoint dict_get (d : dict) (k : pykey) : option pyval :=
  match d with
  | [] => None
  | (k', v) :: d' => if pykey_eqb k' k then Some v else dict_get d' k
  end.

(** [d[k] = v]: an existing key keeps its position, a new key goes last. *)
Fixpoint dict_set (d : dict) (k : pykey) (v : pyval) : dict :=
  match d with
  | [] => [(k, v)]
  | (k', v') :: d' =>
      if pykey_eqb k' k then (k', v) :: d' else (k', v') :: dict_set d' k v
  end.

Definition keys (d : dict) : list pykey := map fst d.

(** [type(x).__name__]. *)
Definition type_name (x : pyval) : str :=
  match x with
  | PyNone => u "NoneType"
  | PyBool _ => u "bool"
  | PyInt _ => u "int"
  | PyFloat _ => u "float"
  | PyStr _ => u "str"
  | PyBytes _ => u "bytes"
  | IFDRational _ _ => u "IFDRational"
  | PyList _ => u "list"
  | PyTuple _ => u "tuple"
  | PyDict _ => u "dict"
  end.

(** [x[key]] for a [str] subscript: the value under the key in a
    dictionary, [KeyError] when the key is missing, [TypeError] on
    anything that is not a dictionary. *)
Definition getitem (x : pyval) (key : str) : result pyval :=
  match x with
  | PyDict d =>
      match dict_get d (KStr key) with
      | Some v => ok v
      | None => raise (PyError (u "KeyError") (u "'" ++ key ++ u "'"))
      end
  | PyList _ | PyTuple _ | PyStr _ | PyBytes _ =>
      raise (PyError (u "TypeError")
               (type_name x ++ u " indices must be integers or slices, not str"))
  | _ =>
      raise (PyError (u "TypeError")
               (u "'" ++ type_name x ++ u "' object is not subscriptable"))
  end.

(** [x.get(key)]: [None] when the key is absent. *)
Definition get (x : pyval) (key : str) : result pyval :=
  match x with
  | PyDict d =>
      match dict_get d (KStr key) with
      | Some v => ok v
      | None => ok PyNone
      end
  | _ =>
      raise (PyError (u "AttributeError")
               (u "'" ++ type_name x ++ u "' object has no attribute 'get'"))
  end.

(** Truth value of an object, as [not x] and [x or y] test it. *)
Definition truthy (x : pyval) : bool :=
  match x with
  | PyNone => false
  | PyBool b => b
  | PyInt i => negb (i =? 0)
  | PyFloat f =>
      match f with
      | S754_zero _ => false
      | _ => true
      end
  | PyStr s => match s with [] => false | _ => true end
  | PyBytes b => match b with [] => false | _ => true end
  | IFDRational n d => (d =? 0) || negb (n =? 0)
  | PyList l | PyTuple l => match l with [] => false | _ => true end
  | PyDict d => match d with [] => false | _ => true end
  end.

(** [x or y]. *)
Definition or_ (x y : pyval) : pyval := if truthy x then x else y.

(** [a / b] on integers: the quotient rounded to the nearest binary64
    number, [ZeroDivisionError] for a zero divisor and [OverflowError]
    when the rounded quotient is not finite, i.e. when
    [|a| / |b| >= 2^1024 - 2^970]. *)
Definition int_true_divide (a b : Z) : result float :=
  if b =? 0 then raise (PyError (u "ZeroDivisionError") (u "division by zero"))
  else if a =? 0 then ok (S754_zero (b <? 0))
  else if (2 ^ 1024 - 2 ^ 970) * Z.abs b <=? Z.abs a then
    raise (PyError (u "OverflowError")
                   (u "integer division result too large for a float"))
  else ok (SFdiv prec emax
             (S754_finite (a <? 0) (Z.to_pos (Z.abs a)) 0)
             (S754_finite (b <? 0) (Z.to_pos (Z.abs b)) 0)).

(** [float(r)] for [r = IFDRational(n, d)].  Pillow keeps the value of
    [r] as [float("nan")] when [d == 0] and as [Fraction(n, d)] otherwise;
    [float] of a fraction is the true division of its numerator by its
    positive denominator. *)
Definition IFDRational_float (n d : Z) : result float :=
  if d =? 0 then ok S754_nan
  else int_true_divide (Z.sgn d * n) (Z.abs d).

End Py.

(* ===================================================================== *)
(** * The UTF-8 codec and the representation of bytes *)
(* ===================================================================== *)

Module Codec.
Import Py.

(** The [errors] argument of [bytes.decode]. *)
Inductive error_handler : Type := Strict | Ignore.

Definition byte_val (b : Byte.byte) : Z := Z.of_N (Byte.to_N b).

Definition is_continuation (c : Z) : bool := (128 <=? c) && (c <? 192).

(** What the decoder finds at the head of its input: a code point made
    of [n] bytes, or an error covering [n] bytes. *)
Inductive utf8_step : Type :=
| Decoded (ch : Z) (n : nat)
| Invalid (reason : str) (n : nat).

Definition invalid_start : utf8_step := Invalid (u "invalid start byte") 1.
Definition invalid_continuation (n : nat) : utf8_step :=
  Invalid (u "invalid continuation byte") n.
Definition unexpected_end (s : bytes) : utf8_step :=
  Invalid (u "unexpected end of data") (List.length s).

(** One step of CPython's UTF-8 decoder on the non-empty input [s]
    (Objects/stringlib/codecs.h): shortest forms only, no surrogates,
    nothing above U+10FFFF.  An invalid start byte is an error of one
    byte; an invalid continuation byte ends an error made of the bytes
    before it; a sequence cut by the end of the input is an error that
    runs to the end. *)
Definition utf8_decode_one (s : bytes) : utf8_step :=
  match s with
  | [] => unexpected_end s
  | b1 :: t1 =>
    let ch := byte_val b1 in
    if ch <? 128 then Decoded ch 1
    else if ch <? 194 then invalid_start
    else if ch <? 224 then
      match t1 with
      | [] => unexpected_end s
      | b2 :: _ =>
        let ch2 := byte_val b2 in
        if is_continuation ch2
        then Decoded (Z.shiftl ch 6 + ch2 - (Z.shiftl 192 6 + 128)) 2
        else invalid_continuation 1
      end
    else if ch <? 240 then
      match t1 with
      | [] => unexpected_end s
      | b2 :: t2 =>
        let ch2 := byte_val b2 in
        if negb (is_continuation ch2)
           || (if ch2 <? 160 then ch =? 224 else ch =? 237)
        then invalid_continuation 1
        else
          match t2 with
          | [] => unexpected_end s
          | b3 :: _ =>
            let ch3 := byte_val b3 in
            if is_continuation ch3
            then Decoded (Z.shiftl ch 12 + Z.shiftl ch2 6 + ch3
                          - (Z.shiftl 224 12 + Z.shiftl 128 6 + 128)) 3
            else invalid_continuation 2
          end
      end
    else if ch <? 245 then
      match t1 with
      | [] => unexpected_end s
      | b2 :: t2 =>
        let ch2 := byte_val b2 in
        if negb (is_continuation ch2)
           || (if ch2 <? 144 then ch =? 240 else ch =? 244)
        then invalid_continuation 1
        else
          match t2 with
          | [] => unexpected_end s
          | b3 :: t3 =>
            let ch3 := byte_val b3 in
            if negb (is_continuation ch3) then invalid_continuation 2
            else
              match t3 with
              | [] => unexpected_end s
              | b4 :: _ =>
                let ch4 := byte_val b4 in
                if is_continuation ch4
                then Decoded (Z.shiftl ch 18 + Z.shiftl ch2 12
                              + Z.shiftl ch3 6 + ch4
                              - (Z.shiftl 240 18 + Z.shiftl 128 12
                                 + Z.shiftl 128 6 + 128)) 4
                else invalid_continuation 3
              end
          end
      end
    else invalid_start
  end.

(** The decoding loop.  [skip] counts the bytes of the current sequence
    (or of the current error) that are still to be passed over.  With
    [Strict] the first error raises [UnicodeDecodeError]; with [Ignore]
    the bytes of the error are dropped and decoding resumes after them. *)
Fixpoint utf8_decode_from (errors : error_handler) (skip : nat) (s : bytes)
  : result str :=
  match s with
  | [] => ok []
  | _ :: rest =>
    match skip with
    | S k => utf8_decode_from errors k rest
    | O =>
      match utf8_decode_one s with
      | Decoded ch n => rmap (cons ch) (utf8_decode_from errors (n - 1) rest)
      | Invalid reason n =>
        match errors with
        | Strict =>
            raise (PyError (u "UnicodeDecodeError")
                     (u "'utf-8' codec can't decode bytes: " ++ reason))
        | Ignore => utf8_decode_from errors (n - 1) rest
        end
      end
    end
  end.

(** [val.decode("utf-8", errors=...)]. *)
Definition decode_utf8 (errors : error_handler) (val : bytes) : result str :=
  utf8_decode_from errors 0 val.

(** [str(val)] for a [bytes] object is its [repr]: [b'...'] with the
    quote, the backslash and the non-printable bytes escaped. *)
Definition hex_digit (n : Z) : Z :=
  if n <? 10 then 48 + n else 87 + n.

Definition repr_byte (quote : Z) (b : Byte.byte) : str :=
  let c := byte_val b in
  if (c =? quote) || (c =? 92) then [92; c]
  else if c =? 9 then [92; 116]
  else if c =? 10 then [92; 110]
  else if c =? 13 then [92; 114]
  else if (c <? 32) || (127 <=? c) then [92; 120; hex_digit (c / 16); hex_digit (c mod 16)]
  else [c].

(** [s.encode("utf-8")]: surrogates cannot be encoded. *)
Definition byte_of_Z (z : Z) : Byte.byte :=
  match Byte.of_N (Z.to_N z) with
  | Some b => b
  | None => Byte.x00
  end.

Definition utf8_encode_one (ch : Z) : result bytes :=
  if ch <? 128 then ok [byte_of_Z ch]
  else if ch <? 2048 then
    ok [byte_of_Z (192 + Z.shiftr ch 6); byte_of_Z (128 + Z.land ch 63)]
  else if (55296 <=? ch) && (ch <? 57344) then
    raise (PyError (u "UnicodeEncodeError")
                   (u "'utf-8' codec can't encode character: surrogates not allowed"))
  else if ch <? 65536 then
    ok [byte_of_Z (224 + Z.shiftr ch 12);
        byte_of_Z (128 + Z.land (Z.shiftr ch 6) 63);
        byte_of_Z (128 + Z.land ch 63)]
  else
    ok [byte_of_Z (240 + Z.shiftr ch 18);
        byte_of_Z (128 + Z.land (Z.shiftr ch 12) 63);
        byte_of_Z (128 + Z.land (Z.shiftr ch 6) 63);
        byte_of_Z (128 + Z.land ch 63)].

Fixpoint encode_utf8 (s : str) : result bytes :=
  match s with
  | [] => ok []
  | ch :: s' =>
      rbind (utf8_encode_one ch) (fun b =>
      rbind (encode_utf8 s') (fun bs => ok (b ++ bs)))
  end.

Definition contains (c : Z) (val : bytes) : bool :=
  existsb (fun b => byte_val b =? c) val.

Definition bytes_str (val : bytes) : str :=
  let quote := if contains 39 val && negb (contains 34 val) then 34 else 39 in
  [98; quote] ++ flat_map (repr_byte quote) val ++ [quote].

End Codec.

(* ===================================================================== *)
(** * pathlib *)
(* ===================================================================== *)

Module Pathlib.
Import Py.

(** [s.split("/")]. *)
Fixpoint split_slash (s : str) : list str :=
  match s with
  | [] => [[]]
  | c :: s' =>
      if c =? 47 then [] :: split_slash s'
      else
        match split_slash s' with
        | [] => [[c]]
        | seg :: segs => (c :: seg) :: segs
        end
  end.

(** The components of a POSIX path below its root: the segments between
    slashes, without the empty ones and without the ["."] ones. *)
Definition is_component (seg : str) : bool :=
  negb (str_eqb seg []) && negb (str_eqb seg (u ".")).

Definition parts (path : str) : list str :=
  filter is_component (split_slash path).

(** [Path(path).name]: the final component, [""] when there is none. *)
Definition name (path : str) : str := last (parts path) [].

#[global] Arguments name path : simpl never.

(** [Path(x).name] on a value: [Path] takes a [str]. *)
Definition Path_name (x : pyval) : result str :=
  match x with
  | PyStr path => ok (name path)
  | _ =>
      raise (PyError (u "TypeError")
               (u "expected str, bytes or os.PathLike object"))
  end.

End Pathlib.

(* ===================================================================== *)
(** * Effects: the world of the handler *)
(* ===================================================================== *)

Module Eff.
Import Py.

(** The calls the handler makes on the blob-store client, with their
    keyword arguments. *)
Inductive call : Type :=
| HeadObject (Bucket Key : pyval)
| GetObject (Bucket Key : pyval)
| PutObject (Bucket Key : pyval) (Body : str) (ContentType : str).

(** An object of the store. *)
Record S3Object : Type := { Body : bytes; ContentType : str }.

Definition store := list ((str * str) * S3Object).

(** The world outside the handler:
    - [objects]: the content of the blob store;
    - [faults]: what goes wrong with the next requests sent to the store
      (one entry per request, [None] for a request served normally; no
      entry left means no more faults);
    - [calls]: the client calls made so far, oldest first;
    - [stdout]: the lines printed so far, oldest first;
    - [clock], [ticks]: the ISO-8601 text of the UTC time at each reading
      of the clock, and the number of readings so far. *)
Record World : Type := {
  objects : store;
  faults : list (option exn);
  calls : list call;
  stdout : list str;
  clock : nat -> str;
  ticks : nat
}.

Definition with_objects (o : store) (w : World) : World :=
  {| objects := o; faults := faults w; calls := calls w;
     stdout := stdout w; clock := clock w; ticks := ticks w |}.

Definition with_faults (f : list (option exn)) (w : World) : World :=
  {| objects := objects w; faults := f; calls := calls w;
     stdout := stdout w; clock := clock w; ticks := ticks w |}.

Definition with_calls (c : list call) (w : World) : World :=
  {| objects := objects w; faults := faults w; calls := c;
     stdout := stdout w; clock := clock w; ticks := ticks w |}.

Definition with_stdout (out : list str) (w : World) : World :=
  {| objects := objects w; faults := faults w; calls := calls w;
     stdout := out; clock := clock w; ticks := ticks w |}.

Definition with_ticks (n : nat) (w : World) : World :=
  {| objects := objects w; faults := faults w; calls := calls w;
     stdout := stdout w; clock := clock w; ticks := n |}.

(** A computation reads and changes the world and returns or raises.
    The world reached when it raises is kept: what was printed, called
    and written before the exception stays so. *)
Definition M (A : Type) : Type := World -> result A * World.

Definition ret {A} (a : A) : M A := fun w => (ok a, w).

Definition throw {A} (e : exn) : M A := fun w => (raise e, w).

Definition bind {A B} (c : M A) (k : A -> M B) : M B :=
  fun w =>
    match c w with
    | (inl e, w') => (inl e, w')
    | (inr a, w') => k a w'
    end.

(** A pure computation that may raise. *)
Definition lift {A} (r : result A) : M A := fun w => (r, w).

(** [try: c  except Exception as e: h e]. *)
Definition try_except {A} (c : M A) (h : exn -> M A) : M A :=
  fun w =>
    match c w with
    | (inl e, w') => h e w'
    | (inr a, w') => (inr a, w')
    end.

(** [print(line)]. *)
Definition print (line : str) : M unit :=
  fun w => (ok tt, with_stdout (stdout w ++ [line]) w).

(** [datetime.utcnow().isoformat()]. *)
Definition utcnow_isoformat : M str :=
  fun w => (ok (clock w (ticks w)), with_ticks (S (ticks w)) w).

End Eff.

Declare Scope eff_scope.
Delimit Scope eff_scope with eff.
Notation "x <- c ;; k" := (Eff.bind c (fun x => k))
  (at level 61, c at next level, right associativity) : eff_scope.
Notation "c ;; k" := (Eff.bind c (fun _ => k))
  (at level 61, right associativity) : eff_scope.

(* ===================================================================== *)
(** * The blob-store client *)
(* ===================================================================== *)

Module S3.
Import Py Eff.

Definition key_eqb (a b : str * str) : bool :=
  str_eqb (fst a) (fst b) && str_eqb (snd a) (snd b).

Fixpoint lookup (objs : store) (bk : str * str) : option S3Object :=
  match objs with
  | [] => None
  | (bk', o) :: objs' => if key_eqb bk' bk then Some o else lookup objs' bk
  end.

Fixpoint insert (objs : store) (bk : str * str) (o : S3Object) : store :=
  match objs with
  | [] => [(bk, o)]
  | (bk', o') :: objs' =>
      if key_eqb bk' bk then (bk', o) :: objs'
      else (bk', o') :: insert objs' bk o
  end.

(** Every client call is recorded, whatever becomes of it. *)
Definition record_call (c : call) : M unit :=
  fun w => (ok tt, with_calls (calls w ++ [c]) w).

(** The client checks its arguments before it sends anything. *)
Definition validate (Bucket Key : pyval) : M (str * str) :=
  match Bucket, Key with
  | PyStr b, PyStr k => ret (b, k)
  | _, _ =>
      throw (PyError (u "ParamValidationError")
                     (u "Parameter validation failed"))
  end.

(** Sending a request: the next fault, when there is one, is raised. *)
Definition send : M unit :=
  fun w =>
    match faults w with
    | [] => (ok tt, w)
    | Some e :: fs => (raise e, with_faults fs w)
    | None :: fs => (ok tt, with_faults fs w)
    end.

Definition read_object (bk : str * str) : M (option S3Object) :=
  fun w => (ok (lookup (objects w) bk), w).

Definition write_object (bk : str * str) (o : S3Object) : M unit :=
  fun w => (ok tt, with_objects (insert (objects w) bk o) w).

Local Open Scope eff_scope.

(** [s3.head_object(Bucket=..., Key=...)]: succeeds when the object is
    there, fails with the code ["404"] when it is not. *)
Definition head_object (Bucket Key : pyval) : M unit :=
  record_call (HeadObject Bucket Key) ;;
  bk <- validate Bucket Key ;;
  send ;;
  o <- read_object bk ;;
  match o with
  | Some _ => ret tt
  | None => throw (ClientError (u "404") (u "Not Found") (u "HeadObject"))
  end.

(** The response of [get_object]: [image_obj["Body"].read()] and
    [image_obj["ContentLength"]]. *)
Record GetObjectOutput : Type := { Body_read : bytes; ContentLength : Z }.

(** [s3.get_object(Bucket=..., Key=...)]. *)
Definition get_object (Bucket Key : pyval) : M GetObjectOutput :=
  record_call (GetObject Bucket Key) ;;
  bk <- validate Bucket Key ;;
  send ;;
  o <- read_object bk ;;
  match o with
  | Some o =>
      ret {| Body_read := Body o;
             ContentLength := Z.of_nat (List.length (Body o)) |}
  | None =>
      throw (ClientError (u "NoSuchKey")
                         (u "The specified key does not exist.")
                         (u "GetObject"))
  end.

(** [s3.put_object(Bucket=..., Key=..., Body=..., ContentType=...)]: a
    [str] body is sent as its UTF-8 encoding. *)
Definition put_object (Bucket Key : pyval) (body : str) (content_type : str)
  : M unit :=
  record_call (PutObject Bucket Key body content_type) ;;
  bk <- validate Bucket Key ;;
  data <- lift (Codec.encode_utf8 body) ;;
  send ;;
  write_object bk {| Body := data; ContentType := content_type |}.

End S3.

(* ===================================================================== *)
(** * The libraries the module imports *)
(* ===================================================================== *)

Module Lib.
Import Py.

(** An opened [PIL.Image]: the attributes the handler reads and the
    outcome of its [_getexif()] method ([None], or a dictionary from tag
    identifiers to values, or an exception). *)
Record Image : Type := {
  format : str;
  width : Z;
  height : Z;
  _getexif : result (option (list (Z * pyval)))
}.

(** The library functions and the configuration the module depends on:
    - [OUTPUT_PREFIX]: [os.environ["OUTPUT_PREFIX"]];
    - [json_loads]: [json.loads];
    - [json_dumps obj indent]: [json.dumps(obj, indent=indent)];
    - [Image_open data]: [Image.open(BytesIO(data))];
    - [TAGS_get]: [ExifTags.TAGS.get], the names of the known tags. *)
Record Env : Type := {
  OUTPUT_PREFIX : str;
  json_loads : str -> result pyval;
  json_dumps : pyval -> Z -> result str;
  Image_open : bytes -> result Image;
  TAGS_get : Z -> option str
}.

End Lib.

(* ===================================================================== *)
(** * metadata.py *)
(* ===================================================================== *)

Module Metadata.
Import Py Eff Lib.
Local Open Scope eff_scope.

(** An SQS record and the event that carries the batch. *)
Record sqs_record : Type := { body : str }.
Record sqs_event : Type := { Records : list sqs_record }.

(** The two comprehensions of [convert_value], over the function [f]
    applied to each value. *)
Section Comprehensions.

Variable f : pyval -> result pyval.

(** [{k: f(v) for k, v in items}]: the items are set one after the other
    in the dictionary under construction, [acc]. *)
Fixpoint dict_comprehension (items : list (pykey * pyval)) (acc : dict)
  : result dict :=
  match items with
  | [] => ok acc
  | (k, v) :: items' =>
      rbind (f v) (fun v' => dict_comprehension items' (dict_set acc k v'))
  end.

(** [[f(v) for v in items]]. *)
Fixpoint list_comprehension (items : list pyval) : result (list pyval) :=
  match items with
  | [] => ok []
  | v :: items' =>
      rbind (f v) (fun v' =>
      rbind (list_comprehension items') (fun vs => ok (v' :: vs)))
  end.

End Comprehensions.

(** [convert_value], the local function of [extract_exif]. *)
Fixpoint convert_value (val : pyval) : result pyval :=
  match val with
  | IFDRational n d => rmap PyFloat (IFDRational_float n d)
  | PyBytes b =>
      rtry (rmap PyStr (Codec.decode_utf8 Codec.Ignore b))
           (fun _ => ok (PyStr (Codec.bytes_str b)))
  | PyDict d => rmap PyDict (dict_comprehension convert_value d [])
  | PyList l | PyTuple l => rmap PyList (list_comprehension convert_value l)
  | _ => ok val
  end.

Section Handler.

Variable env : Env.

(** [metadata_exists(bucket, key)]. *)
Definition metadata_exists (bucket key : pyval) : M bool :=
  try_except
    (S3.head_object bucket key ;; ret true)
    (fun e =>
       match e with
       | ClientError code _ _ =>
           if str_eqb code (u "404") then ret false else throw e
       | _ => throw e
       end).

(** The loop of [extract_exif] over [exif_raw.items()]. *)
Fixpoint exif_items (items : list (Z * pyval)) (exif_clean : dict)
  : result dict :=
  match items with
  | [] => ok exif_clean
  | (tag_id, value) :: items' =>
      let tag_name :=
        match TAGS_get env tag_id with
        | Some name => KStr name
        | None => KInt tag_id
        end in
      rbind (convert_value value) (fun v =>
      exif_items items' (dict_set exif_clean tag_name v))
  end.

(** [extract_exif(image)]. *)
Definition extract_exif (image : Image) : M pyval :=
  try_except
    (exif_raw <- lift (_getexif image) ;;
     match exif_raw with
     | None | Some [] => ret PyNone
     | Some items =>
         exif_clean <- lift (exif_items items []) ;;
         ret (PyDict exif_clean)
     end)
    (fun e =>
       print (u "Error extracting EXIF: " ++ exn_str e) ;;
       ret PyNone).

(** [f"{OUTPUT_PREFIX}/{filename}.json"]. *)
Definition metadata_key_of (filename : str) : str :=
  OUTPUT_PREFIX env ++ u "/" ++ filename ++ u ".json".

(** The body of the [try] block of [lambda_handler] for one record.
    Leaving it by [continue] and reaching its end are the same return. *)
Definition process_record (record : sqs_record) : M unit :=
  message <- lift (json_loads env (body record)) ;;
  bucket <- lift (getitem message (u "bucket")) ;;
  key <- lift (getitem message (u "key")) ;;
  etag <- lift (get message (u "etag")) ;;
  filename <- lift (Pathlib.Path_name key) ;;
  let metadata_key := metadata_key_of filename in
  found <- metadata_exists bucket (PyStr metadata_key) ;;
  if found : bool then
    print (u "Metadata already exists, skipping: " ++ metadata_key)
  else
    image_obj <- S3.get_object bucket key ;;
    let image_bytes := S3.Body_read image_obj in
    let file_size := S3.ContentLength image_obj in
    image <- lift (Image_open env image_bytes) ;;
    exif <- extract_exif image ;;
    processed_at <- utcnow_isoformat ;;
    let metadata :=
      PyDict [ (KStr (u "source_bucket"), bucket);
               (KStr (u "source_key"), key);
               (KStr (u "etag"), etag);
               (KStr (u "format"), PyStr (format image));
               (KStr (u "width"), PyInt (width image));
               (KStr (u "height"), PyInt (height image));
               (KStr (u "file_size_bytes"), PyInt file_size);
               (KStr (u "exif"), or_ exif (PyDict []));
               (KStr (u "processed_at"), PyStr processed_at) ] in
    text <- lift (json_dumps env metadata 2) ;;
    S3.put_object bucket (PyStr metadata_key) text (u "application/json") ;;
    print (u "Metadata written to: " ++ metadata_key).

(** The [except Exception as e] clause of [lambda_handler]. *)
Definition on_failure (e : exn) : M unit :=
  print (u "Failed processing message") ;;
  print (exn_str e) ;;
  throw e.

(** The [for] loop of [lambda_handler]. *)
Fixpoint process_records (records : list sqs_record) : M unit :=
  match records with
  | [] => ret tt
  | record :: records' =>
      try_except (process_record record) on_failure ;;
      process_records records'
  end.

(** [lambda_handler(event, context)]. *)
Definition lambda_handler (event : sqs_event) : M pyval :=
  process_records (Records event) ;;
  ret (PyDict [(KStr (u "statusCode"), PyInt 200)]).

End Handler.

End Metadata.


(* ===================================================================== *)
(** * The vocabulary of the specification *)
(* ===================================================================== *)

Module Spec.
Import Py.

(** A Python dictionary holds each key once. *)
Fixpoint distinct (ks : list pykey) : bool :=
  match ks with
  | [] => true
  | k :: ks' => negb (existsb (pykey_eqb k) ks') && distinct ks'
  end.

(** The values that exist at run time: every dictionary in them holds
    each of its keys once. *)
Fixpoint well_formed (v : pyval) : bool :=
  match v with
  | PyList l | PyTuple l => forallb well_formed l
  | PyDict d =>
      distinct (keys d) && forallb (fun kv => well_formed (snd kv)) d
  | _ => true
  end.

(** The rationals of EXIF data are pairs of 32-bit integers (the TIFF
    types RATIONAL and SRATIONAL). *)
Definition rational_in_range (n d : Z) : bool :=
  (Z.abs n <? 2 ^ 32) && (Z.abs d <? 2 ^ 32).

Fixpoint rationals_in_range (v : pyval) : bool :=
  match v with
  | IFDRational n d => rational_in_range n d
  | PyList l | PyTuple l => forallb rationals_in_range l
  | PyDict d => forallb (fun kv => rationals_in_range (snd kv)) d
  | _ => true
  end.

(** The shape of a value: its nesting of mappings and sequences, with the
    keys of the mappings and the order of the sequences. *)
#[local] Unset Elimination Schemes.
Inductive shape : Type :=
| Leaf
| Sequence (l : list shape)
| Mapping (d : list (pykey * shape)).
#[local] Set Elimination Schemes.

Fixpoint shape_of (v : pyval) : shape :=
  match v with
  | PyList l | PyTuple l => Sequence (map shape_of l)
  | PyDict d => Mapping (map (fun kv => (fst kv, shape_of (snd kv))) d)
  | _ => Leaf
  end.

(** Does a value hold a rational number, a byte string or a tuple
    somewhere?  A JSON value holds none. *)
Fixpoint json_representable (v : pyval) : bool :=
  match v with
  | IFDRational _ _ | PyBytes _ | PyTuple _ => false
  | PyList l => forallb json_representable l
  | PyDict d => forallb (fun kv => json_representable (snd kv)) d
  | _ => true
  end.

(** Applying a function that may raise to every element, in order. *)
Section Traverse.

Context {A B : Type}.
Variable f : A -> result B.

Fixpoint traverse (l : list A) : result (list B) :=
  match l with
  | [] => ok []
  | x :: l' =>
      rbind (f x) (fun y => rbind (traverse l') (fun ys => ok (y :: ys)))
  end.

End Traverse.

(** The normalizer as the specification words it: a rational becomes a
    floating-point number, a byte string its lossy UTF-8 decoding, a
    mapping a mapping with the same keys and each value normalized, a
    sequence the sequence of its normalized elements, anything else is
    returned unchanged. *)
Fixpoint normalize (v : pyval) : result pyval :=
  match v with
  | IFDRational n d => rmap PyFloat (IFDRational_float n d)
  | PyBytes b => rmap PyStr (Codec.decode_utf8 Codec.Ignore b)
  | PyDict d =>
      rmap PyDict
        (traverse (fun kv => rmap (pair (fst kv)) (normalize (snd kv))) d)
  | PyList l | PyTuple l => rmap PyList (traverse normalize l)
  | _ => ok v
  end.

(** The store's "not found": a [ClientError] whose code is ["404"]. *)
Definition is_not_found (e : exn) : bool :=
  match e with
  | ClientError code _ _ => str_eqb code (u "404")
  | _ => false
  end.

(** The last path segment of a key: what follows its last slash, or the
    whole key when it has none. *)
Definition last_path_segment (key : str) : str :=
  last (Pathlib.split_slash key) [].

(** [m] and [l] locate the fraction [N / D]: [m] is its integer part and
    [l] says where its fractional part lies with respect to one half. *)
Definition located (m : Z) (l : location) (N D : Z) : Prop :=
  match l with
  | loc_Exact => N = m * D
  | loc_Inexact Lt => m * D < N /\ 2 * N < (2 * m + 1) * D
  | loc_Inexact Eq => 2 * N = (2 * m + 1) * D
  | loc_Inexact Gt => (2 * m + 1) * D < 2 * N /\ N < (m + 1) * D
  end.

(** [f] is the binary64 number nearest to the quotient [n / d] of two
    integers of EXIF data, [d] not zero: zero for a zero numerator, and
    otherwise the normal number [m * 2^e] of the sign of the quotient
    with [| m * 2^e - |n| / |d| | <= 2^e / 2], the mantissa [m] being even
    when the quotient is half-way between two numbers.  (The inequality
    is stated after multiplication by [2^(1-e) * |d|]; quotients of
    32-bit integers have a negative exponent [e].) *)
Definition nearest_float (n d : Z) (f : float) : Prop :=
  match f with
  | S754_zero s => n = 0 /\ s = false
  | S754_finite s m e =>
      s = (n * d <? 0) /\
      2 ^ 52 <= Z.pos m < 2 ^ 53 /\
      e < 0 /\
      Z.abs (2 * Z.pos m * Z.abs d - Z.abs n * 2 ^ (1 - e)) <= Z.abs d /\
      (Z.abs (2 * Z.pos m * Z.abs d - Z.abs n * 2 ^ (1 - e)) = Z.abs d ->
       Z.even (Z.pos m) = true)
  | _ => False
  end.

(** The exact value of a finite floating-point number, as a fraction
    [p / q] with [q > 0]. *)
Definition float_value (f : float) : option (Z * Z) :=
  match f with
  | S754_zero _ => Some (0, 1)
  | S754_finite s m e =>
      let m' := if s then Z.neg m else Z.pos m in
      if 0 <=? e then Some (m' * 2 ^ e, 1) else Some (m', 2 ^ (- e))
  | _ => None
  end.

(** The metadata document, as [lambda_handler] composes it. *)
Definition document (bucket key etag : pyval) (image : Lib.Image)
  (file_size : Z) (exif : pyval) (processed_at : str) : pyval :=
  PyDict [ (KStr (u "source_bucket"), bucket);
           (KStr (u "source_key"), key);
           (KStr (u "etag"), etag);
           (KStr (u "format"), PyStr (Lib.format image));
           (KStr (u "width"), PyInt (Lib.width image));
           (KStr (u "height"), PyInt (Lib.height image));
           (KStr (u "file_size_bytes"), PyInt file_size);
           (KStr (u "exif"), exif);
           (KStr (u "processed_at"), PyStr processed_at) ].

(** The outcome of the next request sent to the store, as far as the
    pending faults decide it. *)
Definition served (fs : list (option exn)) : result unit :=
  match fs with
  | Some e :: _ => raise e
  | _ => ok tt
  end.

(** The next [n] requests meet no fault. *)
Fixpoint all_served (n : nat) (fs : list (option exn)) : bool :=
  match n with
  | O => true
  | S n' =>
      match fs with
      | Some _ :: _ => false
      | _ => all_served n' (tl fs)
      end
  end.

(** What the [try] block of [extract_exif] computes; it has no effect. *)
Definition exif_outcome (env : Lib.Env) (image : Lib.Image) : result pyval :=
  rbind (Lib._getexif image) (fun exif_raw =>
    match exif_raw with
    | None | Some [] => ok PyNone
    | Some items => rmap PyDict (Metadata.exif_items env items [])
    end).

(** The line [extract_exif] prints when its [try] block raises. *)
Definition exif_log (env : Lib.Env) (image : Lib.Image) : list str :=
  match exif_outcome env image with
  | inl e => [u "Error extracting EXIF: " ++ exn_str e]
  | inr _ => []
  end.

(** The value of [extract_exif(image) or {}]. *)
Definition exif_field (env : Lib.Env) (image : Lib.Image) : pyval :=
  match exif_outcome env image with
  | inl _ => PyDict []
  | inr r => or_ r (PyDict [])
  end.

End Spec.

(* ===================================================================== *)
(** * More vocabulary: calls, stores, tags and code points *)
(* ===================================================================== *)

Module Behaviour.
Import Py Eff Lib Metadata.

(** The existence probes among the calls. *)
Definition is_probe (c : call) : bool :=
  match c with
  | HeadObject _ _ => true
  | _ => false
  end.

(** A record whose metadata document is in the store [objs]. *)
Definition documented (env : Lib.Env) (objs : store) (record : sqs_record)
  : Prop :=
  exists message b key obj,
    Lib.json_loads env (body record) = ok message /\
    getitem message (u "bucket") = ok (PyStr b) /\
    getitem message (u "key") = ok (PyStr key) /\
    S3.lookup objs (b, metadata_key_of env (Pathlib.name key)) = Some obj.

(** The values of a dictionary, in order. *)
Definition values (d : dict) : list pyval := map snd d.

(** The rationals a value holds, from left to right. *)
Fixpoint rationals (v : pyval) : list (Z * Z) :=
  match v with
  | IFDRational n d => [(n, d)]
  | PyList l | PyTuple l => flat_map rationals l
  | PyDict d => flat_map (fun kv => rationals (snd kv)) d
  | _ => []
  end.

(** How deep a value nests mappings and sequences: the number of calls
    of [convert_value] that are open at once while it converts the
    value, less one. *)
Fixpoint depth (v : pyval) : nat :=
  match v with
  | PyList l | PyTuple l => S (list_max (map depth l))
  | PyDict d => S (list_max (map (fun kv => depth (snd kv)) d))
  | _ => 0
  end.

(** A quotient too large for a float. *)
Definition overflows (nd : Z * Z) : Prop :=
  snd nd <> 0 /\ (2 ^ 1024 - 2 ^ 970) * Z.abs (snd nd) <= Z.abs (fst nd).

Definition OverflowError : exn :=
  PyError (u "OverflowError")
          (u "integer division result too large for a float").

(** [ExifTags.TAGS.get(tag_id, tag_id)]: the name of a known tag, the
    identifier of an unknown one. *)
Definition tag_key (env : Env) (tag_id : Z) : pykey :=
  match TAGS_get env tag_id with
  | Some name => KStr name
  | None => KInt tag_id
  end.

(** The value of the last item filed under the key [k]. *)
Fixpoint last_tagged (env : Env) (k : pykey) (items : list (Z * pyval))
  : option pyval :=
  match items with
  | [] => None
  | (tag_id, value) :: items' =>
      match last_tagged env k items' with
      | Some v => Some v
      | None => if pykey_eqb (tag_key env tag_id) k then Some value else None
      end
  end.

(** A Unicode scalar value: a code point that is not a surrogate. *)
Definition is_scalar (c : Z) : bool :=
  ((0 <=? c) && (c <? 55296)) || ((57344 <=? c) && (c <=? 1114111)).

End Behaviour.

(* ===================================================================== *)
(** * Test doubles *)
(* ===================================================================== *)

(** A printer for documents, after [json.dumps(obj, indent=n)].  It
    stands for the library in the examples: it prints every JSON value
    but the finite floating-point numbers. *)
Module Json.
Import Py.

Definition int_str (i : Z) : str :=
  u (DecimalString.NilZero.string_of_int (Z.to_int i)).

Definition hex4 (c : Z) : str :=
  map (fun k => Codec.hex_digit ((c / 16 ^ k) mod 16)) [3; 2; 1; 0].

(** One character of a string, ASCII only. *)
Definition escape (c : Z) : str :=
  if c =? 34 then [92; 34]
  else if c =? 92 then [92; 92]
  else if c =? 10 then [92; 110]
  else if c =? 13 then [92; 114]
  else if c =? 9 then [92; 116]
  else if c =? 8 then [92; 98]
  else if c =? 12 then [92; 102]
  else if (32 <=? c) && (c <=? 126) then [c]
  else if c <? 65536 then [92; 117] ++ hex4 c
  else
    let v := c - 65536 in
    [92; 117] ++ hex4 (55296 + Z.shiftr v 10) ++
    [92; 117] ++ hex4 (56320 + Z.land v 1023).

Definition quoted (s : str) : str := [34] ++ flat_map escape s ++ [34].

Definition newline (indent : Z) (level : nat) : str :=
  10 :: repeat 32 (Z.to_nat indent * level).

Fixpoint join (sep : str) (items : list str) : str :=
  match items with
  | [] => []
  | [x] => x
  | x :: items' => x ++ sep ++ join sep items'
  end.

Definition block (opening closing : Z) (indent : Z) (level : nat)
  (items : list str) : str :=
  match items with
  | [] => [opening; closing]
  | _ =>
      [opening] ++ newline indent (S level)
        ++ join (44 :: newline indent (S level)) items
        ++ newline indent level ++ [closing]
  end.

Definition key_str (k : pykey) : str :=
  match k with
  | KInt i => quoted (int_str i)
  | KStr s => quoted s
  end.

Definition unserializable (type : string) : exn :=
  PyError (u "TypeError")
          (u "Object of type " ++ u type ++ u " is not JSON serializable").

Fixpoint print_value (indent : Z) (level : nat) (v : pyval) : result str :=
  match v with
  | PyNone => ok (u "null")
  | PyBool true => ok (u "true")
  | PyBool false => ok (u "false")
  | PyInt i => ok (int_str i)
  | PyFloat S754_nan => ok (u "NaN")
  | PyFloat (S754_infinity false) => ok (u "Infinity")
  | PyFloat (S754_infinity true) => ok (u "-Infinity")
  | PyFloat _ => raise (unserializable "float")
  | PyStr s => ok (quoted s)
  | PyBytes _ => raise (unserializable "bytes")
  | IFDRational _ _ => raise (unserializable "IFDRational")
  | PyList l | PyTuple l =>
      rmap (block 91 93 indent level)
           (Spec.traverse (print_value indent (S level)) l)
  | PyDict d =>
      rmap (block 123 125 indent level)
           (Spec.traverse
              (fun kv =>
                 rmap (fun s => key_str (fst kv) ++ u ": " ++ s)
                      (print_value indent (S level) (snd kv)))
              d)
  end.

Definition dumps (obj : pyval) (indent : Z) : result str :=
  print_value indent 0 obj.

End Json.

(** The worlds and the libraries of the examples. *)
Module Fixture.
Import Py Eff Lib Metadata.

Definition quote (s : string) : str := [34] ++ u s ++ [34].

(** The body of a notification and the message it carries. *)
Definition notification (bucket key etag : string) : sqs_record :=
  {| body := u "{" ++ quote "bucket" ++ u ":" ++ quote bucket ++ u ","
               ++ quote "key" ++ u ":" ++ quote key ++ u ","
               ++ quote "etag" ++ u ":" ++ quote etag ++ u "}" |}.

Definition message (bucket key etag : string) : pyval :=
  PyDict [ (KStr (u "bucket"), PyStr (u bucket));
           (KStr (u "key"), PyStr (u key));
           (KStr (u "etag"), PyStr (u etag)) ].

Definition img1 : sqs_record := notification "b" "photos/img1.jpg" "abc".
Definition img2 : sqs_record := notification "b" "photos/img2.jpg" "def".
Definition img3 : sqs_record := notification "b" "photos/img3.jpg" "ghi".
Definition img1_copy : sqs_record := notification "b" "backup/img1.jpg" "abc".

(** [json.loads] on the notifications above; any other text is taken as
    malformed. *)
Definition loads (s : str) : result pyval :=
  if str_eqb s (body img1) then ok (message "b" "photos/img1.jpg" "abc")
  else if str_eqb s (body img2) then ok (message "b" "photos/img2.jpg" "def")
  else if str_eqb s (body img3) then ok (message "b" "photos/img3.jpg" "ghi")
  else if str_eqb s (body img1_copy) then ok (message "b" "backup/img1.jpg" "abc")
  else raise (PyError (u "JSONDecodeError") (u "Expecting value"))%string.

(** The payloads of the store, by their first bytes, and the images they
    decode to. *)
Definition jpeg_plain : bytes := [Byte.xff; Byte.xd8; Byte.xff; Byte.xe0].
Definition jpeg_tagged : bytes := [Byte.xff; Byte.xd8; Byte.xff; Byte.xe1].
Definition jpeg_damaged : bytes := [Byte.xff; Byte.xd8; Byte.xff; Byte.xfe].

(** The tag data of [jpeg_tagged]: a maker note that is not UTF-8, an
    exposure time of half a second and a GPS latitude. *)
Definition tag_data : list (Z * pyval) :=
  [ (37500, PyBytes [Byte.x4e; Byte.xff; Byte.x6b]);
    (33434, IFDRational 1 2);
    (34853, PyDict [ (KInt 1, PyStr (u "N"));
                     (KInt 2, PyTuple [IFDRational 40 1; IFDRational 26 1;
                                       IFDRational 4614 100]) ]) ].

Definition plain_image : Image :=
  {| format := u "JPEG"; width := 100; height := 200; _getexif := ok None |}.

Definition tagged_image : Image :=
  {| format := u "JPEG"; width := 640; height := 480;
     _getexif := ok (Some tag_data) |}.

Definition damaged_image : Image :=
  {| format := u "JPEG"; width := 8; height := 8;
     _getexif := raise (PyError (u "SyntaxError") (u "not a TIFF file")) |}.

Fixpoint bytes_eqb (a b : bytes) : bool :=
  match a, b with
  | [], [] => true
  | x :: a', y :: b' => Byte.eqb x y && bytes_eqb a' b'
  | _, _ => false
  end.

Definition open_image (data : bytes) : result Image :=
  if bytes_eqb data jpeg_plain then ok plain_image
  else if bytes_eqb data jpeg_tagged then ok tagged_image
  else if bytes_eqb data jpeg_damaged then ok damaged_image
  else raise (PyError (u "UnidentifiedImageError")
                      (u "cannot identify image file")).

Definition tag_names (tag_id : Z) : option str :=
  if tag_id =? 33434 then Some (u "ExposureTime")
  else if tag_id =? 34853 then Some (u "GPSInfo")
  else if tag_id =? 37500 then Some (u "MakerNote")
  else None.

Definition env : Env :=
  {| OUTPUT_PREFIX := u "metadata";
     json_loads := loads;
     json_dumps := Json.dumps;
     Image_open := open_image;
     TAGS_get := tag_names |}.

Definition jpeg (data : bytes) : S3Object :=
  {| Body := data; ContentType := u "image/jpeg" |}.

(** A store with the first and the third image, and no fault ahead. *)
Definition world : World :=
  {| objects := [ ((u "b", u "photos/img1.jpg"), jpeg jpeg_plain);
                  ((u "b", u "photos/img3.jpg"), jpeg jpeg_tagged) ];
     faults := [];
     calls := [];
     stdout := [];
     clock := fun _ => u "2024-05-01T12:00:00.000000";
     ticks := 0 |}.

(** The document of the first image, as it is printed and as it is
    stored. *)
Definition field (name : string) (value : str) : str :=
  u "  " ++ quote name ++ u ": " ++ value.

Definition img1_text : str :=
  u "{" ++ [10]
    ++ field "source_bucket" (quote "b") ++ u "," ++ [10]
    ++ field "source_key" (quote "photos/img1.jpg") ++ u "," ++ [10]
    ++ field "etag" (quote "abc") ++ u "," ++ [10]
    ++ field "format" (quote "JPEG") ++ u "," ++ [10]
    ++ field "width" (u "100") ++ u "," ++ [10]
    ++ field "height" (u "200") ++ u "," ++ [10]
    ++ field "file_size_bytes" (u "4") ++ u "," ++ [10]
    ++ field "exif" (u "{}") ++ u "," ++ [10]
    ++ field "processed_at" (quote "2024-05-01T12:00:00.000000") ++ [10]
    ++ u "}".

Definition img1_data : bytes := map Codec.byte_of_Z img1_text.

(** The same store once the first image has been processed. *)
Definition world_after_img1 : World :=
  snd (process_record env img1 world).

End Fixture.

(** More samples: a message without its fields, a record that is not
    JSON, and a library that reads them. *)
Module Samples.
Import Py Eff Lib Metadata.

Definition empty_object : sqs_record := {| body := u "{}" |}.
Definition garbage : sqs_record := {| body := u "not json" |}.

(** Notifications for keys whose last path segment is empty or a dot: a
    folder marker, and two keys that end with a dot segment. *)
Definition folder : sqs_record := Fixture.notification "b" "photos/dir/" "abc".
Definition dot_a : sqs_record := Fixture.notification "b" "a/." "abc".
Definition dot_b : sqs_record := Fixture.notification "b" "b/." "abc".

Definition loads (s : str) : result pyval :=
  if str_eqb s (body empty_object) then ok (PyDict [])
  else if str_eqb s (body folder) then
    ok (Fixture.message "b" "photos/dir/" "abc")
  else if str_eqb s (body dot_a) then ok (Fixture.message "b" "a/." "abc")
  else if str_eqb s (body dot_b) then ok (Fixture.message "b" "b/." "abc")
  else Fixture.loads s.

Definition env : Env :=
  {| OUTPUT_PREFIX := u "metadata";
     json_loads := loads;
     json_dumps := Json.dumps;
     Image_open := Fixture.open_image;
     TAGS_get := Fixture.tag_names |}.

(** A store that holds an image under each of those keys. *)
Definition odd_world : World :=
  {| objects := [ ((u "b", u "photos/dir/"), Fixture.jpeg Fixture.jpeg_plain);
                  ((u "b", u "a/."), Fixture.jpeg Fixture.jpeg_plain);
                  ((u "b", u "b/."), Fixture.jpeg Fixture.jpeg_plain) ];
     faults := [];
     calls := [];
     stdout := [];
     clock := fun _ => u "2024-05-01T12:00:00.000000";
     ticks := 0 |}.

Definition world_after_folder : World :=
  snd (process_record env folder odd_world).

Definition dots : sqs_event := {| Records := [dot_a; dot_b] |}.

Definition world_after_dots : World :=
  snd (lambda_handler env dots odd_world).

(** A batch of two messages for images of the same name. *)
Definition batch : sqs_event :=
  {| Records := [Fixture.img1; Fixture.img1_copy] |}.

(** The world after that batch, and the same store met again later. *)
Definition world_after_batch : World :=
  snd (lambda_handler Fixture.env batch Fixture.world).

(** What [extract_exif] returns for the tagged image. *)
Definition tagged_exif : pyval :=
  match fst (extract_exif Fixture.env Fixture.tagged_image Fixture.world) with
  | inr exif => exif
  | inl _ => PyNone
  end.

Definition tagged_entries : dict :=
  match tagged_exif with
  | PyDict d => d
  | _ => []
  end.

End Samples.
(* ===================================================================== *)
(** * Facts about the Python values *)
(* ===================================================================== *)

Module PyFacts.
Import Py.

Lemma str_eqb_eq (a b : str) : str_eqb a b = true <-> a = b.
Proof.
  revert b; induction a as [|x a IH]; intros [|y b]; simpl;
    try (split; [discriminate | congruence]); try tauto.
  rewrite andb_true_iff, Z.eqb_eq, IH.
  split; [intros [-> ->]; reflexivity | intros H; inversion H; auto].
Qed.

Lemma str_eqb_refl (a : str) : str_eqb a a = true.
Proof. apply str_eqb_eq; reflexivity. Qed.

Lemma str_eqb_neq (a b : str) : str_eqb a b = false <-> a <> b.
Proof.
  rewrite <- str_eqb_eq. destruct (str_eqb a b); split; congruence.
Qed.

Lemma pykey_eqb_eq (a b : pykey) : pykey_eqb a b = true <-> a = b.
Proof.
  destruct a, b; simpl; try (split; [discriminate | congruence]).
  - rewrite Z.eqb_eq; split; congruence.
  - rewrite str_eqb_eq; split; congruence.
Qed.

Lemma pykey_eqb_refl (a : pykey) : pykey_eqb a a = true.
Proof. apply pykey_eqb_eq; reflexivity. Qed.

Lemma pykey_eqb_neq (a b : pykey) : pykey_eqb a b = false <-> a <> b.
Proof.
  rewrite <- pykey_eqb_eq. destruct (pykey_eqb a b); split; congruence.
Qed.

(** Setting a key that the dictionary does not hold appends the item. *)
Lemma dict_set_fresh (d : dict) (k : pykey) (v : pyval) :
  ~ In k (keys d) -> dict_set d k v = d ++ [(k, v)].
Proof.
  induction d as [|[k' v'] d IH]; simpl; intros Hk; [reflexivity|].
  destruct (pykey_eqb k' k) eqn:E.
  - apply pykey_eqb_eq in E. tauto.
  - rewrite IH by tauto. reflexivity.
Qed.

End PyFacts.

(* ===================================================================== *)
(** * Facts about the codec *)
(* ===================================================================== *)

Module CodecFacts.
Import Py Codec.

Lemma utf8_decode_from_cons errors skip b rest :
  utf8_decode_from errors skip (b :: rest) =
  match skip with
  | S k => utf8_decode_from errors k rest
  | O =>
      match utf8_decode_one (b :: rest) with
      | Decoded ch n => rmap (cons ch) (utf8_decode_from errors (n - 1) rest)
      | Invalid reason n =>
          match errors with
          | Strict =>
              raise (PyError (u "UnicodeDecodeError")
                       (u "'utf-8' codec can't decode bytes: " ++ reason))
          | Ignore => utf8_decode_from errors (n - 1) rest
          end
      end
  end.
Proof. reflexivity. Qed.

(** With [errors="ignore"] the decoder returns, and what it returns is no
    longer than its input. *)
Lemma utf8_ignore_total (s : bytes) :
  forall skip, exists r,
    utf8_decode_from Ignore skip s = ok r /\ (List.length r <= List.length s)%nat.
Proof.
  induction s as [|b rest IH]; intros skip.
  - exists []. split; [reflexivity | simpl; lia].
  - rewrite utf8_decode_from_cons. destruct skip as [|k].
    + destruct (utf8_decode_one (b :: rest)) as [ch n | reason n].
      * destruct (IH (n - 1)%nat) as [r [-> Hlen]].
        exists (ch :: r). split; [reflexivity | simpl; lia].
      * destruct (IH (n - 1)%nat) as [r [-> Hlen]].
        exists r. split; [reflexivity | simpl; lia].
    + destruct (IH k) as [r [-> Hlen]].
      exists r. split; [reflexivity | simpl; lia].
Qed.

(** On an input the strict decoder accepts, ignoring errors changes
    nothing. *)
Lemma utf8_strict_ignore (s : bytes) :
  forall skip r,
    utf8_decode_from Strict skip s = ok r ->
    utf8_decode_from Ignore skip s = ok r.
Proof.
  induction s as [|b rest IH]; intros skip r.
  - simpl; auto.
  - rewrite !utf8_decode_from_cons. destruct skip as [|k]; [|apply IH].
    destruct (utf8_decode_one (b :: rest)) as [ch n | reason n].
    + destruct (utf8_decode_from Strict (n - 1) rest) as [e | r'] eqn:E;
        [discriminate|].
      rewrite (IH _ _ E). auto.
    + discriminate.
Qed.

Lemma repr_byte_nonempty quote b : (1 <= List.length (repr_byte quote b))%nat.
Proof.
  unfold repr_byte.
  repeat match goal with
         | |- context [if ?c then _ else _] => destruct c
         end; simpl; lia.
Qed.

Lemma flat_map_repr_length quote (val : bytes) :
  (List.length val <= List.length (flat_map (repr_byte quote) val))%nat.
Proof.
  induction val as [|b val IH]; simpl; [lia|].
  rewrite length_app. pose proof (repr_byte_nonempty quote b). lia.
Qed.

(** [str(val)] is longer than [val]: it adds the prefix and the quotes. *)
Lemma bytes_str_length (val : bytes) :
  (List.length val + 3 <= List.length (bytes_str val))%nat.
Proof.
  unfold bytes_str.
  set (quote := if contains 39 val && negb (contains 34 val) then 34 else 39).
  pose proof (flat_map_repr_length quote val).
  simpl. rewrite length_app. simpl. lia.
Qed.

End CodecFacts.

(* ===================================================================== *)
(** * Facts about the division of integers in binary64 *)
(* ===================================================================== *)

Module FloatFacts.
Import Py Spec.

Lemma digits2_pos_bounds (p : positive) :
  2 ^ (Z.pos (digits2_pos p) - 1) <= Z.pos p < 2 ^ Z.pos (digits2_pos p).
Proof.
  induction p as [p IH|p IH|]; cbn [digits2_pos].
  - rewrite Pos2Z.inj_succ.
    replace (Z.succ (Z.pos (digits2_pos p)) - 1) with (Z.succ (Z.pos (digits2_pos p) - 1)) by lia.
    rewrite !Z.pow_succ_r by lia. lia.
  - rewrite Pos2Z.inj_succ.
    replace (Z.succ (Z.pos (digits2_pos p)) - 1) with (Z.succ (Z.pos (digits2_pos p) - 1)) by lia.
    rewrite !Z.pow_succ_r by lia. lia.
  - simpl. lia.
Qed.

Lemma digits2_pos_unique (p : positive) (k : Z) :
  2 ^ (k - 1) <= Z.pos p < 2 ^ k -> Z.pos (digits2_pos p) = k.
Proof.
  intros [Hlo Hhi]. pose proof (digits2_pos_bounds p) as [Hlo' Hhi'].
  assert (0 < k).
  { destruct (Z_lt_le_dec 0 k); [assumption|].
    destruct (Z.eq_dec k 0) as [->|]; [simpl in Hhi; lia|].
    rewrite Z.pow_neg_r in Hhi by lia. lia. }
  destruct (Z_lt_le_dec (Z.pos (digits2_pos p)) k) as [Hlt|Hge].
  - assert (2 ^ Z.pos (digits2_pos p) <= 2 ^ (k - 1))
      by (apply Z.pow_le_mono_r; lia). lia.
  - destruct (Z_lt_le_dec k (Z.pos (digits2_pos p))) as [Hlt|Hle]; [|lia].
    assert (2 ^ k <= 2 ^ (Z.pos (digits2_pos p) - 1))
      by (apply Z.pow_le_mono_r; lia). lia.
Qed.

(** Where the remainder [r] of a division by [b] lies. *)
Lemma new_location_cases (b r : Z) :
  0 <= r < b ->
  (new_location b r = loc_Exact /\ r = 0) \/
  (new_location b r = loc_Inexact Lt /\ 0 < 2 * r < b) \/
  (new_location b r = loc_Inexact Eq /\ 2 * r = b) \/
  (new_location b r = loc_Inexact Gt /\ b < 2 * r).
Proof.
  intros Hr. unfold new_location, new_location_even, new_location_odd.
  change IntDef.Z.even with Z.even. change IntDef.Z.eqb with Z.eqb.
  change IntDef.Z.compare with Z.compare. change IntDef.Z.mul with Z.mul.
  change IntDef.Z.add with Z.add.
  destruct (Z.even b) eqn:Eb; cbv beta;
    (destruct (Z.eqb_spec r 0) as [->|Hr0]; [left; split; reflexivity|]).
  - destruct (Z.compare_spec (2 * r) b);
      [right; right; left | right; left | right; right; right];
      (split; [reflexivity | lia]).
  - assert (Hodd : Z.odd b = true) by (rewrite <- Z.negb_even, Eb; reflexivity).
    apply Z.odd_spec in Hodd. destruct Hodd as [c Hc].
    destruct (Z.compare_spec (2 * r + 1) b);
      [right; left | right; left | right; right; right];
      (split; [reflexivity | lia]).
Qed.

Lemma fexp_normal (x : Z) : -1021 <= x -> fexp prec emax x = x - 53.
Proof.
  intros Hx. unfold fexp, emin, prec, emax.
  change IntDef.Z.max with Z.max. change IntDef.Z.sub with Z.sub. lia.
Qed.


Lemma new_location_located (q b r : Z) :
  0 <= r < b -> located q (new_location b r) (q * b + r) b.
Proof.
  intros Hr.
  destruct (new_location_cases b r Hr) as [[-> H]|[[-> H]|[[-> H]|[-> H]]]];
    unfold located; lia.
Qed.

Lemma shr_1_located (m : positive) (l : location) (N D : Z) :
  0 < D -> located (Z.pos m) l N D ->
  located (shr_m (shr_1 (shr_record_of_loc (Z.pos m) l)))
          (loc_of_shr_record (shr_1 (shr_record_of_loc (Z.pos m) l)))
          N (2 * D).
Proof.
  intros HD.
  destruct m as [p|p|], l as [|[| |]];
    cbn [shr_1 shr_record_of_loc shr_m shr_r shr_s loc_of_shr_record orb];
    unfold located;
    try rewrite (Pos2Z.inj_xI p); try rewrite (Pos2Z.inj_xO p); lia.
Qed.

Lemma shr_1_half (m : positive) (l : location) :
  shr_m (shr_1 (shr_record_of_loc (Z.pos m) l)) = Z.pos m / 2.
Proof.
  destruct m as [p|p|], l as [|[| |]];
    cbn [shr_1 shr_record_of_loc shr_m shr_r shr_s loc_of_shr_record orb].
  all: first
    [ apply Z.div_unique with (r := 1); [lia | try rewrite (Pos2Z.inj_xI p); lia]
    | apply Z.div_unique with (r := 0); [lia | try rewrite (Pos2Z.inj_xO p); lia] ].
Qed.

Lemma round_nearest_even_located (m : Z) (l : location) (N D : Z) :
  0 < D -> located m l N D ->
  let m' := round_nearest_even m l in
  (m' = m \/ m' = m + 1) /\
  Z.abs (2 * m' * D - 2 * N) <= D /\
  (Z.abs (2 * m' * D - 2 * N) = D -> Z.even m' = true).
Proof.
  intros HD Hloc. unfold round_nearest_even.
  change IntDef.Z.even with Z.even. change IntDef.Z.add with Z.add.
  destruct l as [|[| |]]; unfold located in Hloc.
  - split; [auto|]. split; [lia|]. intros H. lia.
  - destruct (Z.even m) eqn:Em.
    + split; [auto|]. split; [lia|]. intros _. exact Em.
    + split; [auto|]. split; [lia|]. intros _.
      rewrite Z.even_add, Em. reflexivity.
  - split; [auto|]. split; [lia|]. intros H. lia.
  - split; [auto|]. split; [lia|]. intros H. lia.
Qed.

Lemma loc_of_shr_record_of_loc (m : Z) (l : location) :
  loc_of_shr_record (shr_record_of_loc m l) = l.
Proof. destruct l as [|[| |]]; reflexivity. Qed.

Lemma shr_m_of_loc (m : Z) (l : location) :
  shr_m (shr_record_of_loc m l) = m.
Proof. destruct l as [|[| |]]; reflexivity. Qed.

(** The second half of [binary_round_aux], on a rounded mantissa. *)
Lemma round_aux_finish (sx : bool) (m e : Z) :
  2 ^ 52 <= m <= 2 ^ 53 -> -1000 <= e <= 950 ->
  (let '(mrs, e') :=
     shr_fexp prec emax m e loc_Exact in
   match shr_m mrs with
   | 0 => S754_zero sx
   | Z.pos m0 =>
       if e' <=? emax - prec then S754_finite sx m0 e' else S754_infinity sx
   | Z.neg _ => S754_nan
   end)
  = if m <? 2 ^ 53 then S754_finite sx (Z.to_pos m) e
    else S754_finite sx (Z.to_pos (2 ^ 52)) (e + 1).
Proof.
  intros Hm He. destruct m as [|p|p]; try lia.
  unfold shr_fexp. cbn [Zdigits2].
  change IntDef.Z.add with Z.add. change IntDef.Z.sub with Z.sub.
  destruct (Z.ltb_spec (Z.pos p) (2 ^ 53)) as [Hlt|Hge].
  - rewrite (digits2_pos_unique p 53) by (simpl (53 - 1); lia).
    rewrite fexp_normal by lia.
    replace (53 + e - 53 - e) with 0 by lia.
    cbn [shr shr_record_of_loc shr_m Z.to_pos].
    destruct (Z.leb_spec e (emax - prec)) as [_|H]; [reflexivity|].
    unfold emax, prec in H. lia.
  - assert (Hp : Z.pos p = 2 ^ 53) by lia.
    injection Hp as ->.
    change (Z.pos (digits2_pos 9007199254740992)) with 54.
    rewrite fexp_normal by lia.
    replace (54 + e - 53 - e) with 1 by lia.
    cbn [shr shr_record_of_loc iter_pos shr_1 shr_m orb].
    destruct (Z.leb_spec (e + 1) (emax - prec)) as [_|H]; [reflexivity|].
    unfold emax, prec in H. lia.
Qed.

Lemma round_aux_nearest sx q e b r :
  2 ^ 52 <= q < 2 ^ 54 -> -1000 <= e <= 900 -> 0 <= r < b ->
  exists m k,
    binary_round_aux prec emax sx q e (new_location b r)
      = S754_finite sx m (e + k) /\
    0 <= k <= 2 /\
    2 ^ 52 <= Z.pos m < 2 ^ 53 /\
    Z.abs (2 * (Z.pos m * 2 ^ k) * b - 2 * (q * b + r)) <= 2 ^ k * b /\
    (Z.abs (2 * (Z.pos m * 2 ^ k) * b - 2 * (q * b + r)) = 2 ^ k * b ->
     Z.even (Z.pos m) = true).
Proof.
  intros Hq He Hr.
  destruct q as [|pq|pq]; try lia.
  assert (Hdq : Z.pos (digits2_pos pq) = 53 \/ Z.pos (digits2_pos pq) = 54).
  { destruct (Z_lt_le_dec (Z.pos pq) (2 ^ 53)).
    - left. apply digits2_pos_unique. simpl (53 - 1). lia.
    - right. apply digits2_pos_unique. simpl (54 - 1). lia. }
  unfold binary_round_aux, shr_fexp. cbn [Zdigits2].
  change IntDef.Z.add with Z.add. change IntDef.Z.sub with Z.sub.
  destruct Hdq as [Hdq|Hdq]; rewrite Hdq, fexp_normal by lia.
  - (* a quotient of 53 bits: no shift *)
    replace (53 + e - 53 - e) with 0 by lia. cbn [shr].
    rewrite loc_of_shr_record_of_loc, shr_m_of_loc.
    destruct (round_nearest_even_located (Z.pos pq) (new_location b r)
                (Z.pos pq * b + r) b ltac:(lia)
                (new_location_located _ _ _ Hr)) as [Hm [Hnear Htie]].
    set (m2 := round_nearest_even (Z.pos pq) (new_location b r)) in *.
    assert (Hpq : Z.pos pq < 2 ^ 53).
    { pose proof (digits2_pos_bounds pq) as Hb. rewrite Hdq in Hb. lia. }
    fold (shr_fexp prec emax m2 e loc_Exact).
    rewrite round_aux_finish by lia.
    destruct (Z.ltb_spec m2 (2 ^ 53)) as [Hlt|Hge].
    + exists (Z.to_pos m2), 0. rewrite Z.add_0_r, Z2Pos.id by lia.
      split; [reflexivity|]. split; [lia|]. split; [lia|].
      rewrite Z.pow_0_r, !Z.mul_1_r, Z.mul_1_l. split; assumption.
    + exists (Z.to_pos (2 ^ 52)), 1. split; [reflexivity|].
      split; [lia|]. rewrite Z2Pos.id by lia. split; [lia|].
      assert (Hm2 : m2 = 2 ^ 53) by lia.
      replace (2 * (2 ^ 52 * 2 ^ 1)) with (2 * m2) by (rewrite Hm2; reflexivity).
      split; [lia|]. intros H. lia.
  - (* a quotient of 54 bits: one shift *)
    replace (54 + e - 53 - e) with 1 by lia. cbn [shr iter_pos].
    pose proof (shr_1_located pq (new_location b r) (Z.pos pq * b + r) b
                  ltac:(lia) (new_location_located _ _ _ Hr)) as Hloc.
    pose proof (shr_1_half pq (new_location b r)) as Hhalf.
    set (mrs := shr_1 (shr_record_of_loc (Z.pos pq) (new_location b r))) in *.
    assert (Hm1 : 2 ^ 52 <= shr_m mrs < 2 ^ 53).
    { rewrite Hhalf.
      pose proof (digits2_pos_bounds pq) as Hb. rewrite Hdq in Hb.
      simpl (54 - 1) in Hb.
      split.
      - apply Z.div_le_lower_bound; lia.
      - apply Z.div_lt_upper_bound; lia. }
    destruct (round_nearest_even_located (shr_m mrs) (loc_of_shr_record mrs)
                (Z.pos pq * b + r) (2 * b) ltac:(lia) Hloc)
      as [Hm [Hnear Htie]].
    set (m2 := round_nearest_even (shr_m mrs) (loc_of_shr_record mrs)) in *.
    fold (shr_fexp prec emax m2 (e + 1) loc_Exact).
    rewrite round_aux_finish by lia.
    destruct (Z.ltb_spec m2 (2 ^ 53)) as [Hlt|Hge].
    + exists (Z.to_pos m2), 1. rewrite Z2Pos.id by lia.
      split; [reflexivity|]. split; [lia|]. split; [lia|].
      replace (2 * (m2 * 2 ^ 1) * b) with (2 * m2 * (2 * b)) by lia.
      replace (2 ^ 1 * b) with (2 * b) by lia.
      split; assumption.
    + exists (Z.to_pos (2 ^ 52)), 2. rewrite <- Z.add_assoc.
      split; [reflexivity|].
      split; [lia|]. rewrite Z2Pos.id by lia. split; [lia|].
      assert (Hm2 : m2 = 2 ^ 53) by lia.
      replace (2 * (2 ^ 52 * 2 ^ 2) * b) with (2 * m2 * (2 * b))
        by (rewrite Hm2; lia).
      replace (2 ^ 2 * b) with (4 * b) by lia.
      split; [lia|]. intros H. lia.
Qed.

(** The quotient of two positive integers below [2^32], as [SFdiv]
    computes it, is the binary64 number nearest to the exact quotient,
    the one with an even mantissa when two are as near. *)
Lemma SFdiv_nearest (pa pb : positive) (sa sb : bool) :
  Z.pos pa < 2 ^ 32 -> Z.pos pb < 2 ^ 32 ->
  exists m e,
    SFdiv prec emax (S754_finite sa pa 0) (S754_finite sb pb 0)
      = S754_finite (xorb sa sb) m e /\
    2 ^ 52 <= Z.pos m < 2 ^ 53 /\
    e < 0 /\
    Z.abs (2 * Z.pos m * Z.pos pb - Z.pos pa * 2 ^ (1 - e)) <= Z.pos pb /\
    (Z.abs (2 * Z.pos m * Z.pos pb - Z.pos pa * 2 ^ (1 - e)) = Z.pos pb ->
     Z.even (Z.pos m) = true).
Proof.
  intros Ha Hb.
  pose proof (digits2_pos_bounds pa) as Hda.
  pose proof (digits2_pos_bounds pb) as Hdb.
  assert (Hd1 : 1 <= Z.pos (digits2_pos pa) <= 32).
  { split; [lia|].
    destruct (Z_lt_le_dec 32 (Z.pos (digits2_pos pa))); [|lia].
    assert (2 ^ 32 <= 2 ^ (Z.pos (digits2_pos pa) - 1))
      by (apply Z.pow_le_mono_r; lia). lia. }
  assert (Hd2 : 1 <= Z.pos (digits2_pos pb) <= 32).
  { split; [lia|].
    destruct (Z_lt_le_dec 32 (Z.pos (digits2_pos pb))); [|lia].
    assert (2 ^ 32 <= 2 ^ (Z.pos (digits2_pos pb) - 1))
      by (apply Z.pow_le_mono_r; lia). lia. }
  unfold SFdiv, SFdiv_core_binary. cbn [Zdigits2].
  set (d1 := Z.pos (digits2_pos pa)) in *.
  set (d2 := Z.pos (digits2_pos pb)) in *.
  assert (He : IntDef.Z.min (fexp prec emax (d1 + 0 - (d2 + 0))) (0 - 0)
               = d1 - d2 - 53).
  { unfold fexp, emin, prec, emax.
    change IntDef.Z.min with Z.min. change IntDef.Z.max with Z.max. lia. }
  rewrite He. clear He.
  replace (0 - 0 - (d1 - d2 - 53)) with (53 + d2 - d1) by lia.
  set (s := 53 + d2 - d1) in *.
  assert (Hs : 22 <= s <= 84) by (unfold s; lia).
  destruct s as [|ps|ps] eqn:Es; try lia.
  rewrite <- Es in *. clear Es ps.
  change IntDef.Z.shiftl with Z.shiftl.
  rewrite Z.shiftl_mul_pow2 by lia.
  change IntDef.Z.div_eucl with Z.div_eucl.
  pose proof (Z_div_mod (Z.pos pa * 2 ^ s) (Z.pos pb) ltac:(lia)) as Hdiv.
  destruct (Z.div_eucl (Z.pos pa * 2 ^ s) (Z.pos pb)) as [q r].
  destruct Hdiv as [Hqr Hr].
  (* the quotient has 53 or 54 bits *)
  assert (Hpow : 2 ^ (d1 - 1) * 2 ^ s = 2 ^ 53 * 2 ^ (d2 - 1)).
  { rewrite <- !Z.pow_add_r by lia. f_equal. unfold s. lia. }
  assert (HS : 0 < 2 ^ s) by (apply Z.pow_pos_nonneg; lia).
  replace (2 ^ d1) with (2 * 2 ^ (d1 - 1)) in Hda
    by (rewrite <- Z.pow_succ_r by lia; f_equal; lia).
  replace (2 ^ d2) with (2 * 2 ^ (d2 - 1)) in Hdb
    by (rewrite <- Z.pow_succ_r by lia; f_equal; lia).
  set (A := 2 ^ (d1 - 1)) in *. set (B := 2 ^ (d2 - 1)) in *.
  set (S := 2 ^ s) in *.
  assert (Hq : 2 ^ 52 <= q < 2 ^ 54).
  { split.
    - assert (H1 : A * S <= Z.pos pa * S) by (apply Z.mul_le_mono_nonneg_r; lia).
      assert (H2 : 2 ^ 52 * Z.pos pb < Z.pos pb * (q + 1)) by lia.
      assert (H3 : 2 ^ 52 < q + 1) by nia. lia.
    - assert (H1 : Z.pos pa * S < 2 * A * S) by (apply Z.mul_lt_mono_pos_r; lia).
      assert (H2 : Z.pos pb * q < 2 ^ 54 * Z.pos pb) by lia.
      nia. }
  destruct (round_aux_nearest (xorb sa sb) q (d1 - d2 - 53) (Z.pos pb) r
              Hq ltac:(lia) Hr) as [m [k [Hrun [Hk [Hm [Hnear Htie]]]]]].
  exists m, (d1 - d2 - 53 + k). split; [exact Hrun|]. split; [exact Hm|].
  split; [lia|].
  replace (1 - (d1 - d2 - 53 + k)) with (1 + s - k) by (unfold s; lia).
  assert (Hsplit : 2 * S = 2 ^ (1 + s - k) * 2 ^ k).
  { rewrite <- Z.pow_add_r by lia. unfold S.
    replace (1 + s - k + k) with (Z.succ s) by lia.
    rewrite Z.pow_succ_r by lia. reflexivity. }
  set (P := 2 ^ (1 + s - k)) in *.
  assert (Hk' : k = 0 \/ k = 1 \/ k = 2) by lia.
  destruct Hk' as [-> | [-> | ->]];
    change (2 ^ 0) with 1 in *; change (2 ^ 1) with 2 in *;
    change (2 ^ 2) with 4 in *; split; [lia | intros H; apply Htie; lia | lia
    | intros H; apply Htie; lia | lia | intros H; apply Htie; lia].
Qed.


(** [float] of a rational of EXIF data with a denominator that is not
    zero is the nearest binary64 number. *)
Lemma IFDRational_float_nearest (n d : Z) :
  rational_in_range n d = true -> d <> 0 ->
  exists f, IFDRational_float n d = ok f /\ nearest_float n d f.
Proof.
  unfold rational_in_range, IFDRational_float, int_true_divide.
  rewrite andb_true_iff, !Z.ltb_lt. intros [Hn Hd] Hd0.
  destruct (Z.eqb_spec d 0) as [|_]; [contradiction|].
  destruct (Z.eqb_spec (Z.abs d) 0) as [|_]; [lia|].
  assert (Hsgn : Z.abs (Z.sgn d * n) = Z.abs n).
  { assert (Hs : Z.abs (Z.sgn d) = 1)
      by (destruct d; [congruence | reflexivity | reflexivity]).
    rewrite Z.abs_mul, Hs. lia. }
  destruct (Z.eqb_spec (Z.sgn d * n) 0) as [Hz|Hnz].
  - exists (S754_zero (Z.abs d <? 0)). split; [reflexivity|].
    cbn [nearest_float]. split.
    + rewrite <- Hsgn, Hz in *. lia.
    + apply Z.ltb_ge. lia.
  - assert (Hbig : 2 ^ 32 < 2 ^ 1024 - 2 ^ 970) by (vm_compute; reflexivity).
    rewrite Hsgn, (Z.abs_eq (Z.abs d)) by lia.
    destruct (Z.leb_spec ((2 ^ 1024 - 2 ^ 970) * Z.abs d) (Z.abs n)) as [Ho|_].
    { set (K := 2 ^ 1024 - 2 ^ 970) in *. nia. }
    assert (Hn0 : 0 < Z.abs n) by lia.
    assert (Hd1 : 0 < Z.abs d) by lia.
    destruct (SFdiv_nearest (Z.to_pos (Z.abs n)) (Z.to_pos (Z.abs d))
                (Z.sgn d * n <? 0) (Z.abs d <? 0))
      as [m [e [Hdiv [Hm [He [Hnear Htie]]]]]];
      try (rewrite Z2Pos.id by lia; lia).
    rewrite !Z2Pos.id in Hnear, Htie by lia.
    exists (S754_finite (xorb (Z.sgn d * n <? 0) (Z.abs d <? 0)) m e).
    split; [rewrite <- Hdiv; reflexivity|].
    cbn [nearest_float]. split; [|auto].
    replace (Z.abs d <? 0) with false by (symmetry; apply Z.ltb_ge; lia).
    rewrite xorb_false_r.
    destruct d as [|pd|pd]; [contradiction| |]; cbn [Z.sgn].
    + rewrite Z.mul_1_l.
      destruct (Z.ltb_spec n 0), (Z.ltb_spec (n * Z.pos pd) 0);
        try reflexivity; nia.
    + destruct (Z.ltb_spec (-1 * n) 0), (Z.ltb_spec (n * Z.neg pd) 0);
        try reflexivity; nia.
Qed.

End FloatFacts.

(* ===================================================================== *)
(** * Facts about the normalizer *)
(* ===================================================================== *)

Module NormalizerFacts.
Import Py Spec Metadata PyFacts.

Lemma existsb_pykey_In (k : pykey) (ks : list pykey) :
  existsb (pykey_eqb k) ks = true <-> In k ks.
Proof.
  rewrite existsb_exists. split.
  - intros [x [Hin Heq]]. apply pykey_eqb_eq in Heq. subst; assumption.
  - intros Hin. exists k. split; [assumption | apply pykey_eqb_refl].
Qed.

Lemma distinct_NoDup (ks : list pykey) : distinct ks = true <-> NoDup ks.
Proof.
  induction ks as [|k ks IH]; simpl.
  - split; [constructor | reflexivity].
  - rewrite andb_true_iff, negb_true_iff, IH. split.
    + intros [Hk Hks]. constructor; [|assumption].
      rewrite <- existsb_pykey_In. congruence.
    + intros H. inversion H as [|? ? Hk Hks]; subst. split; [|assumption].
      destruct (existsb (pykey_eqb k) ks) eqn:E; [|reflexivity].
      apply existsb_pykey_In in E. contradiction.
Qed.

Lemma keys_app (a b : dict) : keys (a ++ b) = keys a ++ keys b.
Proof. apply map_app. Qed.

(** What a list comprehension returns, element by element. *)
Lemma list_comprehension_Forall2 f (l l' : list pyval) :
  list_comprehension f l = ok l' <-> Forall2 (fun v v' => f v = ok v') l l'.
Proof.
  revert l'; induction l as [|v l IH]; intros l'; simpl.
  - split.
    + intros H; injection H as <-; constructor.
    + intros H; inversion H; reflexivity.
  - split.
    + destruct (f v) as [e|v'] eqn:Ev; simpl; [discriminate|].
      destruct (list_comprehension f l) as [e|vs] eqn:El; simpl; [discriminate|].
      intros H; injection H as <-. constructor; [assumption|].
      apply IH; reflexivity.
    + intros H; inversion H as [|? v' ? vs Hv Hvs]; subst.
      rewrite Hv; simpl. apply IH in Hvs. rewrite Hvs. reflexivity.
Qed.

(** A dictionary comprehension over distinct keys appends one item per
    item, with the same key and in the same order. *)
Lemma dict_comprehension_Forall2 f (items : list (pykey * pyval)) :
  forall acc d',
    NoDup (keys acc ++ keys items) ->
    (dict_comprehension f items acc = ok d' <->
     exists items',
       d' = acc ++ items' /\
       Forall2 (fun kv kv' => fst kv' = fst kv /\ f (snd kv) = ok (snd kv'))
               items items').
Proof.
  induction items as [|[k v] items IH]; intros acc d' Hnd; simpl.
  - split.
    + intros H; injection H as <-. exists []. rewrite app_nil_r.
      split; [reflexivity | constructor].
    + intros [items' [-> H]]. inversion H. rewrite app_nil_r. reflexivity.
  - simpl in Hnd.
    assert (Hfresh : ~ In k (keys acc)).
    { apply NoDup_remove_2 in Hnd. intros Hin. apply Hnd.
      apply in_or_app; left; assumption. }
    split.
    + destruct (f v) as [e|v'] eqn:Ev; simpl; [discriminate|].
      rewrite (dict_set_fresh _ _ _ Hfresh). intros H.
      apply IH in H.
      * destruct H as [items' [-> HF]].
        exists ((k, v') :: items'). rewrite <- app_assoc. split; [reflexivity|].
        constructor; [split; [reflexivity | assumption] | assumption].
      * rewrite keys_app. simpl. rewrite <- app_assoc. exact Hnd.
    + intros [items' [-> HF]].
      inversion HF as [|? [k' v'] ? items'' [Hk Hv] HF']; subst.
      simpl in Hk, Hv. subst k'. rewrite Hv; simpl.
      rewrite (dict_set_fresh _ _ _ Hfresh).
      apply IH.
      * rewrite keys_app. simpl. rewrite <- app_assoc. exact Hnd.
      * exists items''. rewrite <- app_assoc. split; [reflexivity | assumption].
Qed.

Lemma traverse_Forall2 {A B} (f : A -> result B) (l : list A) (l' : list B) :
  traverse f l = ok l' <-> Forall2 (fun x y => f x = ok y) l l'.
Proof.
  revert l'; induction l as [|x l IH]; intros l'; simpl.
  - split.
    + intros H; injection H as <-; constructor.
    + intros H; inversion H; reflexivity.
  - split.
    + destruct (f x) as [e|y] eqn:Ex; simpl; [discriminate|].
      destruct (traverse f l) as [e|ys] eqn:El; simpl; [discriminate|].
      intros H; injection H as <-. constructor; [assumption|].
      apply IH; reflexivity.
    + intros H; inversion H as [|? y ? ys Hy Hys]; subst.
      rewrite Hy; simpl. apply IH in Hys. rewrite Hys. reflexivity.
Qed.

(** On distinct keys the comprehension is a traversal of the items. *)
Lemma dict_comprehension_traverse f (items : list (pykey * pyval)) :
  forall acc,
    NoDup (keys acc ++ keys items) ->
    dict_comprehension f items acc =
    rmap (app acc)
         (traverse (fun kv => rmap (pair (fst kv)) (f (snd kv))) items).
Proof.
  induction items as [|[k v] items IH]; intros acc Hnd; simpl.
  - rewrite app_nil_r. reflexivity.
  - simpl in Hnd.
    assert (Hfresh : ~ In k (keys acc)).
    { apply NoDup_remove_2 in Hnd. intros Hin. apply Hnd.
      apply in_or_app; left; assumption. }
    destruct (f v) as [e|v'] eqn:Ev; simpl; [reflexivity|].
    rewrite (dict_set_fresh _ _ _ Hfresh), IH.
    + destruct (traverse _ items) as [e|d']; simpl; [reflexivity|].
      rewrite <- app_assoc. reflexivity.
    + rewrite keys_app. simpl. rewrite <- app_assoc. exact Hnd.
Qed.

Lemma list_comprehension_traverse f (l : list pyval) :
  list_comprehension f l = traverse f l.
Proof. induction l as [|v l IH]; simpl; [|rewrite IH]; reflexivity. Qed.

Lemma traverse_ext {A B} (f g : A -> result B) (l : list A) :
  Forall (fun x => f x = g x) l -> traverse f l = traverse g l.
Proof.
  induction 1 as [|x l Hx _ IH]; simpl; [reflexivity|].
  rewrite Hx, IH. reflexivity.
Qed.

(** The byte-string branch of [convert_value] is the lossy decoding. *)
Lemma convert_value_bytes (b : bytes) :
  convert_value (PyBytes b) = rmap PyStr (Codec.decode_utf8 Codec.Ignore b).
Proof.
  simpl. unfold Codec.decode_utf8.
  destruct (CodecFacts.utf8_ignore_total b 0%nat) as [r [-> _]]. reflexivity.
Qed.

(** [convert_value] computes the normalizer of the specification. *)
Lemma convert_value_normalize (v : pyval) :
  well_formed v = true -> convert_value v = normalize v.
Proof.
  induction v as [ | | | | | b | | l IH | l IH | d IH] using pyval_ind;
    intros Hwf; try reflexivity.
  - apply convert_value_bytes.
  - simpl in *. rewrite list_comprehension_traverse. f_equal.
    apply traverse_ext. rewrite forallb_forall in Hwf.
    rewrite Forall_forall in *. auto.
  - simpl in *. rewrite list_comprehension_traverse. f_equal.
    apply traverse_ext. rewrite forallb_forall in Hwf.
    rewrite Forall_forall in *. auto.
  - simpl in *. apply andb_true_iff in Hwf as [Hd Hwf].
    rewrite dict_comprehension_traverse
      by (simpl; apply distinct_NoDup; exact Hd).
    assert (E : traverse (fun kv => rmap (pair (fst kv)) (convert_value (snd kv))) d
                = traverse (fun kv => rmap (pair (fst kv)) (normalize (snd kv))) d).
    { apply traverse_ext. rewrite forallb_forall in Hwf.
      rewrite Forall_forall in *. intros kv Hin. rewrite IH; auto. }
    rewrite E. clear E. destruct (traverse _ d); reflexivity.
Qed.

(** The normalizer keeps the shape of its input. *)
Lemma normalize_shape (v : pyval) :
  forall v', normalize v = ok v' -> shape_of v' = shape_of v.
Proof.
  induction v as [ | | | | | b | n d | l IH | l IH | d IH] using pyval_ind;
    intros v' H; simpl in H;
    try (injection H as <-; reflexivity).
  - destruct (Codec.decode_utf8 Codec.Ignore b); simpl in H; [discriminate|].
    injection H as <-; reflexivity.
  - destruct (IFDRational_float n d); simpl in H; [discriminate|].
    injection H as <-; reflexivity.
  - destruct (traverse normalize l) as [e|l'] eqn:E; simpl in H; [discriminate|].
    injection H as <-. simpl. f_equal.
    apply traverse_Forall2 in E. clear -E IH.
    induction E as [|x y l l' Hxy _ IHE]; simpl; [reflexivity|].
    inversion IH; subst. f_equal; auto.
  - destruct (traverse normalize l) as [e|l'] eqn:E; simpl in H; [discriminate|].
    injection H as <-. simpl. f_equal.
    apply traverse_Forall2 in E. clear -E IH.
    induction E as [|x y l l' Hxy _ IHE]; simpl; [reflexivity|].
    inversion IH; subst. f_equal; auto.
  - destruct (traverse _ d) as [e|d'] eqn:E; simpl in H; [discriminate|].
    injection H as <-. simpl. f_equal.
    apply traverse_Forall2 in E. clear -E IH.
    induction E as [|[k x] [k' y] d d' Hxy _ IHE]; simpl; [reflexivity|].
    inversion IH; subst. simpl in *.
    destruct (normalize x) as [e|x'] eqn:Ex; simpl in Hxy; [discriminate|].
    injection Hxy as <- <-. f_equal; [f_equal|]; auto.
Qed.

(** A rational of EXIF data has a floating-point value. *)
Lemma IFDRational_float_in_range (n d : Z) :
  rational_in_range n d = true -> exists f, IFDRational_float n d = ok f.
Proof.
  unfold rational_in_range, IFDRational_float, int_true_divide.
  rewrite andb_true_iff, !Z.ltb_lt. intros [Hn Hd].
  destruct (d =? 0) eqn:Ed; [eexists; reflexivity|].
  apply Z.eqb_neq in Ed.
  destruct (Z.abs d =? 0) eqn:Ead; [apply Z.eqb_eq in Ead; lia|].
  destruct (Z.sgn d * n =? 0); [eexists; reflexivity|].
  assert (Hbig : 2 ^ 32 < 2 ^ 1024 - 2 ^ 970) by (vm_compute; reflexivity).
  assert (Ha : Z.abs (Z.sgn d * n) = Z.abs n).
  { assert (Hs : Z.abs (Z.sgn d) = 1)
      by (destruct d; [congruence | reflexivity | reflexivity]).
    rewrite Z.abs_mul, Hs. lia. }
  rewrite Ha, (Z.abs_eq (Z.abs d)) by lia.
  destruct ((2 ^ 1024 - 2 ^ 970) * Z.abs d <=? Z.abs n) eqn:Eo.
  - apply Z.leb_le in Eo.
    set (K := 2 ^ 1024 - 2 ^ 970) in *. nia.
  - eexists; reflexivity.
Qed.

(** The normalizer returns on every value whose rationals are those of
    EXIF data. *)
Lemma normalize_total (v : pyval) :
  rationals_in_range v = true -> exists v', normalize v = ok v'.
Proof.
  induction v as [ | | | | | b | n d | l IH | l IH | d IH] using pyval_ind;
    intros Hr; try (eexists; reflexivity).
  - simpl. unfold Codec.decode_utf8.
    destruct (CodecFacts.utf8_ignore_total b 0%nat) as [r [-> _]].
    eexists; reflexivity.
  - simpl in *. destruct (IFDRational_float_in_range n d Hr) as [f ->].
    eexists; reflexivity.
  - simpl in *.
    assert (E : exists l', traverse normalize l = ok l').
    { clear -IH Hr. induction IH as [|x l Hx _ IHl]; simpl in *.
      - eexists; reflexivity.
      - apply andb_true_iff in Hr as [Hx' Hl].
        destruct (Hx Hx') as [x' ->]. destruct (IHl Hl) as [l' ->].
        eexists; reflexivity. }
    destruct E as [l' ->]. eexists; reflexivity.
  - simpl in *.
    assert (E : exists l', traverse normalize l = ok l').
    { clear -IH Hr. induction IH as [|x l Hx _ IHl]; simpl in *.
      - eexists; reflexivity.
      - apply andb_true_iff in Hr as [Hx' Hl].
        destruct (Hx Hx') as [x' ->]. destruct (IHl Hl) as [l' ->].
        eexists; reflexivity. }
    destruct E as [l' ->]. eexists; reflexivity.
  - simpl in *.
    assert (E : exists d',
               traverse (fun kv => rmap (pair (fst kv)) (normalize (snd kv))) d
               = ok d').
    { clear -IH Hr. induction IH as [|[k x] d Hx _ IHd]; simpl in *.
      - eexists; reflexivity.
      - apply andb_true_iff in Hr as [Hx' Hd].
        destruct (Hx Hx') as [x' ->]. destruct (IHd Hd) as [d' ->].
        eexists; reflexivity. }
    destruct E as [d' ->]. eexists; reflexivity.
Qed.

(** What the normalizer returns holds no rational, no byte string and no
    tuple. *)
Lemma normalize_json_representable (v : pyval) :
  forall v', normalize v = ok v' -> json_representable v' = true.
Proof.
  induction v as [ | | | | | b | n d | l IH | l IH | d IH] using pyval_ind;
    intros v' H; simpl in H;
    try (injection H as <-; reflexivity).
  - destruct (Codec.decode_utf8 Codec.Ignore b); simpl in H; [discriminate|].
    injection H as <-; reflexivity.
  - destruct (IFDRational_float n d); simpl in H; [discriminate|].
    injection H as <-; reflexivity.
  - destruct (traverse normalize l) as [e|l'] eqn:E; simpl in H; [discriminate|].
    injection H as <-. simpl.
    apply traverse_Forall2 in E. clear -E IH.
    induction E as [|x y l l' Hxy _ IHE]; simpl; [reflexivity|].
    inversion IH; subst. apply andb_true_iff; split; auto.
  - destruct (traverse normalize l) as [e|l'] eqn:E; simpl in H; [discriminate|].
    injection H as <-. simpl.
    apply traverse_Forall2 in E. clear -E IH.
    induction E as [|x y l l' Hxy _ IHE]; simpl; [reflexivity|].
    inversion IH; subst. apply andb_true_iff; split; auto.
  - destruct (traverse _ d) as [e|d'] eqn:E; simpl in H; [discriminate|].
    injection H as <-. simpl.
    apply traverse_Forall2 in E. clear -E IH.
    induction E as [|[k x] [k' y] d d' Hxy _ IHE]; simpl; [reflexivity|].
    inversion IH; subst. simpl in *.
    destruct (normalize x) as [e|x'] eqn:Ex; simpl in Hxy; [discriminate|].
    injection Hxy as <- <-. apply andb_true_iff; split; auto.
Qed.

End NormalizerFacts.

(* ===================================================================== *)
(** * Facts about paths *)
(* ===================================================================== *)

Module PathlibFacts.
Import Py Spec Pathlib.

Lemma split_slash_nonempty (s : str) : split_slash s <> [].
Proof.
  destruct s as [|c s]; simpl; [discriminate|].
  destruct (c =? 47); [discriminate|].
  destruct (split_slash s); discriminate.
Qed.

(** Splitting at a slash splits the list of segments. *)
Lemma split_slash_app (a b : str) :
  split_slash (a ++ 47 :: b) = split_slash a ++ split_slash b.
Proof.
  induction a as [|c a IH]; simpl; [reflexivity|].
  destruct (c =? 47); [rewrite IH; reflexivity|].
  rewrite IH. pose proof (split_slash_nonempty a) as Hne.
  destruct (split_slash a); [contradiction|reflexivity].
Qed.

(** A text without a slash is one segment. *)
Lemma split_slash_segment (s : str) :
  ~ In 47 s -> split_slash s = [s].
Proof.
  induction s as [|c s IH]; simpl; intros Hs; [reflexivity|].
  destruct (c =? 47) eqn:E; [apply Z.eqb_eq in E; subst; tauto|].
  rewrite IH by tauto. reflexivity.
Qed.

Lemma last_filter_app {A} (p : A -> bool) (l : list A) (x d : A) :
  p x = true -> last (filter p (l ++ [x])) d = x.
Proof.
  intros Hx. rewrite filter_app. simpl. rewrite Hx. apply last_last.
Qed.

(** The name of a key is its last segment, whatever the directories
    before it, when that segment is a proper component. *)
Lemma name_dir (dir file : str) :
  ~ In 47 file -> is_component file = true ->
  name (dir ++ u "/" ++ file) = file.
Proof.
  intros Hfile Hcomp. unfold name, parts.
  change (u "/" ++ file) with (47 :: file).
  rewrite split_slash_app, (split_slash_segment _ Hfile).
  apply last_filter_app; assumption.
Qed.

Lemma name_file (file : str) :
  ~ In 47 file -> is_component file = true -> name file = file.
Proof.
  intros Hfile Hcomp. unfold name, parts.
  rewrite (split_slash_segment _ Hfile). simpl. rewrite Hcomp. reflexivity.
Qed.

Lemma last_filter {A} (p : A -> bool) (l : list A) (d : A) :
  l <> [] -> p (last l d) = true -> last (filter p l) d = last l d.
Proof.
  intros Hne Hp. destruct (exists_last Hne) as [l' [x ->]].
  rewrite last_last in *. apply last_filter_app; assumption.
Qed.

(** [Path(key).name] is the last path segment of the key, when that
    segment is neither empty nor ["."]. *)
Lemma name_last_path_segment (key : str) :
  is_component (last_path_segment key) = true ->
  name key = last_path_segment key.
Proof.
  unfold name, parts, last_path_segment. intros H.
  apply last_filter; [apply split_slash_nonempty | assumption].
Qed.

End PathlibFacts.


(* ===================================================================== *)
(** * Facts about the client and the handler *)
(* ===================================================================== *)

Module HandlerFacts.
Import Py Eff Lib Metadata Spec PyFacts.

Lemma world_eta (w : World) :
  {| objects := objects w; faults := faults w; calls := calls w;
     stdout := stdout w; clock := clock w; ticks := ticks w |} = w.
Proof. destruct w; reflexivity. Qed.

Lemma send_run (w : World) :
  S3.send w = (served (faults w), with_faults (tl (faults w)) w).
Proof.
  unfold S3.send, served, with_faults.
  destruct (faults w) as [|[e|] fs] eqn:E; simpl; try reflexivity.
  rewrite <- E, world_eta. reflexivity.
Qed.

Lemma head_object_run (b k : str) (w : World) :
  S3.head_object (PyStr b) (PyStr k) w =
  (rbind (served (faults w)) (fun _ =>
     match S3.lookup (objects w) (b, k) with
     | Some _ => ok tt
     | None => raise (ClientError (u "404") (u "Not Found") (u "HeadObject"))
     end),
   with_faults (tl (faults w))
     (with_calls (calls w ++ [HeadObject (PyStr b) (PyStr k)]) w)).
Proof.
  unfold S3.head_object, bind, S3.record_call, S3.validate, ret.
  rewrite send_run. simpl.
  destruct (served (faults w)) as [e|[]]; simpl; [reflexivity|].
  unfold S3.read_object; simpl.
  destruct (S3.lookup (objects w) (b, k)); reflexivity.
Qed.

Lemma get_object_run (b k : str) (w : World) :
  S3.get_object (PyStr b) (PyStr k) w =
  (rbind (served (faults w)) (fun _ =>
     match S3.lookup (objects w) (b, k) with
     | Some o =>
         ok {| S3.Body_read := Body o;
               S3.ContentLength := Z.of_nat (List.length (Body o)) |}
     | None =>
         raise (ClientError (u "NoSuchKey")
                  (u "The specified key does not exist.") (u "GetObject"))
     end),
   with_faults (tl (faults w))
     (with_calls (calls w ++ [GetObject (PyStr b) (PyStr k)]) w)).
Proof.
  unfold S3.get_object, bind, S3.record_call, S3.validate, ret.
  rewrite send_run. simpl.
  destruct (served (faults w)) as [e|[]]; simpl; [reflexivity|].
  unfold S3.read_object; simpl.
  destruct (S3.lookup (objects w) (b, k)); reflexivity.
Qed.

Lemma put_object_run (b k : str) (text ct : str) (data : bytes) (w : World) :
  Codec.encode_utf8 text = ok data ->
  S3.put_object (PyStr b) (PyStr k) text ct w =
  let w1 := with_faults (tl (faults w))
              (with_calls (calls w ++ [PutObject (PyStr b) (PyStr k) text ct]) w) in
  match served (faults w) with
  | inl e => (raise e, w1)
  | inr _ =>
      (ok tt,
       with_objects (S3.insert (objects w) (b, k)
                       {| Body := data; ContentType := ct |}) w1)
  end.
Proof.
  intros Henc.
  unfold S3.put_object, bind, S3.record_call, S3.validate, ret, lift.
  rewrite Henc. simpl. rewrite send_run. simpl.
  destruct (served (faults w)) as [e|[]]; reflexivity.
Qed.

(** A client call leaves the store as it is, unless it is a successful
    [put_object]; it records itself and nothing else. *)
Lemma head_object_frame (bucket key : pyval) (w w' : World) r :
  S3.head_object bucket key w = (r, w') ->
  calls w' = calls w ++ [HeadObject bucket key] /\
  objects w' = objects w /\ stdout w' = stdout w /\
  clock w' = clock w /\ ticks w' = ticks w.
Proof.
  unfold S3.head_object, bind, S3.record_call, S3.validate, throw, ret.
  simpl.
  destruct bucket, key; simpl;
    try (intros H; injection H as <- <-; simpl; auto 6).
  rewrite send_run. simpl.
  destruct (served (faults w)) as [e|[]]; simpl.
  - intros H; injection H as <- <-; simpl; auto 6.
  - unfold S3.read_object; simpl.
    destruct (S3.lookup (objects w) (s, s0));
      intros H; injection H as <- <-; simpl; auto 6.
Qed.


Lemma metadata_exists_run (bucket key : pyval) (w : World) :
  metadata_exists bucket key w =
  (match fst (S3.head_object bucket key w) with
   | inr _ => ok true
   | inl e => if is_not_found e then ok false else raise e
   end,
   snd (S3.head_object bucket key w)).
Proof.
  unfold metadata_exists, try_except, bind, ret, throw.
  destruct (S3.head_object bucket key w) as [[e|[]] w']; simpl; [|reflexivity].
  destruct e as [code msg op|cls msg]; simpl; [|reflexivity].
  destruct (str_eqb code (u "404")); reflexivity.
Qed.

Lemma metadata_exists_frame (bucket key : pyval) (w w' : World) r :
  metadata_exists bucket key w = (r, w') ->
  calls w' = calls w ++ [HeadObject bucket key] /\
  objects w' = objects w /\ stdout w' = stdout w /\
  clock w' = clock w /\ ticks w' = ticks w.
Proof.
  rewrite metadata_exists_run. intros H. injection H as _ <-.
  apply (head_object_frame bucket key w _ (fst (S3.head_object bucket key w))).
  destruct (S3.head_object bucket key w); reflexivity.
Qed.

Lemma getitem_dict (x : pyval) (key : str) (v : pyval) :
  getitem x key = ok v -> exists d, x = PyDict d.
Proof. destruct x; simpl; try discriminate. eauto. Qed.

Lemma get_after_getitem (x : pyval) (key key' : str) (v : pyval) :
  getitem x key = ok v -> exists v', get x key' = ok v'.
Proof.
  intros H. destruct (getitem_dict _ _ _ H) as [d ->].
  simpl. destruct (dict_get d (KStr key')); eauto.
Qed.

Lemma get_object_frame (bucket key : pyval) (w w' : World) r :
  S3.get_object bucket key w = (r, w') ->
  calls w' = calls w ++ [GetObject bucket key] /\
  objects w' = objects w /\ stdout w' = stdout w /\
  clock w' = clock w /\ ticks w' = ticks w.
Proof.
  unfold S3.get_object, bind, S3.record_call, S3.validate, throw, ret.
  simpl.
  destruct bucket, key; simpl;
    try (intros H; injection H as <- <-; simpl; auto 6).
  rewrite send_run. simpl.
  destruct (served (faults w)) as [e|[]]; simpl.
  - intros H; injection H as <- <-; simpl; auto 6.
  - unfold S3.read_object; simpl.
    destruct (S3.lookup (objects w) (s, s0));
      intros H; injection H as <- <-; simpl; auto 6.
Qed.

Lemma key_eqb_refl (bk : str * str) : S3.key_eqb bk bk = true.
Proof. unfold S3.key_eqb. rewrite !str_eqb_refl. reflexivity. Qed.

Lemma lookup_insert (objs : store) (bk : str * str) (o : S3Object) :
  S3.lookup (S3.insert objs bk o) bk = Some o.
Proof.
  induction objs as [|[bk' o'] objs IH]; simpl.
  - rewrite key_eqb_refl. reflexivity.
  - destruct (S3.key_eqb bk' bk) eqn:E; simpl; rewrite E; auto.
Qed.

(** A [put_object] that returns has written the object. *)
Lemma put_object_written (b k : str) (text ct : str) (w w' : World) :
  S3.put_object (PyStr b) (PyStr k) text ct w = (ok tt, w') ->
  exists data,
    Codec.encode_utf8 text = ok data /\
    objects w' = S3.insert (objects w) (b, k) {| Body := data; ContentType := ct |}.
Proof.
  destruct (Codec.encode_utf8 text) as [e|data] eqn:Henc.
  - unfold S3.put_object, bind, S3.record_call, S3.validate, ret, lift.
    rewrite Henc. discriminate.
  - rewrite (put_object_run _ _ _ _ _ _ Henc). cbv zeta.
    destruct (served (faults w)); [discriminate|].
    intros H; injection H as <-. exists data. split; reflexivity.
Qed.

Section Run.
Variable env : Env.

Lemma process_record_skip record w message bucket key w' :
  json_loads env (body record) = ok message ->
  getitem message (u "bucket") = ok bucket ->
  getitem message (u "key") = ok (PyStr key) ->
  metadata_exists bucket (PyStr (metadata_key_of env (Pathlib.name key))) w
    = (ok true, w') ->
  process_record env record w =
  print (u "Metadata already exists, skipping: "
           ++ metadata_key_of env (Pathlib.name key)) w'.
Proof.
  intros Hload Hbucket Hkey Hexists.
  destruct (get_after_getitem _ _ (u "etag") _ Hbucket) as [etag Hetag].
  unfold process_record, bind, lift.
  rewrite Hload; cbv beta iota. rewrite Hbucket; cbv beta iota.
  rewrite Hkey; cbv beta iota. rewrite Hetag; cbv beta iota.
  cbn [Pathlib.Path_name]. cbv beta iota zeta.
  rewrite Hexists. reflexivity.
Qed.


Lemma extract_exif_run image w :
  extract_exif env image w =
  match exif_outcome env image with
  | inr r => (ok r, w)
  | inl e =>
      (ok PyNone,
       with_stdout (stdout w ++ [u "Error extracting EXIF: " ++ exn_str e]) w)
  end.
Proof.
  unfold extract_exif, exif_outcome, try_except, bind, lift, print, ret.
  unfold rbind, rmap, rbind.
  destruct (_getexif image) as [e|[[|item items]|]]; cbv beta iota;
    try reflexivity.
  destruct (exif_items env (item :: items) []) as [e|d]; reflexivity.
Qed.

Lemma process_records_cons record records w :
  process_records env (record :: records) w =
  match process_record env record w with
  | (inr _, w') => process_records env records w'
  | (inl e, w') =>
      (raise e,
       with_stdout (stdout w' ++ [u "Failed processing message"; exn_str e]) w')
  end.
Proof.
  simpl. unfold bind at 1, try_except, on_failure, bind, print, throw.
  destruct (process_record env record w) as [[e|[]] w']; [|reflexivity].
  unfold with_stdout; simpl. rewrite <- app_assoc. reflexivity.
Qed.

Lemma process_records_app before after w w1 :
  process_records env before w = (ok tt, w1) ->
  process_records env (before ++ after) w = process_records env after w1.
Proof.
  revert w; induction before as [|r before IH]; intros w.
  - simpl. unfold ret. intros H; injection H as <-; reflexivity.
  - rewrite <- app_comm_cons, !process_records_cons.
    destruct (process_record env r w) as [[e|[]] w0]; [discriminate|].
    apply IH.
Qed.


Lemma all_served_3 fs :
  all_served 3 fs = true ->
  served fs = ok tt /\ served (tl fs) = ok tt /\ served (tl (tl fs)) = ok tt.
Proof.
  destruct fs as [|[e|] [|[e1|] [|[e2|] fs]]]; simpl; intros H;
    try discriminate; auto.
Qed.

(** An unprocessed image, fetched, opened and described: the document is
    written. *)
Lemma process_record_write record w message b key etag obj image text data :
  json_loads env (body record) = ok message ->
  getitem message (u "bucket") = ok (PyStr b) ->
  getitem message (u "key") = ok (PyStr key) ->
  get message (u "etag") = ok etag ->
  S3.lookup (objects w) (b, metadata_key_of env (Pathlib.name key)) = None ->
  S3.lookup (objects w) (b, key) = Some obj ->
  all_served 3 (faults w) = true ->
  Image_open env (Body obj) = ok image ->
  json_dumps env
    (document (PyStr b) (PyStr key) etag image
       (Z.of_nat (List.length (Body obj))) (exif_field env image)
       (clock w (ticks w))) 2 = ok text ->
  Codec.encode_utf8 text = ok data ->
  let mk := metadata_key_of env (Pathlib.name key) in
  exists w',
    process_record env record w = (ok tt, w') /\
    objects w' =
      S3.insert (objects w) (b, mk)
        {| Body := data; ContentType := u "application/json" |} /\
    calls w' =
      calls w ++ [HeadObject (PyStr b) (PyStr mk);
                  GetObject (PyStr b) (PyStr key);
                  PutObject (PyStr b) (PyStr mk) text (u "application/json")] /\
    stdout w' =
      stdout w ++ exif_log env image ++ [u "Metadata written to: " ++ mk] /\
    faults w' = tl (tl (tl (faults w))) /\
    ticks w' = S (ticks w).
Proof.
  intros Hload Hbucket Hkey Hetag Hnew Hobj Hserved Himage Hdumps Henc mk.
  subst mk. apply all_served_3 in Hserved as [Hs1 [Hs2 Hs3]].
  unfold process_record, bind at 1 2 3 4 5, lift.
  rewrite Hload; cbv beta iota. rewrite Hbucket; cbv beta iota.
  rewrite Hkey; cbv beta iota. rewrite Hetag; cbv beta iota.
  cbn [Pathlib.Path_name]. cbv beta iota zeta.
  unfold bind at 1. rewrite metadata_exists_run, head_object_run.
  rewrite Hs1, Hnew. cbn [rbind fst snd is_not_found].
  rewrite str_eqb_refl. cbv beta iota.
  unfold bind at 1. rewrite get_object_run. cbn [faults objects with_faults with_calls].
  rewrite Hs2, Hobj. cbn [rbind]. cbv beta iota.
  unfold bind at 1, lift. cbn [S3.Body_read]. rewrite Himage. cbv beta iota.
  unfold bind at 1. rewrite extract_exif_run.
  unfold exif_field, exif_log, document in *.
  destruct (exif_outcome env image) as [e|r]; cbv beta iota;
    unfold bind at 1, utcnow_isoformat; cbv beta iota;
    unfold bind at 1, lift; cbn [clock ticks with_faults with_calls with_stdout S3.ContentLength];
    try change (or_ PyNone (PyDict [])) with (PyDict []);
    rewrite Hdumps; cbv beta iota; unfold bind at 1;
    rewrite (put_object_run _ _ _ _ _ _ Henc);
    cbn [faults with_ticks with_faults with_calls with_stdout]; rewrite Hs3;
    cbv beta iota zeta; unfold print;
    (eexists; split; [reflexivity|]); cbn; rewrite <- ?app_assoc; cbn;
    repeat split; reflexivity.
Qed.

(** Once the message is parsed, what is left of [process_record]. *)
Lemma process_record_parsed record w message bucket key :
  json_loads env (body record) = ok message ->
  getitem message (u "bucket") = ok bucket ->
  getitem message (u "key") = ok (PyStr key) ->
  exists etag,
    get message (u "etag") = ok etag /\
    process_record env record w =
    let mk := metadata_key_of env (Pathlib.name key) in
    match metadata_exists bucket (PyStr mk) w with
    | (inl e, w1) => (raise e, w1)
    | (inr true, w1) =>
        print (u "Metadata already exists, skipping: " ++ mk) w1
    | (inr false, w1) =>
        match S3.get_object bucket (PyStr key) w1 with
        | (inl e, w2) => (raise e, w2)
        | (inr image_obj, w2) =>
            match Image_open env (S3.Body_read image_obj) with
            | inl e => (raise e, w2)
            | inr image =>
                let w3 := with_stdout (stdout w2 ++ exif_log env image) w2 in
                let w4 := with_ticks (S (ticks w3)) w3 in
                match json_dumps env
                        (document bucket (PyStr key) etag image
                           (S3.ContentLength image_obj) (exif_field env image)
                           (clock w2 (ticks w2))) 2 with
                | inl e => (raise e, w4)
                | inr text =>
                    match S3.put_object bucket (PyStr mk) text
                            (u "application/json") w4 with
                    | (inl e, w5) => (raise e, w5)
                    | (inr _, w5) =>
                        print (u "Metadata written to: " ++ mk) w5
                    end
                end
            end
        end
    end.
Proof.
  intros Hload Hbucket Hkey.
  destruct (get_after_getitem _ _ (u "etag") _ Hbucket) as [etag Hetag].
  exists etag. split; [assumption|].
  unfold process_record, bind at 1 2 3 4 5, lift.
  rewrite Hload; cbv beta iota. rewrite Hbucket; cbv beta iota.
  rewrite Hkey; cbv beta iota. rewrite Hetag; cbv beta iota.
  cbn [Pathlib.Path_name]. cbv beta iota zeta.
  unfold bind at 1.
  destruct (metadata_exists bucket _ w) as [[e|[|]] w1]; try reflexivity.
  unfold bind at 1.
  destruct (S3.get_object bucket (PyStr key) w1) as [[e|image_obj] w2];
    [reflexivity|].
  unfold bind at 1, lift.
  destruct (Image_open env (S3.Body_read image_obj)) as [e|image];
    [reflexivity|].
  unfold bind at 1. rewrite extract_exif_run.
  unfold exif_field, exif_log, document.
  destruct (exif_outcome env image) as [e|r]; cbv beta iota;
    unfold bind at 1, utcnow_isoformat; cbv beta iota;
    unfold bind at 1, lift;
    cbn [clock ticks stdout with_stdout];
    try change (or_ PyNone (PyDict [])) with (PyDict []).
  - destruct (json_dumps env _ 2) as [e'|text]; [reflexivity|].
    unfold bind at 1. reflexivity.
  - rewrite app_nil_r.
    replace (with_stdout (stdout w2) w2) with w2 by (destruct w2; reflexivity).
    destruct (json_dumps env _ 2) as [e'|text]; [reflexivity|].
    unfold bind at 1. reflexivity.
Qed.


(** The probe says the document is missing and the fetch fails: the
    exception of the fetch leaves [process_record], after two calls. *)
Lemma process_record_fetch_failure record w message bucket key w1 w2 e :
  json_loads env (body record) = ok message ->
  getitem message (u "bucket") = ok bucket ->
  getitem message (u "key") = ok (PyStr key) ->
  metadata_exists bucket (PyStr (metadata_key_of env (Pathlib.name key))) w
    = (ok false, w1) ->
  S3.get_object bucket (PyStr key) w1 = (raise e, w2) ->
  process_record env record w = (raise e, w2) /\
  calls w2 =
    calls w ++ [HeadObject bucket (PyStr (metadata_key_of env (Pathlib.name key)));
                GetObject bucket (PyStr key)] /\
  objects w2 = objects w.
Proof.
  intros Hload Hbucket Hkey Hexists Hget.
  destruct (process_record_parsed record w _ _ _ Hload Hbucket Hkey)
    as [etag [_ ->]].
  cbv zeta. rewrite Hexists, Hget.
  apply metadata_exists_frame in Hexists as [Hc1 [Ho1 _]].
  apply get_object_frame in Hget as [Hc2 [Ho2 _]].
  rewrite Hc2, Hc1, Ho2, Ho1, <- app_assoc. auto.
Qed.

(** The document is there and the probe is served: the record is
    skipped after the probe. *)
Lemma process_record_present record w message b key obj :
  json_loads env (body record) = ok message ->
  getitem message (u "bucket") = ok (PyStr b) ->
  getitem message (u "key") = ok (PyStr key) ->
  S3.lookup (objects w) (b, metadata_key_of env (Pathlib.name key)) = Some obj ->
  served (faults w) = ok tt ->
  let mk := metadata_key_of env (Pathlib.name key) in
  exists w',
    process_record env record w = (ok tt, w') /\
    objects w' = objects w /\
    calls w' = calls w ++ [HeadObject (PyStr b) (PyStr mk)] /\
    stdout w' = stdout w ++ [u "Metadata already exists, skipping: " ++ mk].
Proof.
  intros Hload Hbucket Hkey Hobj Hserved mk. subst mk.
  destruct (process_record_parsed record w _ _ _ Hload Hbucket Hkey)
    as [etag [_ ->]].
  cbv zeta. rewrite metadata_exists_run, head_object_run, Hserved, Hobj.
  cbn [rbind fst snd]. unfold print.
  eexists; split; [reflexivity|]. cbn. auto.
Qed.

(** The probe meets a fault that is not the store's "not found": the
    fault leaves [process_record] after the probe. *)
Lemma process_record_probe_fault record w message b key e :
  json_loads env (body record) = ok message ->
  getitem message (u "bucket") = ok (PyStr b) ->
  getitem message (u "key") = ok (PyStr key) ->
  served (faults w) = raise e ->
  is_not_found e = false ->
  let mk := metadata_key_of env (Pathlib.name key) in
  exists w',
    process_record env record w = (raise e, w') /\
    objects w' = objects w /\
    calls w' = calls w ++ [HeadObject (PyStr b) (PyStr mk)].
Proof.
  intros Hload Hbucket Hkey Hserved Hnf mk. subst mk.
  destruct (process_record_parsed record w _ _ _ Hload Hbucket Hkey)
    as [etag [_ ->]].
  cbv zeta. rewrite metadata_exists_run, head_object_run, Hserved.
  cbn [rbind fst snd]. rewrite Hnf.
  eexists; split; [reflexivity|]. cbn. auto.
Qed.

(** After a record is processed, its document is in the store. *)
Lemma process_record_document_exists record w w' message b key :
  json_loads env (body record) = ok message ->
  getitem message (u "bucket") = ok (PyStr b) ->
  getitem message (u "key") = ok (PyStr key) ->
  process_record env record w = (ok tt, w') ->
  exists obj,
    S3.lookup (objects w') (b, metadata_key_of env (Pathlib.name key))
    = Some obj.
Proof.
  intros Hload Hbucket Hkey.
  destruct (process_record_parsed record w _ _ _ Hload Hbucket Hkey)
    as [etag [_ ->]].
  cbv zeta.
  destruct (metadata_exists _ _ w) as [[e|[|]] w1] eqn:Hexists;
    [discriminate| |].
  - unfold print. intros H; injection H as <-. cbn.
    rewrite metadata_exists_run, head_object_run in Hexists.
    injection Hexists as Hr <-. cbn.
    destruct (served (faults w)) as [e|[]]; cbn in Hr.
    + destruct (is_not_found e); discriminate.
    + destruct (S3.lookup (objects w) _) as [obj|]; [eauto|].
      cbn in Hr. discriminate.
  - destruct (S3.get_object _ _ w1) as [[e|image_obj] w2]; [discriminate|].
    destruct (Image_open env _) as [e|image]; [discriminate|].
    destruct (json_dumps env _ 2) as [e|text]; [discriminate|].
    destruct (S3.put_object _ _ text _ _) as [[e|[]] w5] eqn:Hput;
      [discriminate|].
    apply put_object_written in Hput as [data [_ Hobjs]].
    unfold print. intros H; injection H as <-. cbn.
    rewrite Hobjs, lookup_insert. eauto.
Qed.

End Run.

End HandlerFacts.

(* ===================================================================== *)
(** * More facts about paths *)
(* ===================================================================== *)

Module PathlibMore.
Import Py Lib Metadata Pathlib PathlibFacts.

(** No segment holds a slash. *)
Lemma split_slash_no_slash (s : str) :
  Forall (fun seg => ~ In 47 seg) (split_slash s).
Proof.
  induction s as [|c s IH]; cbn.
  - constructor; [intros [] | constructor].
  - destruct (Z.eqb_spec c 47) as [->|Hc].
    + constructor; [intros [] | exact IH].
    + destruct (split_slash s) as [|seg segs]; [constructor; [|constructor]|].
      * intros [H|[]]. congruence.
      * inversion IH as [|? ? Hseg Hsegs]; subst. constructor; [|exact Hsegs].
        intros [H|H]; [congruence | contradiction].
Qed.

Lemma last_In {A} (l : list A) (d : A) : l <> [] -> In (last l d) l.
Proof.
  intros Hne. destruct (exists_last Hne) as [l' [x ->]].
  rewrite last_last. apply in_or_app. right. left. reflexivity.
Qed.

(** The name of a path is empty or a component of the path. *)
Lemma name_cases (path : str) :
  name path = [] \/
  (is_component (name path) = true /\ ~ In 47 (name path)).
Proof.
  unfold name, parts.
  destruct (filter is_component (split_slash path)) as [|seg segs] eqn:E;
    [left; reflexivity|].
  right.
  assert (Hin : In (last (seg :: segs) []) (seg :: segs))
    by (apply last_In; discriminate).
  rewrite <- E in *. apply filter_In in Hin as [Hin Hcomp].
  split; [exact Hcomp|].
  pose proof (split_slash_no_slash path) as Hall.
  rewrite Forall_forall in Hall. apply Hall. exact Hin.
Qed.

Lemma name_no_slash (path : str) : ~ In 47 (name path).
Proof.
  destruct (name_cases path) as [-> | [_ H]]; [intros [] | exact H].
Qed.

(** The name of a name is that name. *)
Lemma name_idempotent (path : str) : name (name path) = name path.
Proof.
  destruct (name_cases path) as [E | [Hcomp Hslash]].
  - rewrite E. reflexivity.
  - apply name_file; assumption.
Qed.

(** A slash at the end of a path does not count. *)
Lemma name_trailing_slash (path : str) : name (path ++ u "/") = name path.
Proof.
  unfold name, parts. change (u "/") with [47].
  rewrite split_slash_app, filter_app. cbn. rewrite app_nil_r. reflexivity.
Qed.

Lemma is_component_long (s : str) :
  (2 <= List.length s)%nat -> is_component s = true.
Proof.
  destruct s as [|a [|b s]]; cbn [List.length]; try lia. intros _.
  unfold is_component, u. cbn. rewrite andb_false_r. reflexivity.
Qed.

Lemma is_component_json (file : str) :
  is_component (file ++ u ".json") = true.
Proof.
  apply is_component_long. rewrite length_app.
  change (List.length (u ".json")) with 5%nat. lia.
Qed.

(** The name of a metadata key is the name of the source key followed by
    [".json"]. *)
Lemma name_metadata_key (env : Env) (key : str) :
  name (metadata_key_of env (name key)) = name key ++ u ".json".
Proof.
  unfold metadata_key_of.
  apply name_dir.
  - intros Hin. apply in_app_or in Hin as [Hin|Hin].
    + exact (name_no_slash key Hin).
    + vm_compute in Hin. repeat (destruct Hin as [Hin|Hin]; [discriminate|]).
      exact Hin.
  - apply is_component_json.
Qed.

(** The metadata key of a source key is never that source key. *)
Lemma metadata_key_neq (env : Env) (key : str) :
  metadata_key_of env (name key) <> key.
Proof.
  intros H. pose proof (name_metadata_key env key) as Hn.
  rewrite H in Hn. apply (f_equal (@List.length Z)) in Hn.
  rewrite length_app in Hn.
  change (List.length (u ".json")) with 5%nat in Hn. lia.
Qed.

End PathlibMore.

(* ===================================================================== *)
(** * The effect of a record and of a batch *)
(* ===================================================================== *)

Module EffectFacts.
Import Py Eff Lib Metadata Spec Behaviour PyFacts HandlerFacts.

(** A [put_object] records itself; it changes the store only when it
    returns, and then by the one object it was given. *)
Lemma put_object_frame (bucket key : pyval) (text ct : str) (w w' : World) r :
  S3.put_object bucket key text ct w = (r, w') ->
  calls w' = calls w ++ [PutObject bucket key text ct] /\
  stdout w' = stdout w /\
  ((exists e, r = raise e /\ objects w' = objects w) \/
   (r = ok tt /\
    exists b k data,
      bucket = PyStr b /\ key = PyStr k /\
      Codec.encode_utf8 text = ok data /\
      objects w' =
        S3.insert (objects w) (b, k) {| Body := data; ContentType := ct |})).
Proof.
  destruct bucket as [ | | | | b | | | | | ];
    try (unfold S3.put_object, bind, S3.record_call, S3.validate, throw;
         intros H; injection H as <- <-; cbn; eauto 10).
  destruct key as [ | | | | k | | | | | ];
    try (unfold S3.put_object, bind, S3.record_call, S3.validate, throw;
         intros H; injection H as <- <-; cbn; eauto 10).
  destruct (Codec.encode_utf8 text) as [e|data] eqn:Henc.
  - unfold S3.put_object, bind, S3.record_call, S3.validate, ret, lift.
    rewrite Henc. intros H; injection H as <- <-; cbn; eauto 10.
  - rewrite (put_object_run _ _ _ _ _ _ Henc). cbv zeta.
    destruct (served (faults w)) as [e|[]];
      intros H; injection H as <- <-; cbn.
    + eauto 10.
    + split; [reflexivity|]. split; [reflexivity|]. right.
      split; [reflexivity|]. exists b, k, data. auto.
Qed.

Lemma key_eqb_eq (a b : str * str) : S3.key_eqb a b = true <-> a = b.
Proof.
  destruct a as [a1 a2], b as [b1 b2]. unfold S3.key_eqb. cbn [fst snd].
  rewrite andb_true_iff, !str_eqb_eq. split.
  - intros [-> ->]. reflexivity.
  - intros H. injection H as -> ->. auto.
Qed.

(** Writing an object leaves the others as they are. *)
Lemma lookup_insert_other (objs : store) (bk bk' : str * str) (o : S3Object) :
  bk <> bk' -> S3.lookup (S3.insert objs bk o) bk' = S3.lookup objs bk'.
Proof.
  intros Hne. induction objs as [|[bk0 o0] objs IH]; cbn.
  - destruct (S3.key_eqb bk bk') eqn:E; [|reflexivity].
    apply key_eqb_eq in E. contradiction.
  - destruct (S3.key_eqb bk0 bk) eqn:E; cbn.
    + apply key_eqb_eq in E. subst bk0.
      destruct (S3.key_eqb bk bk') eqn:E'; [|reflexivity].
      apply key_eqb_eq in E'. contradiction.
    + destruct (S3.key_eqb bk0 bk'); [reflexivity | exact IH].
Qed.

(** Writing an object removes none. *)
Lemma lookup_insert_some (objs : store) (bk bk' : str * str) (o o' : S3Object) :
  S3.lookup objs bk' = Some o' ->
  exists o'', S3.lookup (S3.insert objs bk o) bk' = Some o''.
Proof.
  intros H. destruct (S3.key_eqb bk bk') eqn:E.
  - apply key_eqb_eq in E. subst bk'. rewrite lookup_insert. eauto.
  - rewrite lookup_insert_other; [eauto|].
    intros ->. rewrite key_eqb_refl in E. discriminate.
Qed.

(** A probe that succeeds was given a bucket and a key, and found the
    object. *)
Lemma head_object_found (bucket key : pyval) (w w' : World) :
  S3.head_object bucket key w = (ok tt, w') ->
  exists b k obj,
    bucket = PyStr b /\ key = PyStr k /\
    S3.lookup (objects w) (b, k) = Some obj.
Proof.
  destruct bucket as [ | | | | b | | | | | ];
    try (unfold S3.head_object, bind, S3.record_call, S3.validate, throw;
         discriminate).
  destruct key as [ | | | | k | | | | | ];
    try (unfold S3.head_object, bind, S3.record_call, S3.validate, throw;
         discriminate).
  rewrite head_object_run.
  destruct (served (faults w)) as [e|[]]; cbn [rbind]; [discriminate|].
  destruct (S3.lookup (objects w) (b, k)) as [obj|] eqn:E; [|discriminate].
  intros _. exists b, k, obj. auto.
Qed.

Section Run.
Variable env : Env.

(** A record is either refused before any call, or parsed into a bucket
    and a key. *)
Lemma process_record_cases record w :
  (exists e,
      process_record env record w = (raise e, w) /\
      (json_loads env (body record) = raise e \/
       exists message,
         json_loads env (body record) = ok message /\
         (getitem message (u "bucket") = raise e \/
          exists bucket,
            getitem message (u "bucket") = ok bucket /\
            (getitem message (u "key") = raise e \/
             exists key,
               getitem message (u "key") = ok key /\
               Pathlib.Path_name key = raise e)))) \/
  (exists message bucket key,
      json_loads env (body record) = ok message /\
      getitem message (u "bucket") = ok bucket /\
      getitem message (u "key") = ok (PyStr key)).
Proof.
  unfold process_record, bind at 1 2 3 4 5, lift.
  destruct (json_loads env (body record)) as [e|message] eqn:Hload;
    cbv beta iota.
  { left. exists e. auto. }
  destruct (getitem message (u "bucket")) as [e|bucket] eqn:Hbucket;
    cbv beta iota.
  { left. exists e. split; [reflexivity|]. right. exists message. auto. }
  destruct (getitem message (u "key")) as [e|key] eqn:Hkey; cbv beta iota.
  { left. exists e. split; [reflexivity|]. right. exists message.
    split; [reflexivity|]. right. exists bucket. auto. }
  destruct (get_after_getitem _ _ (u "etag") _ Hbucket) as [etag Hetag].
  rewrite Hetag; cbv beta iota.
  destruct (Pathlib.Path_name key) as [e|filename] eqn:Hname; cbv beta iota.
  { left. exists e. split; [reflexivity|]. right. exists message.
    split; [reflexivity|]. right. exists bucket.
    split; [assumption|]. right. exists key. auto. }
  right. exists message, bucket.
  destruct key; try discriminate. eauto.
Qed.

(** What a parsed record does to the calls and to the store. *)
Lemma process_record_effect record w r w' message bucket key :
  json_loads env (body record) = ok message ->
  getitem message (u "bucket") = ok bucket ->
  getitem message (u "key") = ok (PyStr key) ->
  process_record env record w = (r, w') ->
  let mk := PyStr (metadata_key_of env (Pathlib.name key)) in
  (calls w' = calls w ++ [HeadObject bucket mk] /\
   objects w' = objects w) \/
  (calls w' = calls w ++ [HeadObject bucket mk; GetObject bucket (PyStr key)] /\
   objects w' = objects w /\ exists e, r = raise e) \/
  (exists text,
      calls w' =
        calls w ++ [HeadObject bucket mk; GetObject bucket (PyStr key);
                    PutObject bucket mk text (u "application/json")] /\
      ((exists e, r = raise e /\ objects w' = objects w) \/
       (r = ok tt /\
        exists b data,
          bucket = PyStr b /\
          Codec.encode_utf8 text = ok data /\
          objects w' =
            S3.insert (objects w) (b, metadata_key_of env (Pathlib.name key))
              {| Body := data; ContentType := u "application/json" |}))).
Proof.
  intros Hload Hbucket Hkey.
  destruct (process_record_parsed env record w _ _ _ Hload Hbucket Hkey)
    as [etag [_ ->]].
  cbv zeta.
  destruct (metadata_exists bucket _ w) as [[e|[|]] w1] eqn:Hprobe;
    apply metadata_exists_frame in Hprobe as [Hc1 [Ho1 [Hs1 _]]].
  - intros H; injection H as <- <-. left. auto.
  - unfold print. intros H; injection H as <- <-. left. cbn. auto.
  - destruct (S3.get_object bucket (PyStr key) w1) as [[e|image_obj] w2] eqn:Hget;
      apply get_object_frame in Hget as [Hc2 [Ho2 _]].
    { intros H; injection H as <- <-. right; left.
      rewrite Hc2, Hc1, Ho2, Ho1, <- app_assoc. eauto. }
    destruct (Image_open env _) as [e|image].
    { intros H; injection H as <- <-. right; left.
      rewrite Hc2, Hc1, Ho2, Ho1, <- app_assoc. eauto. }
    destruct (json_dumps env _ 2) as [e|text].
    { intros H; injection H as <- <-. right; left. cbn.
      rewrite Hc2, Hc1, Ho2, Ho1, <- app_assoc. eauto. }
    destruct (S3.put_object _ _ text _ _) as [[e|[]] w5] eqn:Hput;
      apply put_object_frame in Hput as [Hc3 [_ Hput]]; cbn in Hc3, Hput;
      rewrite Hc2, Hc1, <- !app_assoc in Hc3; cbn in Hc3;
      rewrite Ho2, Ho1 in Hput.
    + intros H; injection H as <- <-. right; right. exists text.
      split; [exact Hc3|]. left.
      destruct Hput as [[e' [He' Ho]]|[He' _]]; [|discriminate].
      eauto.
    + unfold print. intros H; injection H as <- <-. right; right. exists text.
      cbn. split; [exact Hc3|]. right. split; [reflexivity|].
      destruct Hput as [[e' [He' _]]|[_ [b [k [data [Hb [Hk [Henc Ho]]]]]]]];
        [discriminate|].
      injection Hk as <-. exists b, data. auto.
Qed.

(** A record changes no object but its metadata document. *)
Lemma process_record_lookup_other record w r w' (bk : str * str) :
  process_record env record w = (r, w') ->
  (forall filename, snd bk <> metadata_key_of env filename) ->
  S3.lookup (objects w') bk = S3.lookup (objects w) bk.
Proof.
  intros Hrun Hbk.
  destruct (process_record_cases record w)
    as [[e [Hfail _]]|[message [bucket [key [Hload [Hbucket Hkey]]]]]].
  - rewrite Hfail in Hrun. injection Hrun as _ <-. reflexivity.
  - destruct (process_record_effect record w r w' _ _ _ Hload Hbucket Hkey Hrun)
      as [[_ ->]|[[_ [-> _]]|[text [_ [[e [_ ->]]|[_ [b [data [_ [_ ->]]]]]]]]]];
      try reflexivity.
    apply lookup_insert_other. intros <-. apply (Hbk (Pathlib.name key)).
    reflexivity.
Qed.

(** A record removes no object. *)
Lemma process_record_lookup_some record w r w' (bk : str * str) o :
  process_record env record w = (r, w') ->
  S3.lookup (objects w) bk = Some o ->
  exists o', S3.lookup (objects w') bk = Some o'.
Proof.
  intros Hrun Hbk.
  destruct (process_record_cases record w)
    as [[e [Hfail _]]|[message [bucket [key [Hload [Hbucket Hkey]]]]]].
  - rewrite Hfail in Hrun. injection Hrun as _ <-. eauto.
  - destruct (process_record_effect record w r w' _ _ _ Hload Hbucket Hkey Hrun)
      as [[_ ->]|[[_ [-> _]]|[text [_ [[e [_ ->]]|[_ [b [data [_ [_ ->]]]]]]]]]];
      eauto.
    eapply lookup_insert_some; eassumption.
Qed.

(** A record that returns leaves its document in the store. *)
Lemma process_record_ok_document record w w' :
  process_record env record w = (ok tt, w') ->
  exists message b key obj,
    json_loads env (body record) = ok message /\
    getitem message (u "bucket") = ok (PyStr b) /\
    getitem message (u "key") = ok (PyStr key) /\
    S3.lookup (objects w') (b, metadata_key_of env (Pathlib.name key))
      = Some obj.
Proof.
  intros Hrun.
  destruct (process_record_cases record w)
    as [[e [Hfail _]]|[message [bucket [key [Hload [Hbucket Hkey]]]]]].
  { rewrite Hfail in Hrun. discriminate. }
  assert (Hb : exists b, bucket = PyStr b).
  { destruct (process_record_parsed env record w _ _ _ Hload Hbucket Hkey)
      as [etag [_ Hrun']].
    rewrite Hrun' in Hrun. cbv zeta in Hrun.
    rewrite metadata_exists_run in Hrun.
    destruct (S3.head_object bucket _ w) as [[e|[]] w1] eqn:Hhead;
      cbn [fst snd] in Hrun.
    - destruct (is_not_found e); [|discriminate].
      destruct (S3.get_object bucket (PyStr key) w1) as [[e'|image_obj] w2]
        eqn:Hget; [discriminate|].
      destruct bucket; try (unfold S3.get_object, bind, S3.record_call,
                             S3.validate, throw in Hget; discriminate).
      eauto.
    - apply head_object_found in Hhead as [b [k [obj [-> _]]]]. eauto. }
  destruct Hb as [b ->].
  destruct (process_record_document_exists env record w w' _ _ _
              Hload Hbucket Hkey Hrun) as [obj Hobj].
  exists message, b, key, obj. auto.
Qed.

(** The loop changes no object but metadata documents. *)
Lemma process_records_lookup_other records (bk : str * str) :
  (forall filename, snd bk <> metadata_key_of env filename) ->
  forall w r w',
    process_records env records w = (r, w') ->
    S3.lookup (objects w') bk = S3.lookup (objects w) bk.
Proof.
  intros Hbk. induction records as [|record records IH]; intros w r w'.
  - cbn. unfold ret. intros H; injection H as _ <-. reflexivity.
  - rewrite process_records_cons.
    destruct (process_record env record w) as [[e|[]] w1] eqn:Hrec.
    + intros H; injection H as _ <-. cbn.
      exact (process_record_lookup_other record w _ _ bk Hrec Hbk).
    + intros H. rewrite (IH _ _ _ H).
      exact (process_record_lookup_other record w _ _ bk Hrec Hbk).
Qed.

(** The loop removes no object. *)
Lemma process_records_lookup_some records (bk : str * str) :
  forall w r w' o,
    process_records env records w = (r, w') ->
    S3.lookup (objects w) bk = Some o ->
    exists o', S3.lookup (objects w') bk = Some o'.
Proof.
  induction records as [|record records IH]; intros w r w' o.
  - cbn. unfold ret. intros H; injection H as _ <-. eauto.
  - rewrite process_records_cons.
    destruct (process_record env record w) as [[e|[]] w1] eqn:Hrec.
    + intros H; injection H as _ <-. cbn.
      exact (process_record_lookup_some record w _ _ bk o Hrec).
    + intros H Ho.
      destruct (process_record_lookup_some record w _ _ bk o Hrec Ho)
        as [o1 Ho1].
      exact (IH _ _ _ _ H Ho1).
Qed.

(** When the loop ends without an exception, every record has its
    document in the store. *)
Lemma process_records_ok_documents records :
  forall w w',
    process_records env records w = (ok tt, w') ->
    Forall (documented env (objects w')) records.
Proof.
  induction records as [|record records IH]; intros w w'.
  - constructor.
  - rewrite process_records_cons.
    destruct (process_record env record w) as [[e|[]] w1] eqn:Hrec;
      [discriminate|].
    intros H. constructor; [|exact (IH _ _ H)].
    destruct (process_record_ok_document record w w1 Hrec)
      as [message [b [key [obj [Hload [Hbucket [Hkey Hobj]]]]]]].
    destruct (process_records_lookup_some records _ _ _ _ _ H Hobj)
      as [obj' Hobj'].
    exists message, b, key, obj'. auto.
Qed.

(** A documented record, met again with no fault pending, is skipped
    after its probe. *)
Lemma process_record_documented record w :
  documented env (objects w) record ->
  faults w = [] ->
  exists w' probe,
    process_record env record w = (ok tt, w') /\
    objects w' = objects w /\ faults w' = [] /\
    calls w' = calls w ++ [probe] /\ is_probe probe = true.
Proof.
  intros [message [b [key [obj [Hload [Hbucket [Hkey Hobj]]]]]]] Hfaults.
  destruct (process_record_parsed env record w _ _ _ Hload Hbucket Hkey)
    as [etag [_ ->]].
  cbv zeta. rewrite metadata_exists_run, head_object_run, Hfaults, Hobj.
  cbn [rbind fst snd served]. unfold print.
  eexists. eexists. split; [reflexivity|]. cbn. auto.
Qed.

(** A batch whose records are all documented, run with no fault
    pending: one probe per record, and nothing else. *)
Lemma process_records_documented records :
  forall w,
    Forall (documented env (objects w)) records ->
    faults w = [] ->
    exists w' probes,
      process_records env records w = (ok tt, w') /\
      objects w' = objects w /\ faults w' = [] /\
      calls w' = calls w ++ probes /\
      List.length probes = List.length records /\
      forallb is_probe probes = true.
Proof.
  induction records as [|record records IH]; intros w Hall Hfaults.
  - exists w, []. cbn. rewrite app_nil_r. repeat split; auto.
  - inversion Hall as [|? ? Hrec Hrest]; subst.
    destruct (process_record_documented record w Hrec Hfaults)
      as [w1 [probe [Hrun [Hobjs [Hf1 [Hcalls Hprobe]]]]]].
    rewrite <- Hobjs in Hrest.
    destruct (IH w1 Hrest Hf1)
      as [w' [probes [Hrun' [Hobjs' [Hf' [Hcalls' [Hlen Hprobes]]]]]]].
    exists w', (probe :: probes).
    rewrite process_records_cons, Hrun. split; [exact Hrun'|].
    split; [congruence|]. split; [exact Hf'|].
    split; [rewrite Hcalls', Hcalls, <- app_assoc; reflexivity|].
    split; [cbn; lia|]. cbn. rewrite Hprobe, Hprobes. reflexivity.
Qed.

End Run.
End EffectFacts.

(* ===================================================================== *)
(** * More facts about the normalizer *)
(* ===================================================================== *)

Module NormalizerMore.
Import Py Spec Metadata Behaviour PyFacts NormalizerFacts.

Lemma dict_get_set_same (d : dict) (k : pykey) (v : pyval) :
  dict_get (dict_set d k v) k = Some v.
Proof.
  induction d as [|[k' v'] d IH]; cbn.
  - rewrite pykey_eqb_refl. reflexivity.
  - destruct (pykey_eqb k' k) eqn:E; cbn; rewrite E; auto.
Qed.

Lemma dict_get_set_other (d : dict) (k k' : pykey) (v : pyval) :
  k <> k' -> dict_get (dict_set d k v) k' = dict_get d k'.
Proof.
  intros Hne. induction d as [|[k0 v0] d IH]; cbn.
  - destruct (pykey_eqb k k') eqn:E; [|reflexivity].
    apply pykey_eqb_eq in E. contradiction.
  - destruct (pykey_eqb k0 k) eqn:E; cbn.
    + apply pykey_eqb_eq in E. subst k0.
      destruct (pykey_eqb k k') eqn:E'; [|reflexivity].
      apply pykey_eqb_eq in E'. contradiction.
    + destruct (pykey_eqb k0 k'); [reflexivity | exact IH].
Qed.

(** Setting an item keeps the keys distinct. *)
Lemma keys_dict_set (d : dict) (k : pykey) (v : pyval) :
  keys (dict_set d k v) = if existsb (pykey_eqb k) (keys d) then keys d
                          else keys d ++ [k].
Proof.
  unfold keys. induction d as [|[k' v'] d IH]; cbn; [reflexivity|].
  destruct (pykey_eqb k' k) eqn:E; cbn.
  - apply pykey_eqb_eq in E. subst k'. rewrite pykey_eqb_refl. reflexivity.
  - assert (E' : pykey_eqb k k' = false).
    { apply pykey_eqb_neq. intros ->. rewrite pykey_eqb_refl in E. discriminate. }
    rewrite E'. cbn. rewrite IH.
    destruct (existsb (pykey_eqb k) (map fst d)); reflexivity.
Qed.

Lemma distinct_dict_set (d : dict) (k : pykey) (v : pyval) :
  distinct (keys d) = true -> distinct (keys (dict_set d k v)) = true.
Proof.
  intros Hd. rewrite keys_dict_set.
  destruct (existsb (pykey_eqb k) (keys d)) eqn:E; [exact Hd|].
  apply distinct_NoDup. apply distinct_NoDup in Hd.
  apply NoDup_app; [exact Hd | constructor; [intros [] | constructor] |].
  intros x Hx [<-|[]].
  apply existsb_pykey_In in Hx. congruence.
Qed.

Lemma Forall_values_dict_set (P : pyval -> Prop) (d : dict) k v :
  Forall P (values d) -> P v -> Forall P (values (dict_set d k v)).
Proof.
  unfold values. intros Hd Hv. induction d as [|[k' v'] d IH]; cbn.
  - constructor; [exact Hv | constructor].
  - cbn in Hd. inversion Hd as [|? ? Hv' Hd']; subst.
    destruct (pykey_eqb k' k); cbn; constructor; auto.
Qed.

Lemma length_dict_set (d : dict) k v :
  (List.length (dict_set d k v) <= S (List.length d))%nat.
Proof.
  induction d as [|[k' v'] d IH]; cbn; [lia|].
  destruct (pykey_eqb k' k); cbn; lia.
Qed.

Lemma forallb_values (p : pyval -> bool) (d : dict) :
  forallb (fun kv => p (snd kv)) d = true <->
  Forall (fun v => p v = true) (values d).
Proof.
  unfold values. rewrite forallb_forall, Forall_forall. split.
  - intros H v Hv. apply in_map_iff in Hv as [kv [<- Hkv]]. auto.
  - intros H kv Hkv. apply H. apply in_map. exact Hkv.
Qed.

(** What a dictionary comprehension builds: distinct keys, and values
    that are values of [f] or were there before. *)
Lemma dict_comprehension_invariant f (P : pyval -> Prop) items :
  (forall kv v', In kv items -> f (snd kv) = ok v' -> P v') ->
  forall acc d,
    dict_comprehension f items acc = ok d ->
    distinct (keys acc) = true -> Forall P (values acc) ->
    distinct (keys d) = true /\ Forall P (values d).
Proof.
  induction items as [|[k v] items IH]; intros Hf acc d; cbn.
  - intros H; injection H as <-. auto.
  - destruct (f v) as [e|v'] eqn:Ev; cbn; [discriminate|].
    intros H Hd Hacc. apply (IH (fun kv v0 Hin => Hf kv v0 (or_intror Hin))
                               _ _ H).
    + apply distinct_dict_set. exact Hd.
    + apply Forall_values_dict_set; [exact Hacc|].
      apply (Hf (k, v) v' (or_introl eq_refl) Ev).
Qed.

Lemma list_comprehension_invariant f (P : pyval -> Prop) items :
  (forall v v', In v items -> f v = ok v' -> P v') ->
  forall l, list_comprehension f items = ok l -> Forall P l.
Proof.
  intros Hf l Hl. apply list_comprehension_Forall2 in Hl.
  induction Hl as [|v v' items l Hv _ IH]; constructor.
  - apply (Hf v v' (or_introl eq_refl) Hv).
  - apply IH. intros x x' Hin. apply Hf. right. exact Hin.
Qed.

(** Whatever it is given, [convert_value] returns a value whose
    dictionaries hold each key once and which holds no rational, no byte
    string and no tuple. *)
Lemma convert_value_output (v : pyval) :
  forall v', convert_value v = ok v' ->
  well_formed v' = true /\ json_representable v' = true.
Proof.
  induction v as [ | | | | | b | n d | l IH | l IH | d IH] using pyval_ind;
    intros v' H;
    try (injection H as <-; split; reflexivity).
  - rewrite convert_value_bytes in H.
    destruct (Codec.decode_utf8 Codec.Ignore b); cbn in H; [discriminate|].
    injection H as <-. split; reflexivity.
  - cbn [convert_value] in H.
    destruct (IFDRational_float n d); cbn in H; [discriminate|].
    injection H as <-. split; reflexivity.
  - cbn [convert_value] in H.
    destruct (list_comprehension convert_value l) as [e|l'] eqn:El;
      cbn in H; [discriminate|]. injection H as <-.
    assert (HP : Forall (fun x => well_formed x = true /\
                                  json_representable x = true) l').
    { apply (list_comprehension_invariant convert_value _ l); [|exact El].
      intros x x' Hin Hx. rewrite Forall_forall in IH. exact (IH x Hin x' Hx). }
    cbn. rewrite !forallb_forall. rewrite Forall_forall in HP.
    split; intros x Hx; apply (HP x Hx).
  - cbn [convert_value] in H.
    destruct (list_comprehension convert_value l) as [e|l'] eqn:El;
      cbn in H; [discriminate|]. injection H as <-.
    assert (HP : Forall (fun x => well_formed x = true /\
                                  json_representable x = true) l').
    { apply (list_comprehension_invariant convert_value _ l); [|exact El].
      intros x x' Hin Hx. rewrite Forall_forall in IH. exact (IH x Hin x' Hx). }
    cbn. rewrite !forallb_forall. rewrite Forall_forall in HP.
    split; intros x Hx; apply (HP x Hx).
  - cbn [convert_value] in H.
    destruct (dict_comprehension convert_value d []) as [e|d'] eqn:Ed;
      cbn in H; [discriminate|]. injection H as <-.
    assert (Hf : forall item x',
               In item d -> convert_value (snd item) = ok x' ->
               well_formed x' = true /\ json_representable x' = true).
    { intros item x' Hin Hx. rewrite Forall_forall in IH.
      exact (IH item Hin x' Hx). }
    destruct (dict_comprehension_invariant convert_value _ d Hf [] d' Ed
                eq_refl (Forall_nil _)) as [Hkeys Hvals].
    cbn. rewrite Hkeys. cbn.
    rewrite !forallb_values. rewrite Forall_forall in Hvals.
    split; apply Forall_forall; intros x Hx; apply (Hvals x Hx).
Qed.

Lemma traverse_id {A} (f : A -> result A) (l : list A) :
  Forall (fun x => f x = ok x) l -> Spec.traverse f l = ok l.
Proof.
  induction 1 as [|x l Hx _ IH]; cbn; [reflexivity|].
  rewrite Hx. cbn. rewrite IH. reflexivity.
Qed.

(** The normalizer leaves a JSON value as it is. *)
Lemma normalize_json (v : pyval) :
  json_representable v = true -> normalize v = ok v.
Proof.
  induction v as [ | | | | | b | n d | l IH | l IH | d IH] using pyval_ind;
    intros Hj; try reflexivity; try discriminate.
  - cbn in *. rewrite traverse_id; [reflexivity|].
    rewrite forallb_forall in Hj. rewrite Forall_forall in *. auto.
  - cbn in *.
    rewrite (traverse_id (fun kv => rmap (pair (fst kv)) (normalize (snd kv))));
      [reflexivity|].
    rewrite forallb_forall in Hj. rewrite Forall_forall in *.
    intros [k x] Hin. pose proof (IH (k, x) Hin (Hj (k, x) Hin)) as E.
    cbn [fst snd] in *. rewrite E. reflexivity.
Qed.

(** [convert_value] leaves its own results as they are. *)
Lemma convert_value_fixed (v v' : pyval) :
  convert_value v = ok v' -> convert_value v' = ok v'.
Proof.
  intros H. apply convert_value_output in H as [Hwf Hj].
  rewrite (convert_value_normalize v' Hwf). apply normalize_json. exact Hj.
Qed.

(** A comprehension raises what the first failing element raises. *)
Lemma list_comprehension_raise f (E : exn) (Q : pyval -> Prop) items :
  (forall x e, In x items -> (f x = raise e <-> e = E /\ Q x)) ->
  forall e,
    list_comprehension f items = raise e <->
    e = E /\ exists x, In x items /\ Q x.
Proof.
  induction items as [|x items IH]; intros Hf e; cbn.
  - split; [discriminate | intros [_ [x [[] _]]]].
  - assert (IH' := IH (fun y e' Hin => Hf y e' (or_intror Hin))).
    destruct (f x) as [ex|x'] eqn:Ex; cbn.
    + apply (Hf x ex (or_introl eq_refl)) in Ex as [-> HQ]. split.
      * intros H; injection H as <-. eauto.
      * intros [-> _]. reflexivity.
    + destruct (list_comprehension f items) as [el|l'] eqn:El; cbn.
      * destruct (proj1 (IH' el) eq_refl) as [-> [y [Hin HQ]]]. split.
        -- intros H; injection H as <-. eauto.
        -- intros [-> _]. reflexivity.
      * split; [discriminate|]. intros [-> [y [[<-|Hin] HQ]]].
        -- assert (H : f x = raise E)
             by (apply (Hf x E (or_introl eq_refl)); auto).
           congruence.
        -- assert (H : @inr exn (list pyval) l' = raise E)
             by (apply IH'; eauto).
           discriminate.
Qed.

Lemma dict_comprehension_raise f (E : exn) (Q : pyval -> Prop) items :
  (forall kv e, In kv items -> (f (snd kv) = raise e <-> e = E /\ Q (snd kv))) ->
  forall acc e,
    dict_comprehension f items acc = raise e <->
    e = E /\ exists kv, In kv items /\ Q (snd kv).
Proof.
  induction items as [|[k x] items IH]; intros Hf acc e; cbn.
  - split; [discriminate | intros [_ [x [[] _]]]].
  - assert (IH' := IH (fun y e' Hin => Hf y e' (or_intror Hin))).
    destruct (f x) as [ex|x'] eqn:Ex; cbn.
    + apply (Hf (k, x) ex (or_introl eq_refl)) in Ex as [-> HQ]. split.
      * intros H; injection H as <-. split; [reflexivity|].
        exists (k, x). auto.
      * intros [-> _]. reflexivity.
    + rewrite IH'. split.
      * intros [-> [kv [Hin HQ]]]. eauto.
      * intros [-> [kv [[<-|Hin] HQ]]]; [|eauto].
        assert (H : f x = raise E)
          by (apply (Hf (k, x) E (or_introl eq_refl)); auto).
        congruence.
Qed.

Lemma IFDRational_float_raise (n d : Z) (e : exn) :
  IFDRational_float n d = raise e <-> e = OverflowError /\ overflows (n, d).
Proof.
  unfold IFDRational_float, int_true_divide, overflows, OverflowError.
  cbn [fst snd].
  destruct (Z.eqb_spec d 0) as [->|Hd].
  { split; [discriminate | intros [_ [H _]]; contradiction]. }
  destruct (Z.eqb_spec (Z.abs d) 0) as [|_]; [lia|].
  assert (Hsgn : Z.abs (Z.sgn d * n) = Z.abs n).
  { assert (Hs : Z.abs (Z.sgn d) = 1)
      by (destruct d; [congruence | reflexivity | reflexivity]).
    rewrite Z.abs_mul, Hs. lia. }
  assert (HK : 0 < 2 ^ 1024 - 2 ^ 970) by (vm_compute; reflexivity).
  set (K := 2 ^ 1024 - 2 ^ 970) in *.
  destruct (Z.eqb_spec (Z.sgn d * n) 0) as [Hz|Hnz].
  { split; [discriminate|]. intros [_ [_ H]].
    rewrite <- Hsgn, Hz in H. change (Z.abs 0) with 0 in H.
    assert (0 < K * Z.abs d) by (apply Z.mul_pos_pos; lia). lia. }
  rewrite Hsgn, (Z.abs_eq (Z.abs d)) by lia.
  destruct (Z.leb_spec (K * Z.abs d) (Z.abs n)) as [Ho|Ho].
  - split; [intros H; injection H as <-; auto | intros [-> _]; reflexivity].
  - split; [discriminate | intros [_ [_ H]]; lia].
Qed.

Lemma Exists_flat_map_iff {A B} (P : B -> Prop) (g : A -> list B) (l : list A) :
  Exists P (flat_map g l) <-> exists x, In x l /\ Exists P (g x).
Proof.
  rewrite Exists_exists. split.
  - intros [y [Hy HP]]. apply in_flat_map in Hy as [x [Hx Hy]].
    exists x. split; [exact Hx|]. apply Exists_exists. eauto.
  - intros [x [Hx HP]]. apply Exists_exists in HP as [y [Hy HP]].
    exists y. split; [|exact HP]. apply in_flat_map. eauto.
Qed.

(** [convert_value] raises exactly when the value holds a rational whose
    quotient is too large for a float, and what it raises then is
    [OverflowError]. *)
Lemma convert_value_raise (v : pyval) :
  forall e,
    convert_value v = raise e <->
    e = OverflowError /\ Exists overflows (rationals v).
Proof.
  induction v as [ | | | | | b | n d | l IH | l IH | d IH] using pyval_ind;
    intros e;
    try (cbn; split; [discriminate | intros [_ H]; inversion H]).
  - rewrite convert_value_bytes.
    destruct (CodecFacts.utf8_ignore_total b 0%nat) as [r [Hr _]].
    unfold Codec.decode_utf8. rewrite Hr. cbn.
    split; [discriminate | intros [_ H]; inversion H].
  - cbn [convert_value rationals].
    destruct (IFDRational_float n d) as [e'|f] eqn:Ef; cbn.
    + apply IFDRational_float_raise in Ef as [-> Ho]. split.
      * intros H; injection H as <-. split; [reflexivity|]. constructor. exact Ho.
      * intros [-> _]. reflexivity.
    + split; [discriminate|]. intros [-> H].
      inversion H as [? ? Ho|? ? Ho]; subst; [|inversion Ho].
      assert (H' : IFDRational_float n d = raise OverflowError)
        by (apply IFDRational_float_raise; auto).
      congruence.
  - cbn [convert_value rationals]. rewrite Exists_flat_map_iff.
    rewrite Forall_forall in IH.
    assert (Hl := list_comprehension_raise convert_value OverflowError
                    (fun x => Exists overflows (rationals x)) l
                    (fun x e' Hin => IH x Hin e')).
    destruct (list_comprehension convert_value l) as [el|l']; cbn.
    + destruct (proj1 (Hl el) eq_refl) as [-> Hex].
      split; [intros H; injection H as <-; auto | intros [-> _]; reflexivity].
    + split; [discriminate|]. intros [-> Hex].
      assert (H : @inr exn (list pyval) l' = raise OverflowError)
        by (apply Hl; auto).
      discriminate.
  - cbn [convert_value rationals]. rewrite Exists_flat_map_iff.
    rewrite Forall_forall in IH.
    assert (Hl := list_comprehension_raise convert_value OverflowError
                    (fun x => Exists overflows (rationals x)) l
                    (fun x e' Hin => IH x Hin e')).
    destruct (list_comprehension convert_value l) as [el|l']; cbn.
    + destruct (proj1 (Hl el) eq_refl) as [-> Hex].
      split; [intros H; injection H as <-; auto | intros [-> _]; reflexivity].
    + split; [discriminate|]. intros [-> Hex].
      assert (H : @inr exn (list pyval) l' = raise OverflowError)
        by (apply Hl; auto).
      discriminate.
  - cbn [convert_value rationals].
    rewrite (Exists_flat_map_iff overflows (fun kv => rationals (snd kv))).
    rewrite Forall_forall in IH.
    assert (Hd := dict_comprehension_raise convert_value OverflowError
                    (fun x => Exists overflows (rationals x)) d
                    (fun kv e' Hin => IH kv Hin e') []).
    destruct (dict_comprehension convert_value d []) as [ed|d']; cbn.
    + destruct (proj1 (Hd ed) eq_refl) as [-> Hex].
      split; [intros H; injection H as <-; auto | intros [-> _]; reflexivity].
    + split; [discriminate|]. intros [-> Hex].
      assert (H : @inr exn dict d' = raise OverflowError)
        by (apply Hd; auto).
      discriminate.
Qed.

End NormalizerMore.

(* ===================================================================== *)
(** * Facts about the tag loop *)
(* ===================================================================== *)

Module ExifFacts.
Import Py Lib Spec Metadata Behaviour PyFacts NormalizerFacts NormalizerMore.

Section Exif.
Variable env : Env.

Lemma exif_items_cons tag_id value items acc :
  exif_items env ((tag_id, value) :: items) acc =
  rbind (convert_value value) (fun v =>
    exif_items env items (dict_set acc (tag_key env tag_id) v)).
Proof. reflexivity. Qed.

(** The loop of [extract_exif] keeps the keys distinct and files only
    converted values; it adds at most one item per tag. *)
Lemma exif_items_invariant (P : pyval -> Prop) items :
  (forall v v', convert_value v = ok v' -> P v') ->
  forall acc d,
    exif_items env items acc = ok d ->
    distinct (keys acc) = true -> Forall P (values acc) ->
    distinct (keys d) = true /\ Forall P (values d) /\
    (List.length acc <= List.length d <= List.length acc + List.length items)%nat.
Proof.
  intros HP. induction items as [|[tag_id value] items IH]; intros acc d.
  - cbn. intros H; injection H as <-. intros. repeat split; auto; lia.
  - rewrite exif_items_cons.
    destruct (convert_value value) as [e|v] eqn:Ev; cbn [rbind]; [discriminate|].
    intros H Hd Hacc.
    destruct (IH _ _ H (distinct_dict_set _ _ _ Hd)
                (Forall_values_dict_set P _ _ _ Hacc (HP _ _ Ev)))
      as [Hd' [Hv' Hlen]].
    split; [exact Hd'|]. split; [exact Hv'|].
    pose proof (length_dict_set acc (tag_key env tag_id) v).
    assert (List.length acc <= List.length (dict_set acc (tag_key env tag_id) v))%nat.
    { clear. induction acc as [|[k' v'] acc IHa]; cbn; [lia|].
      destruct (pykey_eqb k' (tag_key env tag_id)); cbn; lia. }
    cbn [List.length]. lia.
Qed.

(** What the loop files under a key: the converted value of the last
    item of that key, or what was there before. *)
Lemma exif_items_get items :
  forall acc d k,
    exif_items env items acc = ok d ->
    match last_tagged env k items with
    | Some value =>
        exists v', convert_value value = ok v' /\ dict_get d k = Some v'
    | None => dict_get d k = dict_get acc k
    end.
Proof.
  induction items as [|[tag_id value] items IH]; intros acc d k.
  - cbn. intros H; injection H as <-. reflexivity.
  - rewrite exif_items_cons.
    destruct (convert_value value) as [e|v] eqn:Ev; cbn [rbind]; [discriminate|].
    intros H. specialize (IH _ _ k H). cbn [last_tagged].
    destruct (last_tagged env k items) as [value'|]; [exact IH|].
    rewrite IH.
    destruct (pykey_eqb (tag_key env tag_id) k) eqn:E.
    + apply pykey_eqb_eq in E. subst k. exists v. split; [exact Ev|].
      apply dict_get_set_same.
    + apply dict_get_set_other. apply pykey_eqb_neq. exact E.
Qed.

End Exif.
End ExifFacts.

(* ===================================================================== *)
(** * More facts about the codec *)
(* ===================================================================== *)

Module CodecMore.
Import Py Behaviour Codec CodecFacts.

Lemma byte_val_range (b : Byte.byte) : 0 <= byte_val b < 256.
Proof.
  unfold byte_val. pose proof (Byte.to_N_bounded b) as H. lia.
Qed.

Lemma byte_val_of_Z (z : Z) : 0 <= z < 256 -> byte_val (byte_of_Z z) = z.
Proof.
  intros Hz. unfold byte_val, byte_of_Z.
  destruct (Byte.of_N (Z.to_N z)) as [b|] eqn:E.
  - apply Byte.to_of_N in E. rewrite E. lia.
  - apply Byte.of_N_None_iff in E. lia.
Qed.

Ltac split_bools :=
  repeat match goal with
    | H : _ && _ = true |- _ => apply andb_true_iff in H as [? ?]
    | H : _ || _ = false |- _ => apply orb_false_iff in H as [? ?]
    | H : negb _ = false |- _ => apply negb_false_iff in H
    | H : negb _ = true |- _ => apply negb_true_iff in H
    | H : (_ <? _) = true |- _ => apply Z.ltb_lt in H
    | H : (_ <? _) = false |- _ => apply Z.ltb_ge in H
    | H : (_ <=? _) = true |- _ => apply Z.leb_le in H
    | H : (_ <=? _) = false |- _ => apply Z.leb_gt in H
    | H : (_ =? _) = true |- _ => apply Z.eqb_eq in H
    | H : (_ =? _) = false |- _ => apply Z.eqb_neq in H
    | H : (if ?c then _ else _) = _ |- _ => destruct c eqn:?
    end.

(** The value decoded, with its shifts written as products. *)
Ltac decoded :=
  match goal with
  | |- Decoded ?v _ = Decoded _ _ -> _ =>
      let val := fresh "val" in
      let Eval := fresh "Eval" in
      remember v as val eqn:Eval;
      intros H; injection H as <- <-;
      rewrite ?Z.shiftl_mul_pow2 in Eval by lia; subst val
  end.

Lemma is_scalar_spec (c : Z) :
  is_scalar c = true <-> 0 <= c < 55296 \/ 57344 <= c <= 1114111.
Proof.
  unfold is_scalar.
  rewrite orb_true_iff, !andb_true_iff, !Z.leb_le, !Z.ltb_lt. tauto.
Qed.

(** A code point the decoder yields is a scalar value, made of one to
    four bytes of the input. *)
Lemma utf8_decode_one_scalar (s : bytes) (ch : Z) (n : nat) :
  utf8_decode_one s = Decoded ch n ->
  is_scalar ch = true /\ (1 <= n <= 4)%nat.
Proof.
  unfold utf8_decode_one, invalid_start, invalid_continuation, unexpected_end.
  destruct s as [|b1 t1]; [discriminate|].
  pose proof (byte_val_range b1) as H1.
  set (c1 := byte_val b1) in *.
  destruct (c1 <? 128) eqn:E1.
  { intros H; injection H as <- <-. split_bools.
    split; [apply is_scalar_spec; lia | lia]. }
  destruct (c1 <? 194) eqn:E2; [discriminate|].
  destruct (c1 <? 224) eqn:E3.
  { destruct t1 as [|b2 t2]; [discriminate|].
    pose proof (byte_val_range b2) as H2. set (c2 := byte_val b2) in *.
    unfold is_continuation.
    destruct ((128 <=? c2) && (c2 <? 192)) eqn:C2; [|discriminate].
    decoded. split_bools.
    split; [apply is_scalar_spec; lia | lia]. }
  destruct (c1 <? 240) eqn:E4.
  { destruct t1 as [|b2 t2]; [discriminate|].
    pose proof (byte_val_range b2) as H2. set (c2 := byte_val b2) in *.
    unfold is_continuation.
    destruct (negb ((128 <=? c2) && (c2 <? 192))
              || (if c2 <? 160 then c1 =? 224 else c1 =? 237)) eqn:C2;
      [discriminate|].
    destruct t2 as [|b3 t3]; [discriminate|].
    pose proof (byte_val_range b3) as H3. set (c3 := byte_val b3) in *.
    destruct ((128 <=? c3) && (c3 <? 192)) eqn:C3; [|discriminate].
    decoded. split_bools; (split; [apply is_scalar_spec; lia | lia]). }
  destruct (c1 <? 245) eqn:E5; [|discriminate].
  destruct t1 as [|b2 t2]; [discriminate|].
  pose proof (byte_val_range b2) as H2. set (c2 := byte_val b2) in *.
  unfold is_continuation.
  destruct (negb ((128 <=? c2) && (c2 <? 192))
            || (if c2 <? 144 then c1 =? 240 else c1 =? 244)) eqn:C2;
    [discriminate|].
  destruct t2 as [|b3 t3]; [discriminate|].
  pose proof (byte_val_range b3) as H3. set (c3 := byte_val b3) in *.
  destruct (negb ((128 <=? c3) && (c3 <? 192))) eqn:C3; [discriminate|].
  destruct t3 as [|b4 t4]; [discriminate|].
  pose proof (byte_val_range b4) as H4. set (c4 := byte_val b4) in *.
  destruct ((128 <=? c4) && (c4 <? 192)) eqn:C4; [|discriminate].
  decoded. split_bools; (split; [apply is_scalar_spec; lia | lia]).
Qed.

(** Whatever the error handler, the decoder yields scalar values only. *)
Lemma utf8_decode_from_scalar errors (s : bytes) :
  forall skip r,
    utf8_decode_from errors skip s = ok r ->
    Forall (fun c => is_scalar c = true) r.
Proof.
  induction s as [|b rest IH]; intros skip r.
  - cbn. intros H; injection H as <-. constructor.
  - rewrite utf8_decode_from_cons. destruct skip as [|k]; [|apply IH].
    destruct (utf8_decode_one (b :: rest)) as [ch n | reason n] eqn:Eone.
    + destruct (utf8_decode_from errors (n - 1) rest) as [e|r'] eqn:Erest;
        cbn; [discriminate|].
      intros H; injection H as <-. constructor.
      * apply (utf8_decode_one_scalar _ _ _ Eone).
      * apply (IH _ _ Erest).
    + destruct errors; [discriminate | apply IH].
Qed.

(** A string of scalar values has an encoding. *)
Lemma encode_utf8_scalar (s : str) :
  Forall (fun c => is_scalar c = true) s ->
  exists data, encode_utf8 s = ok data.
Proof.
  induction 1 as [|c s Hc _ [data IH]]; cbn; [eauto|].
  apply is_scalar_spec in Hc. unfold utf8_encode_one.
  destruct (c <? 128); [rewrite IH; cbn; eauto|].
  destruct (c <? 2048); [rewrite IH; cbn; eauto|].
  destruct ((55296 <=? c) && (c <? 57344)) eqn:E.
  { split_bools. lia. }
  destruct (c <? 65536); rewrite IH; cbn; eauto.
Qed.

Lemma land_63 (z : Z) : Z.land z 63 = z mod 64.
Proof. change 63 with (Z.ones 6). rewrite Z.land_ones by lia. reflexivity. Qed.

Ltac bits :=
  rewrite ?land_63, ?Z.shiftr_div_pow2 by lia;
  change (2 ^ 6) with 64; change (2 ^ 12) with 4096;
  change (2 ^ 18) with 262144.

(** Decoding the encoding of a scalar value gives it back, and consumes
    the bytes of the encoding. *)
Lemma utf8_decode_encode_one (ch : Z) :
  is_scalar ch = true ->
  exists b bs,
    utf8_encode_one ch = ok (b :: bs) /\
    forall rest,
      utf8_decode_one ((b :: bs) ++ rest) = Decoded ch (S (List.length bs)).
Proof.
  intros Hch. apply is_scalar_spec in Hch. unfold utf8_encode_one.
  destruct (Z.ltb_spec ch 128) as [H1|H1].
  { do 2 eexists. split; [reflexivity|]. intros rest.
    unfold utf8_decode_one. cbn [app].
    rewrite byte_val_of_Z by lia.
    destruct (Z.ltb_spec ch 128); [reflexivity | lia]. }
  destruct (Z.ltb_spec ch 2048) as [H2|H2].
  { do 2 eexists. split; [reflexivity|]. intros rest.
    unfold utf8_decode_one, is_continuation. cbn [app]. bits.
    rewrite !byte_val_of_Z by (Z.div_mod_to_equations; lia).
    rewrite !Z.shiftl_mul_pow2 by lia.
    repeat match goal with
           | |- context [?a <? ?b] =>
               destruct (Z.ltb_spec a b); try (Z.div_mod_to_equations; lia)
           | |- context [?a <=? ?b] =>
               destruct (Z.leb_spec a b); try (Z.div_mod_to_equations; lia)
           end.
    cbn [andb]. f_equal. Z.div_mod_to_equations. lia. }
  destruct ((55296 <=? ch) && (ch <? 57344)) eqn:E.
  { split_bools. lia. }
  destruct (Z.ltb_spec ch 65536) as [H3|H3].
  { do 2 eexists. split; [reflexivity|]. intros rest.
    unfold utf8_decode_one, is_continuation. cbn [app]. bits.
    rewrite !byte_val_of_Z by (Z.div_mod_to_equations; lia).
    rewrite !Z.shiftl_mul_pow2 by lia.
    repeat match goal with
           | |- context [?a <? ?b] =>
               destruct (Z.ltb_spec a b); try (Z.div_mod_to_equations; lia)
           | |- context [?a <=? ?b] =>
               destruct (Z.leb_spec a b); try (Z.div_mod_to_equations; lia)
           | |- context [?a =? ?b] =>
               destruct (Z.eqb_spec a b); try (Z.div_mod_to_equations; lia)
           end;
    cbn [andb orb negb]; try (f_equal; Z.div_mod_to_equations; lia);
    split_bools; exfalso; Z.div_mod_to_equations; lia. }
  do 2 eexists. split; [reflexivity|]. intros rest.
  unfold utf8_decode_one, is_continuation. cbn [app]. bits.
  rewrite !byte_val_of_Z by (Z.div_mod_to_equations; lia).
  rewrite !Z.shiftl_mul_pow2 by lia.
  repeat match goal with
         | |- context [?a <? ?b] =>
             destruct (Z.ltb_spec a b); try (Z.div_mod_to_equations; lia)
         | |- context [?a <=? ?b] =>
             destruct (Z.leb_spec a b); try (Z.div_mod_to_equations; lia)
         | |- context [?a =? ?b] =>
             destruct (Z.eqb_spec a b); try (Z.div_mod_to_equations; lia)
         end;
  cbn [andb orb negb]; try (f_equal; Z.div_mod_to_equations; lia);
  split_bools; exfalso; Z.div_mod_to_equations; lia.
Qed.

(** Bytes to pass over are passed over. *)
Lemma utf8_decode_from_skip errors (pre rest : bytes) :
  utf8_decode_from errors (List.length pre) (pre ++ rest)
  = utf8_decode_from errors 0 rest.
Proof.
  induction pre as [|b pre IH]; [reflexivity|].
  cbn [List.length app]. rewrite utf8_decode_from_cons. exact IH.
Qed.

(** Decoding an encoding gives the string back. *)
Lemma decode_encode_utf8 errors (s : str) :
  Forall (fun c => is_scalar c = true) s ->
  forall data,
    encode_utf8 s = ok data -> decode_utf8 errors data = ok s.
Proof.
  unfold decode_utf8.
  induction 1 as [|c s Hc _ IH]; intros data; cbn [encode_utf8].
  - intros H; injection H as <-. reflexivity.
  - destruct (utf8_decode_encode_one c Hc) as [b [bs [Henc Hdec]]].
    rewrite Henc. cbn [rbind].
    destruct (encode_utf8 s) as [e|data'] eqn:Es; cbn [rbind]; [discriminate|].
    intros H; injection H as <-.
    specialize (Hdec data'). cbn [app] in *.
    rewrite utf8_decode_from_cons, Hdec.
    replace (S (List.length bs) - 1)%nat with (List.length bs) by lia.
    rewrite utf8_decode_from_skip, (IH data' eq_refl). reflexivity.
Qed.

End CodecMore.

(* ===================================================================== *)
(** * The specification, claim by claim *)
(* ===================================================================== *)

Import Py Eff Lib Metadata Spec.

(** C1.  When processing one message of a batch raises an exception,
    [lambda_handler] raises that exception and processes no later
    message: the world it leaves is the world of the failure, with the
    two lines of the [except] clause printed.  In particular, in a batch
    of three messages whose second fetch fails, the calls made after the
    first message are the probe and the fetch of the second one, and the
    store is as the first message left it: the third fetch is not
    attempted and no document is written for the second or the third
    message. *)
Theorem failure_aborts_batch (env : Env) :
  (forall before record after w w1 w2 e,
      process_records env before w = (ok tt, w1) ->
      process_record env record w1 = (raise e, w2) ->
      exists w3,
        lambda_handler env {| Records := before ++ record :: after |} w
          = (raise e, w3) /\
        calls w3 = calls w2 /\
        objects w3 = objects w2 /\
        faults w3 = faults w2 /\
        stdout w3 = stdout w2 ++ [u "Failed processing message"; exn_str e])
  /\
  (forall first second third w w1 w1' w2 message bucket key e,
      process_record env first w = (ok tt, w1) ->
      json_loads env (body second) = ok message ->
      getitem message (u "bucket") = ok bucket ->
      getitem message (u "key") = ok (PyStr key) ->
      metadata_exists bucket
        (PyStr (metadata_key_of env (Pathlib.name key))) w1 = (ok false, w1') ->
      S3.get_object bucket (PyStr key) w1' = (raise e, w2) ->
      exists w3,
        lambda_handler env {| Records := [first; second; third] |} w
          = (raise e, w3) /\
        calls w3 =
          calls w1 ++
          [HeadObject bucket (PyStr (metadata_key_of env (Pathlib.name key)));
           GetObject bucket (PyStr key)] /\
        objects w3 = objects w1).
Proof.
  split.
  - intros before record after w w1 w2 e Hbefore Hfail.
    unfold lambda_handler, bind. cbn [Records].
    rewrite (HandlerFacts.process_records_app env _ _ _ _ Hbefore).
    rewrite HandlerFacts.process_records_cons, Hfail.
    eexists; split; [reflexivity|]. cbn. auto.
  - intros first second third w w1 w1' w2 message bucket key e
      Hfirst Hload Hbucket Hkey Hprobe Hget.
    destruct (HandlerFacts.process_record_fetch_failure env second w1 _ _ _ _ _ _
                Hload Hbucket Hkey Hprobe Hget) as [Hfail [Hcalls Hobjs]].
    unfold lambda_handler, bind. cbn [Records].
    rewrite HandlerFacts.process_records_cons, Hfirst.
    rewrite HandlerFacts.process_records_cons, Hfail.
    eexists; split; [reflexivity|]. cbn. auto.
Qed.

Lemma failure_aborts_batch_witness :
  let e := ClientError (u "NoSuchKey") (u "The specified key does not exist.")
             (u "GetObject") in
  exists w3,
    lambda_handler Fixture.env
      {| Records := [Fixture.img1; Fixture.img2; Fixture.img3] |}
      Fixture.world = (raise e, w3) /\
    calls w3 =
      calls Fixture.world_after_img1 ++
      [HeadObject (PyStr (u "b")) (PyStr (u "metadata/img2.jpg.json"));
       GetObject (PyStr (u "b")) (PyStr (u "photos/img2.jpg"))] /\
    objects w3 = objects Fixture.world_after_img1.
Proof.
  intros e.
  apply (proj2 (failure_aborts_batch Fixture.env)
           Fixture.img1 Fixture.img2 Fixture.img3 Fixture.world
           Fixture.world_after_img1
           (snd (metadata_exists (PyStr (u "b"))
                   (PyStr (u "metadata/img2.jpg.json"))
                   Fixture.world_after_img1))
           (snd (S3.get_object (PyStr (u "b")) (PyStr (u "photos/img2.jpg"))
                   (snd (metadata_exists (PyStr (u "b"))
                           (PyStr (u "metadata/img2.jpg.json"))
                           Fixture.world_after_img1))))
           (Fixture.message "b" "photos/img2.jpg" "def")
           (PyStr (u "b")) (u "photos/img2.jpg") e);
    vm_compute; reflexivity.
Defined.

(** C2.  A message whose metadata key the existence probe finds in the
    store is skipped: [process_record] returns without raising, the only
    call it makes is the probe (no [get_object], no [put_object]), the
    store is unchanged, and the loop goes on with the next message; a
    batch made of that message alone ends with the success status. *)
Theorem existing_metadata_is_skipped (env : Env) record records w message
    bucket key w1 :
  json_loads env (body record) = ok message ->
  getitem message (u "bucket") = ok bucket ->
  getitem message (u "key") = ok (PyStr key) ->
  metadata_exists bucket (PyStr (metadata_key_of env (Pathlib.name key))) w
    = (ok true, w1) ->
  exists w2,
    process_record env record w = (ok tt, w2) /\
    calls w2 =
      calls w ++
      [HeadObject bucket (PyStr (metadata_key_of env (Pathlib.name key)))] /\
    objects w2 = objects w /\
    stdout w2 =
      stdout w ++ [u "Metadata already exists, skipping: "
                     ++ metadata_key_of env (Pathlib.name key)] /\
    process_records env (record :: records) w = process_records env records w2 /\
    lambda_handler env {| Records := [record] |} w
      = (ok (PyDict [(KStr (u "statusCode"), PyInt 200)]), w2).
Proof.
  intros Hload Hbucket Hkey Hprobe.
  pose proof (HandlerFacts.process_record_skip env record w _ _ _ _
                Hload Hbucket Hkey Hprobe) as Hskip.
  apply HandlerFacts.metadata_exists_frame in Hprobe
    as [Hcalls [Hobjs [Hout _]]].
  unfold print in Hskip.
  exists (with_stdout
            (stdout w1 ++ [u "Metadata already exists, skipping: "
                             ++ metadata_key_of env (Pathlib.name key)]) w1).
  split; [exact Hskip|].
  cbn [calls objects stdout with_stdout].
  split; [exact Hcalls|]. split; [exact Hobjs|].
  split; [rewrite Hout; reflexivity|]. split.
  - rewrite HandlerFacts.process_records_cons, Hskip. reflexivity.
  - unfold lambda_handler, bind. cbn [Records].
    rewrite HandlerFacts.process_records_cons, Hskip. reflexivity.
Qed.

Lemma existing_metadata_is_skipped_witness :
  exists w2,
    process_record Fixture.env Fixture.img1 Fixture.world_after_img1
      = (ok tt, w2) /\
    calls w2 =
      calls Fixture.world_after_img1 ++
      [HeadObject (PyStr (u "b")) (PyStr (u "metadata/img1.jpg.json"))] /\
    objects w2 = objects Fixture.world_after_img1 /\
    stdout w2 =
      stdout Fixture.world_after_img1 ++
      [u "Metadata already exists, skipping: metadata/img1.jpg.json"] /\
    process_records Fixture.env [Fixture.img1; Fixture.img3]
      Fixture.world_after_img1
      = process_records Fixture.env [Fixture.img3] w2 /\
    lambda_handler Fixture.env {| Records := [Fixture.img1] |}
      Fixture.world_after_img1
      = (ok (PyDict [(KStr (u "statusCode"), PyInt 200)]), w2).
Proof.
  apply (existing_metadata_is_skipped Fixture.env Fixture.img1 [Fixture.img3]
           Fixture.world_after_img1
           (Fixture.message "b" "photos/img1.jpg" "abc")
           (PyStr (u "b")) (u "photos/img1.jpg")
           (snd (metadata_exists (PyStr (u "b"))
                   (PyStr (u "metadata/img1.jpg.json"))
                   Fixture.world_after_img1)));
    vm_compute; reflexivity.
Defined.

(** C3.  The key of the document is the output prefix, a slash, the name
    of the source key and [".json"].  The name is [Path(key).name]: the
    last segment of the key that is neither empty nor a dot, hence the
    last path segment whenever that one is neither empty nor a dot, and
    another segment otherwise.  When the document is not in the store
    yet and the image is fetched and decoded, the handler makes three
    calls, the probe, the fetch and the write, and the object written
    under that key, with the content type [application/json], is the
    serialization of a document with exactly the fields [source_bucket],
    [source_key], [etag], [format], [width], [height],
    [file_size_bytes], [exif] and [processed_at], in that order: the
    bucket, the key and the tag of the message, the format and the
    dimensions of the image, the length of the payload, the tag data or
    an empty mapping, and the time of the clock. *)
Theorem document_written (env : Env) record w message b key etag obj image
    exif w_exif text data :
  json_loads env (body record) = ok message ->
  getitem message (u "bucket") = ok (PyStr b) ->
  getitem message (u "key") = ok (PyStr key) ->
  get message (u "etag") = ok etag ->
  S3.lookup (objects w)
    (b, OUTPUT_PREFIX env ++ u "/" ++ Pathlib.name key ++ u ".json") = None ->
  S3.lookup (objects w) (b, key) = Some obj ->
  all_served 3 (faults w) = true ->
  Image_open env (Body obj) = ok image ->
  extract_exif env image w = (ok exif, w_exif) ->
  json_dumps env
    (PyDict [ (KStr (u "source_bucket"), PyStr b);
              (KStr (u "source_key"), PyStr key);
              (KStr (u "etag"), etag);
              (KStr (u "format"), PyStr (format image));
              (KStr (u "width"), PyInt (width image));
              (KStr (u "height"), PyInt (height image));
              (KStr (u "file_size_bytes"),
               PyInt (Z.of_nat (List.length (Body obj))));
              (KStr (u "exif"), or_ exif (PyDict []));
              (KStr (u "processed_at"), PyStr (clock w (ticks w))) ]) 2
    = ok text ->
  Codec.encode_utf8 text = ok data ->
  let metadata_key :=
    OUTPUT_PREFIX env ++ u "/" ++ Pathlib.name key ++ u ".json" in
  exists w',
    process_record env record w = (ok tt, w') /\
    calls w' =
      calls w ++
      [HeadObject (PyStr b) (PyStr metadata_key);
       GetObject (PyStr b) (PyStr key);
       PutObject (PyStr b) (PyStr metadata_key) text (u "application/json")] /\
    objects w' =
      S3.insert (objects w) (b, metadata_key)
        {| Body := data; ContentType := u "application/json" |} /\
    S3.lookup (objects w') (b, metadata_key)
      = Some {| Body := data; ContentType := u "application/json" |} /\
    (Pathlib.is_component (last_path_segment key) = true ->
     Pathlib.name key = last_path_segment key).
Proof.
  intros Hload Hbucket Hkey Hetag Hnew Hobj Hserved Himage Hexif Hdumps Henc
    metadata_key.
  assert (Hfield : or_ exif (PyDict []) = exif_field env image).
  { rewrite HandlerFacts.extract_exif_run in Hexif. unfold exif_field.
    destruct (exif_outcome env image) as [e|r];
      injection Hexif as <- _; reflexivity. }
  rewrite Hfield in Hdumps.
  destruct (HandlerFacts.process_record_write env record w message b key etag
              obj image text data Hload Hbucket Hkey Hetag Hnew Hobj Hserved
              Himage Hdumps Henc)
    as [w' [Hrun [Hobjs [Hcalls _]]]].
  exists w'. split; [exact Hrun|]. split; [exact Hcalls|].
  split; [exact Hobjs|]. split.
  - rewrite Hobjs. apply HandlerFacts.lookup_insert.
  - apply PathlibFacts.name_last_path_segment.
Qed.

Lemma document_written_witness :
  exists w',
    process_record Fixture.env Fixture.img1 Fixture.world = (ok tt, w') /\
    calls w' =
      [HeadObject (PyStr (u "b")) (PyStr (u "metadata/img1.jpg.json"));
       GetObject (PyStr (u "b")) (PyStr (u "photos/img1.jpg"));
       PutObject (PyStr (u "b")) (PyStr (u "metadata/img1.jpg.json"))
         Fixture.img1_text (u "application/json")] /\
    objects w' =
      objects Fixture.world ++
      [((u "b", u "metadata/img1.jpg.json"),
        {| Body := Fixture.img1_data; ContentType := u "application/json" |})] /\
    S3.lookup (objects w') (u "b", u "metadata/img1.jpg.json")
      = Some {| Body := Fixture.img1_data;
                ContentType := u "application/json" |} /\
    (Pathlib.is_component (last_path_segment (u "photos/img1.jpg")) = true ->
     Pathlib.name (u "photos/img1.jpg") = last_path_segment (u "photos/img1.jpg")).
Proof.
  apply (document_written Fixture.env Fixture.img1 Fixture.world
           (Fixture.message "b" "photos/img1.jpg" "abc")
           (u "b") (u "photos/img1.jpg") (PyStr (u "abc"))
           (Fixture.jpeg Fixture.jpeg_plain) Fixture.plain_image
           PyNone Fixture.world Fixture.img1_text Fixture.img1_data);
    vm_compute; reflexivity.
Defined.

(** C3, where the name is not the last path segment.  The key
    [photos/dir/] ends with a slash: its last path segment is empty and
    its name is [dir]; the key [photos/.] ends with a dot: its name is
    [photos].  For a message with the key [photos/dir/] the handler
    probes and writes [metadata/dir.json], and nothing is written under
    [metadata/.json], the prefix followed by the last path segment. *)
Lemma document_key_is_not_last_segment :
  last_path_segment (u "photos/dir/") = [] /\
  Pathlib.name (u "photos/dir/") = u "dir" /\
  last_path_segment (u "photos/.") = u "." /\
  Pathlib.name (u "photos/.") = u "photos" /\
  json_loads Samples.env (body Samples.folder)
    = ok (Fixture.message "b" "photos/dir/" "abc") /\
  fst (process_record Samples.env Samples.folder Samples.odd_world) = ok tt /\
  (exists text data,
      calls Samples.world_after_folder =
        [HeadObject (PyStr (u "b")) (PyStr (u "metadata/dir.json"));
         GetObject (PyStr (u "b")) (PyStr (u "photos/dir/"));
         PutObject (PyStr (u "b")) (PyStr (u "metadata/dir.json"))
           text (u "application/json")] /\
      Codec.encode_utf8 text = ok data /\
      S3.lookup (objects Samples.world_after_folder)
        (u "b", u "metadata/dir.json")
        = Some {| Body := data; ContentType := u "application/json" |}) /\
  S3.lookup (objects Samples.world_after_folder)
    (u "b",
     OUTPUT_PREFIX Samples.env ++ u "/"
       ++ last_path_segment (u "photos/dir/") ++ u ".json")
    = None.
Proof.
  repeat split; try (vm_compute; reflexivity).
  do 2 eexists. repeat split; vm_compute; reflexivity.
Qed.

(** C4.  [extract_exif] does not fail, whatever the image: it returns,
    and the [exif] field the handler derives from what it returns,
    [extract_exif(image) or {}], is a mapping.  When the image has no tag
    data ([_getexif()] gives [None] or an empty dictionary) the field is
    the empty mapping and nothing is printed.  When reading the tag data
    raises an error, in [_getexif()] or in the conversion of a value, the
    field is the empty mapping as well and the error is printed. *)
Theorem extract_exif_never_fails (env : Env) (image : Image) (w : World) :
  exists exif w',
    extract_exif env image w = (ok exif, w') /\
    (exists d, or_ exif (PyDict []) = PyDict d) /\
    (_getexif image = ok None \/ _getexif image = ok (Some []) ->
     or_ exif (PyDict []) = PyDict [] /\ w' = w) /\
    (forall e,
        _getexif image = raise e \/
        (exists items,
            _getexif image = ok (Some items) /\
            exif_items env items [] = raise e) ->
        or_ exif (PyDict []) = PyDict [] /\
        w' = with_stdout
               (stdout w ++ [u "Error extracting EXIF: " ++ exn_str e]) w).
Proof.
  rewrite HandlerFacts.extract_exif_run. unfold exif_outcome.
  destruct (_getexif image) as [e0|[[|item items]|]] eqn:Hraw; cbn [rbind].
  - (* [_getexif()] raises *)
    do 2 eexists. split; [reflexivity|].
    split; [exists []; reflexivity|]. split.
    + intros [H|H]; discriminate.
    + intros e [H|[items [H _]]]; [|discriminate].
      injection H as <-. split; reflexivity.
  - (* an empty dictionary *)
    do 2 eexists. split; [reflexivity|].
    split; [exists []; reflexivity|]. split.
    + intros _. split; reflexivity.
    + intros e [H|[items [H He]]]; [discriminate|].
      injection H as <-. discriminate.
  - (* some tag data *)
    unfold rmap, rbind.
    destruct (exif_items env (item :: items) []) as [e0|d] eqn:Hitems.
    + do 2 eexists. split; [reflexivity|].
      split; [exists []; reflexivity|]. split.
      * intros [H|H]; discriminate.
      * intros e [H|[items' [H He]]]; [discriminate|].
        injection H as <-. rewrite Hitems in He. injection He as <-.
        split; reflexivity.
    + do 2 eexists. split; [reflexivity|]. split.
      * unfold or_. destruct (truthy (PyDict d)); eauto.
      * split.
        -- intros [H|H]; discriminate.
        -- intros e [H|[items' [H He]]]; [discriminate|].
           injection H as <-. rewrite Hitems in He. discriminate.
  - (* [None] *)
    do 2 eexists. split; [reflexivity|].
    split; [exists []; reflexivity|]. split.
    + intros _. split; reflexivity.
    + intros e [H|[items [H _]]]; discriminate.
Qed.

Lemma extract_exif_never_fails_witness :
  (or_ PyNone (PyDict []) = PyDict [] /\ Fixture.world = Fixture.world) /\
  (or_ PyNone (PyDict []) = PyDict [] /\
   with_stdout [u "Error extracting EXIF: not a TIFF file"] Fixture.world
   = with_stdout
       (stdout Fixture.world ++
        [u "Error extracting EXIF: "
           ++ exn_str (PyError (u "SyntaxError") (u "not a TIFF file"))])
       Fixture.world).
Proof.
  split.
  - destruct (extract_exif_never_fails Fixture.env Fixture.plain_image
                Fixture.world) as [exif [w' [Hrun [_ [Hnone _]]]]].
    injection Hrun as <- <-.
    apply Hnone. left. reflexivity.
  - destruct (extract_exif_never_fails Fixture.env Fixture.damaged_image
                Fixture.world) as [exif [w' [Hrun [_ [_ Hfail]]]]].
    injection Hrun as <- <-.
    apply Hfail. left. reflexivity.
Defined.

(** C5.  [metadata_exists] returns [True] when the probe succeeds; it
    returns [False] when, and only when, the probe fails with a
    [ClientError] whose code is ["404"]; every other error of the probe
    leaves [metadata_exists] as it is. *)
Theorem metadata_exists_spec (bucket key : pyval) (w : World) :
  (forall w',
      S3.head_object bucket key w = (ok tt, w') ->
      metadata_exists bucket key w = (ok true, w')) /\
  (forall message operation w',
      S3.head_object bucket key w
        = (raise (ClientError (u "404") message operation), w') ->
      metadata_exists bucket key w = (ok false, w')) /\
  (forall e w',
      S3.head_object bucket key w = (raise e, w') ->
      (forall message operation,
          e <> ClientError (u "404") message operation) ->
      metadata_exists bucket key w = (raise e, w')) /\
  (forall w',
      metadata_exists bucket key w = (ok false, w') ->
      exists message operation,
        S3.head_object bucket key w
          = (raise (ClientError (u "404") message operation), w')).
Proof.
  rewrite HandlerFacts.metadata_exists_run.
  destruct (S3.head_object bucket key w) as [[e|[]] w0]; cbn [fst snd].
  - repeat split.
    + intros w' H; discriminate.
    + intros message operation w' H. injection H as -> ->. reflexivity.
    + intros e' w' H Hne. injection H as -> ->.
      destruct e' as [code message operation|cls message]; [|reflexivity].
      cbn. destruct (str_eqb code (u "404")) eqn:E; [|reflexivity].
      apply PyFacts.str_eqb_eq in E. subst code.
      exfalso. apply (Hne message operation). reflexivity.
    + intros w' H.
      destruct e as [code message operation|cls message]; [|discriminate].
      cbn in H. destruct (str_eqb code (u "404")) eqn:E; [|discriminate].
      apply PyFacts.str_eqb_eq in E. subst code. injection H as <-.
      eauto.
  - repeat split.
    + intros w' H. injection H as ->. reflexivity.
    + intros message operation w' H; discriminate.
    + intros e' w' H; discriminate.
    + intros w' H; discriminate.
Qed.

Lemma metadata_exists_spec_witness :
  metadata_exists (PyStr (u "b")) (PyStr (u "metadata/img1.jpg.json"))
    Fixture.world_after_img1
  = (ok true,
     snd (S3.head_object (PyStr (u "b")) (PyStr (u "metadata/img1.jpg.json"))
            Fixture.world_after_img1))
  /\
  metadata_exists (PyStr (u "b")) (PyStr (u "metadata/img1.jpg.json"))
    Fixture.world
  = (ok false,
     snd (S3.head_object (PyStr (u "b")) (PyStr (u "metadata/img1.jpg.json"))
            Fixture.world))
  /\
  metadata_exists (PyInt 7) (PyStr (u "metadata/img1.jpg.json")) Fixture.world
  = (raise (PyError (u "ParamValidationError")
                    (u "Parameter validation failed")),
     snd (S3.head_object (PyInt 7) (PyStr (u "metadata/img1.jpg.json"))
            Fixture.world)).
Proof.
  split; [|split].
  - apply (proj1 (metadata_exists_spec _ _ _)). vm_compute. reflexivity.
  - apply (proj1 (proj2 (metadata_exists_spec _ _ _))
             (u "Not Found") (u "HeadObject")).
    vm_compute. reflexivity.
  - apply (proj1 (proj2 (proj2 (metadata_exists_spec _ _ _)))).
    + vm_compute. reflexivity.
    + intros message operation; discriminate.
Defined.

(** C6.  On a byte string [convert_value] returns a string and does not
    raise; when the bytes are valid UTF-8, that string is their
    decoding. *)
Theorem convert_value_bytes_is_str (b : bytes) :
  (exists s, convert_value (PyBytes b) = ok (PyStr s)) /\
  (forall s,
      Codec.decode_utf8 Codec.Strict b = ok s ->
      convert_value (PyBytes b) = ok (PyStr s)).
Proof.
  rewrite NormalizerFacts.convert_value_bytes. unfold Codec.decode_utf8.
  split.
  - destruct (CodecFacts.utf8_ignore_total b 0%nat) as [r [-> _]].
    exists r. reflexivity.
  - intros s Hs. apply CodecFacts.utf8_strict_ignore in Hs.
    rewrite Hs. reflexivity.
Qed.

Lemma convert_value_bytes_is_str_witness :
  convert_value (PyBytes [Byte.xe2; Byte.x82; Byte.xac; Byte.x35])
  = ok (PyStr [8364; 53]).
Proof.
  apply (proj2 (convert_value_bytes_is_str
                  [Byte.xe2; Byte.x82; Byte.xac; Byte.x35])).
  vm_compute. reflexivity.
Defined.

(** C7.  [convert_value] keeps the shape of a value.  On a value whose
    rationals are those of EXIF data it returns, and the value returned
    has the same nesting of mappings and sequences, with the same keys
    in the same order and the same lengths; a mapping gives the mapping
    of the same keys to the converted values, and a sequence gives the
    sequence of the converted elements, in order. *)
Theorem convert_value_keeps_shape (v : pyval) :
  well_formed v = true ->
  (rationals_in_range v = true -> exists v', convert_value v = ok v') /\
  (forall v', convert_value v = ok v' -> shape_of v' = shape_of v) /\
  (forall d v',
      v = PyDict d -> convert_value v = ok v' ->
      exists d',
        v' = PyDict d' /\
        keys d' = keys d /\
        Forall2 (fun kv kv' =>
                   fst kv' = fst kv /\ convert_value (snd kv) = ok (snd kv'))
                d d') /\
  (forall l v',
      v = PyList l \/ v = PyTuple l -> convert_value v = ok v' ->
      exists l',
        v' = PyList l' /\
        List.length l' = List.length l /\
        Forall2 (fun x x' => convert_value x = ok x') l l').
Proof.
  intros Hwf. split; [|split; [|split]].
  - rewrite (NormalizerFacts.convert_value_normalize v Hwf).
    apply NormalizerFacts.normalize_total.
  - rewrite (NormalizerFacts.convert_value_normalize v Hwf).
    apply NormalizerFacts.normalize_shape.
  - intros d v' -> H. cbn [convert_value] in H.
    destruct (dict_comprehension convert_value d []) as [e|d'] eqn:Hd;
      [discriminate|].
    injection H as <-. exists d'. split; [reflexivity|].
    cbn [well_formed] in Hwf. apply andb_true_iff in Hwf as [Hkeys _].
    apply NormalizerFacts.dict_comprehension_Forall2 in Hd;
      [|apply NormalizerFacts.distinct_NoDup; exact Hkeys].
    destruct Hd as [items' [-> HF]]. cbn [app]. split; [|exact HF].
    clear -HF. induction HF as [|kv kv' d d' [Hk _] _ IH]; cbn;
      [reflexivity|]. rewrite Hk. f_equal. exact IH.
  - intros l v' Hv H.
    assert (Hl : rmap PyList (list_comprehension convert_value l) = ok v')
      by (destruct Hv as [-> | ->]; exact H).
    destruct (list_comprehension convert_value l) as [e|l'] eqn:El;
      [discriminate|].
    injection Hl as <-. exists l'. split; [reflexivity|].
    apply NormalizerFacts.list_comprehension_Forall2 in El.
    split; [symmetry; eapply Forall2_length; exact El | exact El].
Qed.

Lemma convert_value_keeps_shape_witness :
  let gps :=
    PyDict [ (KInt 1, PyStr (u "N"));
             (KInt 2, PyTuple [IFDRational 40 1; IFDRational 26 1;
                               IFDRational 4614 100]) ] in
  exists v',
    convert_value gps = ok v' /\
    shape_of v' = Mapping [(KInt 1, Leaf); (KInt 2, Sequence [Leaf; Leaf; Leaf])].
Proof.
  intros gps.
  destruct (convert_value_keeps_shape gps) as [Htotal [Hshape _]];
    [vm_compute; reflexivity|].
  destruct Htotal as [v' Hv']; [vm_compute; reflexivity|].
  exists v'. split; [exact Hv'|].
  rewrite (Hshape v' Hv'). reflexivity.
Defined.

(** C8.  [convert_value] turns a rational into the floating-point number
    [float] gives for it.  On the rationals of EXIF data (32-bit
    numerator and denominator) the conversion returns a float: the
    binary64 number nearest to the quotient when the denominator is not
    zero, and not-a-number when it is.  [IFDRational(1, 2)] becomes
    [0.5].  Inside mappings and sequences as well: what [convert_value]
    returns for a value is what the normalizer of the specification
    returns, which holds a float at the place of every rational and no
    rational any more. *)
Theorem rationals_become_floats :
  (forall n d,
      rational_in_range n d = true ->
      exists f,
        IFDRational_float n d = ok f /\
        convert_value (IFDRational n d) = ok (PyFloat f) /\
        (d = 0 -> f = S754_nan) /\
        (d <> 0 -> nearest_float n d f)) /\
  convert_value (IFDRational 1 2)
    = ok (PyFloat (S754_finite false 4503599627370496 (-53))) /\
  float_value (S754_finite false 4503599627370496 (-53))
    = Some (4503599627370496, 2 * 4503599627370496) /\
  (forall v v',
      well_formed v = true ->
      convert_value v = ok v' ->
      normalize v = ok v' /\ json_representable v' = true).
Proof.
  split; [|split; [|split]].
  - intros n d Hrange.
    destruct (Z.eq_dec d 0) as [Hd|Hd].
    + exists S754_nan. subst d. repeat split; try reflexivity.
      intros H; contradiction.
    + destruct (FloatFacts.IFDRational_float_nearest n d Hrange Hd)
        as [f [Hf Hnear]].
      exists f. split; [exact Hf|]. split.
      * cbn [convert_value]. rewrite Hf. reflexivity.
      * split; [intros H; contradiction | intros _; exact Hnear].
  - vm_compute. reflexivity.
  - vm_compute. reflexivity.
  - intros v v' Hwf Hv.
    rewrite (NormalizerFacts.convert_value_normalize v Hwf) in Hv.
    split; [exact Hv|].
    exact (NormalizerFacts.normalize_json_representable v v' Hv).
Qed.

Lemma rationals_become_floats_witness :
  (exists f,
      IFDRational_float 4614 100 = ok f /\
      convert_value (IFDRational 4614 100) = ok (PyFloat f) /\
      (100 = 0 -> f = S754_nan) /\
      (100 <> 0 -> nearest_float 4614 100 f)) /\
  normalize (PyTuple [IFDRational 1 2; PyInt 3])
    = ok (PyList [PyFloat (S754_finite false 4503599627370496 (-53)); PyInt 3]) /\
  json_representable
    (PyList [PyFloat (S754_finite false 4503599627370496 (-53)); PyInt 3])
    = true.
Proof.
  split.
  - apply (proj1 rationals_become_floats 4614 100). vm_compute. reflexivity.
  - apply (proj2 (proj2 (proj2 rationals_become_floats))
             (PyTuple [IFDRational 1 2; PyInt 3])).
    + vm_compute. reflexivity.
    + vm_compute. reflexivity.
Defined.

(** C9.  The UTF-8 decoding of [convert_value] ignores the errors and
    never raises, so the [except] branch of the byte-string case is never
    taken: the result is the lossy decoding of the bytes, and it is never
    their [str] representation, which is longer than any decoding. *)
Theorem bytes_fallback_unreachable (b : bytes) :
  (exists s,
      Codec.decode_utf8 Codec.Ignore b = ok s /\
      convert_value (PyBytes b) = ok (PyStr s)) /\
  convert_value (PyBytes b) <> ok (PyStr (Codec.bytes_str b)).
Proof.
  rewrite NormalizerFacts.convert_value_bytes. unfold Codec.decode_utf8.
  destruct (CodecFacts.utf8_ignore_total b 0%nat) as [r [-> Hlen]].
  split.
  - exists r. split; reflexivity.
  - intros H.
    assert (Hs : r = Codec.bytes_str b).
    { change (ok (PyStr r) = ok (PyStr (Codec.bytes_str b))) in H.
      congruence. }
    pose proof (CodecFacts.bytes_str_length b) as Hrepr.
    rewrite <- Hs in Hrepr. lia.
Qed.

(** C10.  The directories of a key do not count: two keys with the same
    name, [Path(key).name], have the same metadata key, that of the
    name; so do two keys with the same last path segment when that
    segment is neither empty nor a dot, since it is then their name.
    Hence, once a message is processed, its document is in the store, and
    a message for the same bucket whose key has the same name is skipped
    when its probe is served, and stopped by the fault when its probe
    meets one that is not the store's "not found"; either way the second
    message makes no call but its probe and leaves the store as it was:
    no document is written for it. *)
Theorem same_name_same_document (env : Env) :
  (forall dir1 dir2 file,
      ~ In 47 file -> Pathlib.is_component file = true ->
      metadata_key_of env (Pathlib.name (dir1 ++ u "/" ++ file))
        = OUTPUT_PREFIX env ++ u "/" ++ file ++ u ".json" /\
      metadata_key_of env (Pathlib.name (dir2 ++ u "/" ++ file))
        = metadata_key_of env (Pathlib.name (dir1 ++ u "/" ++ file))) /\
  (forall first second w w1 message1 message2 b key1 key2,
      json_loads env (body first) = ok message1 ->
      getitem message1 (u "bucket") = ok (PyStr b) ->
      getitem message1 (u "key") = ok (PyStr key1) ->
      json_loads env (body second) = ok message2 ->
      getitem message2 (u "bucket") = ok (PyStr b) ->
      getitem message2 (u "key") = ok (PyStr key2) ->
      Pathlib.name key1 = Pathlib.name key2 ->
      process_record env first w = (ok tt, w1) ->
      let metadata_key := metadata_key_of env (Pathlib.name key1) in
      (exists obj, S3.lookup (objects w1) (b, metadata_key) = Some obj) /\
      (forall w2,
          S3.lookup (objects w2) (b, metadata_key)
            = S3.lookup (objects w1) (b, metadata_key) ->
          (served (faults w2) = ok tt ->
           exists w3,
             process_record env second w2 = (ok tt, w3) /\
             objects w3 = objects w2 /\
             calls w3 =
               calls w2 ++ [HeadObject (PyStr b) (PyStr metadata_key)]) /\
          (forall e,
              served (faults w2) = raise e ->
              is_not_found e = false ->
              exists w3,
                process_record env second w2 = (raise e, w3) /\
                objects w3 = objects w2 /\
                calls w3 =
                  calls w2 ++ [HeadObject (PyStr b) (PyStr metadata_key)]))).
Proof.
  split.
  - intros dir1 dir2 file Hfile Hcomp.
    rewrite !(PathlibFacts.name_dir _ _ Hfile Hcomp). split; reflexivity.
  - intros first second w w1 message1 message2 b key1 key2
      Hload1 Hbucket1 Hkey1 Hload2 Hbucket2 Hkey2 Hname Hfirst metadata_key.
    destruct (HandlerFacts.process_record_document_exists env first w w1 _ _ _
                Hload1 Hbucket1 Hkey1 Hfirst) as [obj Hobj].
    split; [exists obj; exact Hobj|].
    intros w2 Hstill. subst metadata_key. rewrite Hobj in Hstill.
    rewrite Hname in *. split.
    + intros Hserved.
      destruct (HandlerFacts.process_record_present env second w2 _ _ _ _
                  Hload2 Hbucket2 Hkey2 Hstill Hserved)
        as [w3 [Hrun [Hobjs [Hcalls _]]]].
      exists w3. auto.
    + intros e Hserved Hnf.
      exact (HandlerFacts.process_record_probe_fault env second w2 _ _ _ _
               Hload2 Hbucket2 Hkey2 Hserved Hnf).
Qed.

Lemma same_name_same_document_witness :
  (metadata_key_of Fixture.env (Pathlib.name (u "photos" ++ u "/" ++ u "img1.jpg"))
     = u "metadata" ++ u "/" ++ u "img1.jpg" ++ u ".json" /\
   metadata_key_of Fixture.env (Pathlib.name (u "backup" ++ u "/" ++ u "img1.jpg"))
     = metadata_key_of Fixture.env
         (Pathlib.name (u "photos" ++ u "/" ++ u "img1.jpg"))) /\
  (exists w3,
      process_record Fixture.env Fixture.img1_copy Fixture.world_after_img1
        = (ok tt, w3) /\
      objects w3 = objects Fixture.world_after_img1 /\
      calls w3 =
        calls Fixture.world_after_img1 ++
        [HeadObject (PyStr (u "b"))
           (PyStr (metadata_key_of Fixture.env
                     (Pathlib.name (u "photos/img1.jpg"))))]).
Proof.
  split.
  - apply (proj1 (same_name_same_document Fixture.env)
             (u "photos") (u "backup") (u "img1.jpg")).
    + vm_compute. intros H.
      repeat (destruct H as [H|H]; [discriminate|]). exact H.
    + vm_compute. reflexivity.
  - destruct (proj2 (same_name_same_document Fixture.env)
                Fixture.img1 Fixture.img1_copy Fixture.world
                Fixture.world_after_img1
                (Fixture.message "b" "photos/img1.jpg" "abc")
                (Fixture.message "b" "backup/img1.jpg" "abc")
                (u "b") (u "photos/img1.jpg") (u "backup/img1.jpg"))
      as [_ Hsecond]; try (vm_compute; reflexivity).
    apply (Hsecond Fixture.world_after_img1); reflexivity.
Defined.

(** C10, where the same last path segment is not the same name.  The
    keys [a/.] and [b/.] have the same last path segment, a dot, and the
    names [a] and [b]: their metadata keys differ.  In a batch of the
    two, the second message is not skipped: the handler returns after
    six calls, a probe, a fetch and a write for each message, and the
    store holds a document for each. *)
Lemma same_segment_two_documents :
  last_path_segment (u "a/.") = last_path_segment (u "b/.") /\
  metadata_key_of Samples.env (Pathlib.name (u "a/.")) = u "metadata/a.json" /\
  metadata_key_of Samples.env (Pathlib.name (u "b/.")) = u "metadata/b.json" /\
  json_loads Samples.env (body Samples.dot_a)
    = ok (Fixture.message "b" "a/." "abc") /\
  json_loads Samples.env (body Samples.dot_b)
    = ok (Fixture.message "b" "b/." "abc") /\
  fst (lambda_handler Samples.env Samples.dots Samples.odd_world)
    = ok (PyDict [(KStr (u "statusCode"), PyInt 200)]) /\
  (exists text_a text_b,
      calls Samples.world_after_dots =
        [HeadObject (PyStr (u "b")) (PyStr (u "metadata/a.json"));
         GetObject (PyStr (u "b")) (PyStr (u "a/."));
         PutObject (PyStr (u "b")) (PyStr (u "metadata/a.json"))
           text_a (u "application/json");
         HeadObject (PyStr (u "b")) (PyStr (u "metadata/b.json"));
         GetObject (PyStr (u "b")) (PyStr (u "b/."));
         PutObject (PyStr (u "b")) (PyStr (u "metadata/b.json"))
           text_b (u "application/json")]) /\
  (exists document_a document_b,
      S3.lookup (objects Samples.world_after_dots) (u "b", u "metadata/a.json")
        = Some document_a /\
      S3.lookup (objects Samples.world_after_dots) (u "b", u "metadata/b.json")
        = Some document_b) /\
  S3.lookup (objects Samples.odd_world) (u "b", u "metadata/b.json") = None.
Proof.
  repeat split; try (vm_compute; reflexivity).
  - do 2 eexists. vm_compute. reflexivity.
  - do 2 eexists. split; vm_compute; reflexivity.
Qed.

(* ===================================================================== *)
(** * Further properties of the handler *)
(* ===================================================================== *)

Import Behaviour.

(** X1.  A message that cannot be read is refused before anything
    happens: when the body is not JSON, when the message has no
    [bucket] or no [key], or when the key is not a string, the record
    raises that error with no call to the store and nothing printed, and
    the handler prints its two lines and raises it.  A JSON object
    without [bucket] (or, with a bucket, without [key]) is refused with a
    [KeyError] that names the field. *)
Theorem unreadable_message_makes_no_call (env : Env) record w :
  (forall e,
      json_loads env (body record) = raise e \/
      (exists message,
          json_loads env (body record) = ok message /\
          (getitem message (u "bucket") = raise e \/
           exists bucket,
             getitem message (u "bucket") = ok bucket /\
             (getitem message (u "key") = raise e \/
              exists key,
                getitem message (u "key") = ok key /\
                Pathlib.Path_name key = raise e))) ->
      process_record env record w = (raise e, w) /\
      forall after,
        exists w',
          lambda_handler env {| Records := record :: after |} w
            = (raise e, w') /\
          calls w' = calls w /\ objects w' = objects w /\
          stdout w' = stdout w ++ [u "Failed processing message"; exn_str e])
  /\
  (forall d field,
      json_loads env (body record) = ok (PyDict d) ->
      (field = u "bucket" /\ dict_get d (KStr (u "bucket")) = None) \/
      (field = u "key" /\ dict_get d (KStr (u "bucket")) <> None /\
       dict_get d (KStr (u "key")) = None) ->
      process_record env record w
        = (raise (PyError (u "KeyError") (u "'" ++ field ++ u "'")), w)).
Proof.
  assert (Hfail : forall e,
             json_loads env (body record) = raise e \/
             (exists message,
                 json_loads env (body record) = ok message /\
                 (getitem message (u "bucket") = raise e \/
                  exists bucket,
                    getitem message (u "bucket") = ok bucket /\
                    (getitem message (u "key") = raise e \/
                     exists key,
                       getitem message (u "key") = ok key /\
                       Pathlib.Path_name key = raise e))) ->
             process_record env record w = (raise e, w)).
  { intros e H. unfold process_record, bind at 1 2 3 4 5, lift.
    destruct H as [H|[message [Hload H]]]; [rewrite H; reflexivity|].
    rewrite Hload; cbv beta iota.
    destruct H as [H|[bucket [Hbucket H]]]; [rewrite H; reflexivity|].
    rewrite Hbucket; cbv beta iota.
    destruct H as [H|[key [Hkey H]]]; [rewrite H; reflexivity|].
    rewrite Hkey; cbv beta iota.
    destruct (HandlerFacts.get_after_getitem _ _ (u "etag") _ Hbucket)
      as [etag Hetag].
    rewrite Hetag; cbv beta iota. rewrite H. reflexivity. }
  split.
  - intros e H. specialize (Hfail e H). split; [exact Hfail|].
    intros after. unfold lambda_handler, bind. cbn [Records].
    rewrite HandlerFacts.process_records_cons, Hfail.
    eexists. split; [reflexivity|]. cbn. auto.
  - intros d field Hload H. apply Hfail. right.
    exists (PyDict d). split; [exact Hload|].
    destruct H as [[-> Hb]|[-> [Hb Hk]]].
    + left. cbn [getitem]. rewrite Hb. reflexivity.
    + right. cbn [getitem].
      destruct (dict_get d (KStr (u "bucket"))) as [bucket|]; [|contradiction].
      exists bucket. split; [reflexivity|]. left. rewrite Hk. reflexivity.
Qed.

Lemma unreadable_message_makes_no_call_witness :
  process_record Samples.env Samples.garbage Fixture.world
    = (raise (PyError (u "JSONDecodeError") (u "Expecting value")),
       Fixture.world) /\
  process_record Samples.env Samples.empty_object Fixture.world
    = (raise (PyError (u "KeyError") (u "'" ++ u "bucket" ++ u "'")),
       Fixture.world).
Proof.
  split.
  - apply (proj1 (unreadable_message_makes_no_call Samples.env Samples.garbage
                    Fixture.world)).
    left. vm_compute. reflexivity.
  - apply (proj2 (unreadable_message_makes_no_call Samples.env
                    Samples.empty_object Fixture.world) []).
    + vm_compute. reflexivity.
    + left. split; reflexivity.
Defined.

(** X2.  The calls of a record are, in this order, the probe of its
    metadata key, the fetch of its source key and the write of its
    document, or a beginning of that sequence: never a fetch without the
    probe before it, never a write without the fetch, never two writes.
    A record that returns made either the probe alone or all three; one
    that made none, or stopped after the fetch, raised. *)
Theorem record_calls_in_order (env : Env) record w r w' :
  process_record env record w = (r, w') ->
  exists bucket key text made,
    let metadata_key := PyStr (metadata_key_of env (Pathlib.name key)) in
    let probe := HeadObject bucket metadata_key in
    let fetch := GetObject bucket (PyStr key) in
    let write := PutObject bucket metadata_key text (u "application/json") in
    calls w' = calls w ++ made /\
    (made = [] \/ made = [probe] \/ made = [probe; fetch] \/
     made = [probe; fetch; write]) /\
    (r = ok tt -> made = [probe] \/ made = [probe; fetch; write]) /\
    (made = [] \/ made = [probe; fetch] -> exists e, r = raise e).
Proof.
  intros Hrun.
  destruct (EffectFacts.process_record_cases env record w)
    as [[e [Hfail _]]|[message [bucket [key [Hload [Hbucket Hkey]]]]]].
  - rewrite Hfail in Hrun. injection Hrun as <- <-.
    exists PyNone, [], [], []. cbn zeta. rewrite app_nil_r.
    split; [reflexivity|]. split; [auto|]. split; [discriminate|]. eauto.
  - destruct (EffectFacts.process_record_effect env record w r w' _ _ _
                Hload Hbucket Hkey Hrun)
      as [[Hc _]|[[Hc [_ [e He]]]|[text [Hc _]]]].
    + exists bucket, key, []. eexists. cbn zeta. split; [exact Hc|].
      split; [auto|]. split; [auto|].
      intros [H|H]; discriminate.
    + exists bucket, key, []. eexists. cbn zeta. split; [exact Hc|].
      split; [auto|]. split; [subst r; discriminate|]. eauto.
    + exists bucket, key, text. eexists. cbn zeta. split; [exact Hc|].
      split; [auto|]. split; [auto|].
      intros [H|H]; discriminate.
Qed.

Lemma record_calls_in_order_witness :
  exists bucket key text made,
    let metadata_key :=
      PyStr (metadata_key_of Fixture.env (Pathlib.name key)) in
    let probe := HeadObject bucket metadata_key in
    let fetch := GetObject bucket (PyStr key) in
    let write := PutObject bucket metadata_key text (u "application/json") in
    calls (snd (process_record Fixture.env Fixture.img2 Fixture.world))
      = calls Fixture.world ++ made /\
    (made = [] \/ made = [probe] \/ made = [probe; fetch] \/
     made = [probe; fetch; write]) /\
    (fst (process_record Fixture.env Fixture.img2 Fixture.world) = ok tt ->
     made = [probe] \/ made = [probe; fetch; write]) /\
    (made = [] \/ made = [probe; fetch] ->
     exists e,
       fst (process_record Fixture.env Fixture.img2 Fixture.world) = raise e).
Proof.
  apply (record_calls_in_order Fixture.env Fixture.img2 Fixture.world).
  apply surjective_pairing.
Defined.

(** X3.  A record changes the store by at most one object: when it
    raises, the store is as it was; when it returns, the store is as it
    was or has gained, under the metadata key of the message and with
    the content type [application/json], the one document. *)
Theorem record_writes_one_document_or_nothing (env : Env) record w r w' :
  process_record env record w = (r, w') ->
  (forall e, r = raise e -> objects w' = objects w) /\
  (objects w' = objects w \/
   exists message b key data,
     r = ok tt /\
     json_loads env (body record) = ok message /\
     getitem message (u "bucket") = ok (PyStr b) /\
     getitem message (u "key") = ok (PyStr key) /\
     objects w' =
       S3.insert (objects w) (b, metadata_key_of env (Pathlib.name key))
         {| Body := data; ContentType := u "application/json" |}).
Proof.
  intros Hrun.
  destruct (EffectFacts.process_record_cases env record w)
    as [[e [Hfail _]]|[message [bucket [key [Hload [Hbucket Hkey]]]]]].
  - rewrite Hfail in Hrun. injection Hrun as <- <-. auto.
  - destruct (EffectFacts.process_record_effect env record w r w' _ _ _
                Hload Hbucket Hkey Hrun)
      as [[_ Ho]|[[_ [Ho _]]|[text [_ [[e [He Ho]]|[Hr [b [data [Hb [_ Ho]]]]]]]]]].
    + auto.
    + auto.
    + auto.
    + split; [intros e He; subst r; discriminate|]. right.
      subst bucket. exists message, b, key, data. auto.
Qed.

Lemma record_writes_one_document_or_nothing_witness :
  (forall e,
      fst (process_record Fixture.env Fixture.img2 Fixture.world) = raise e ->
      objects (snd (process_record Fixture.env Fixture.img2 Fixture.world))
        = objects Fixture.world) /\
  (objects (snd (process_record Fixture.env Fixture.img1 Fixture.world))
     = objects Fixture.world \/
   exists message b key data,
     fst (process_record Fixture.env Fixture.img1 Fixture.world) = ok tt /\
     json_loads Fixture.env (body Fixture.img1) = ok message /\
     getitem message (u "bucket") = ok (PyStr b) /\
     getitem message (u "key") = ok (PyStr key) /\
     objects (snd (process_record Fixture.env Fixture.img1 Fixture.world)) =
       S3.insert (objects Fixture.world)
         (b, metadata_key_of Fixture.env (Pathlib.name key))
         {| Body := data; ContentType := u "application/json" |}).
Proof.
  split.
  - apply (proj1 (record_writes_one_document_or_nothing Fixture.env
                    Fixture.img2 Fixture.world _ _ (surjective_pairing _))).
  - apply (proj2 (record_writes_one_document_or_nothing Fixture.env
                    Fixture.img1 Fixture.world _ _ (surjective_pairing _))).
Defined.

(** X4.  The handler removes nothing from the store and changes no
    object but metadata documents: whatever the batch, and whether the
    handler returns or raises, an object that was in the store is still
    there, and an object whose key is not a metadata key (the output
    prefix, a slash, a name and [".json"]) is as it was. *)
Theorem handler_touches_only_documents (env : Env) event w r w' :
  lambda_handler env event w = (r, w') ->
  (forall bk o,
      S3.lookup (objects w) bk = Some o ->
      exists o', S3.lookup (objects w') bk = Some o') /\
  (forall bk,
      (forall filename, snd bk <> metadata_key_of env filename) ->
      S3.lookup (objects w') bk = S3.lookup (objects w) bk).
Proof.
  unfold lambda_handler, bind, ret.
  destruct (process_records env (Records event) w) as [[e|[]] w1] eqn:Hrun;
    intros H; injection H as <- <-.
  - split.
    + intros bk o.
      exact (EffectFacts.process_records_lookup_some env _ bk _ _ _ _ Hrun).
    + intros bk Hbk.
      exact (EffectFacts.process_records_lookup_other env _ bk Hbk _ _ _ Hrun).
  - split.
    + intros bk o.
      exact (EffectFacts.process_records_lookup_some env _ bk _ _ _ _ Hrun).
    + intros bk Hbk.
      exact (EffectFacts.process_records_lookup_other env _ bk Hbk _ _ _ Hrun).
Qed.

Lemma handler_touches_only_documents_witness :
  (exists o',
      S3.lookup (objects Samples.world_after_batch) (u "b", u "photos/img3.jpg")
      = Some o') /\
  S3.lookup (objects Samples.world_after_batch) (u "b", u "photos/img1.jpg")
  = S3.lookup (objects Fixture.world) (u "b", u "photos/img1.jpg").
Proof.
  destruct (handler_touches_only_documents Fixture.env Samples.batch
              Fixture.world _ _ (surjective_pairing _)) as [Hkeep Hsame].
  split.
  - apply (Hkeep (u "b", u "photos/img3.jpg") (Fixture.jpeg Fixture.jpeg_tagged)).
    reflexivity.
  - apply (Hsame (u "b", u "photos/img1.jpg")).
    intros filename H. cbn [snd] in H.
    apply (f_equal (fun s => last s 0)) in H.
    unfold metadata_key_of in H.
    change (u ".json") with (u ".jso" ++ [110]) in H.
    rewrite !app_assoc, last_last in H.
    vm_compute in H. discriminate.
Defined.

(** X5.  A record never overwrites the object it reads: the metadata key
    of a message differs from its source key, so after the record, in
    the bucket of the message and in every other, the object under the
    source key is the one that was there. *)
Theorem source_object_is_kept (env : Env) record w r w' message key :
  json_loads env (body record) = ok message ->
  getitem message (u "key") = ok (PyStr key) ->
  process_record env record w = (r, w') ->
  metadata_key_of env (Pathlib.name key) <> key /\
  forall b, S3.lookup (objects w') (b, key) = S3.lookup (objects w) (b, key).
Proof.
  intros Hload Hkey Hrun.
  split; [apply PathlibMore.metadata_key_neq|].
  intros b.
  destruct (EffectFacts.process_record_cases env record w)
    as [[e [Hfail _]]|[message' [bucket [key' [Hload' [Hbucket Hkey']]]]]].
  - rewrite Hfail in Hrun. injection Hrun as _ <-. reflexivity.
  - rewrite Hload in Hload'. injection Hload' as <-.
    rewrite Hkey in Hkey'. injection Hkey' as <-.
    destruct (EffectFacts.process_record_effect env record w r w' _ _ _
                Hload Hbucket Hkey Hrun)
      as [[_ ->]|[[_ [-> _]]|[text [_ [[e [_ ->]]|[_ [b' [data [_ [_ ->]]]]]]]]]];
      try reflexivity.
    apply EffectFacts.lookup_insert_other. intros H. injection H as _ H.
    exact (PathlibMore.metadata_key_neq env key H).
Qed.

Lemma source_object_is_kept_witness :
  metadata_key_of Fixture.env (Pathlib.name (u "photos/img1.jpg"))
    <> u "photos/img1.jpg" /\
  forall b,
    S3.lookup (objects Fixture.world_after_img1) (b, u "photos/img1.jpg")
    = S3.lookup (objects Fixture.world) (b, u "photos/img1.jpg").
Proof.
  apply (source_object_is_kept Fixture.env Fixture.img1 Fixture.world
           (fst (process_record Fixture.env Fixture.img1 Fixture.world))
           Fixture.world_after_img1
           (Fixture.message "b" "photos/img1.jpg" "abc")
           (u "photos/img1.jpg")).
  - vm_compute. reflexivity.
  - vm_compute. reflexivity.
  - apply surjective_pairing.
Defined.

(** X6.  When the handler returns, it returns the status 200 and every
    message of the batch has been read and has its metadata document in
    the store. *)
Theorem returned_batch_is_documented (env : Env) event w v w' :
  lambda_handler env event w = (ok v, w') ->
  v = PyDict [(KStr (u "statusCode"), PyInt 200)] /\
  Forall (fun record =>
            exists message b key obj,
              json_loads env (body record) = ok message /\
              getitem message (u "bucket") = ok (PyStr b) /\
              getitem message (u "key") = ok (PyStr key) /\
              S3.lookup (objects w')
                (b, metadata_key_of env (Pathlib.name key)) = Some obj)
         (Records event).
Proof.
  unfold lambda_handler, bind, ret.
  destruct (process_records env (Records event) w) as [[e|[]] w1] eqn:Hrun;
    [discriminate|].
  intros H; injection H as <- <-. split; [reflexivity|].
  exact (EffectFacts.process_records_ok_documents env _ _ _ Hrun).
Qed.

Lemma returned_batch_is_documented_witness :
  Forall (fun record =>
            exists message b key obj,
              json_loads Fixture.env (body record) = ok message /\
              getitem message (u "bucket") = ok (PyStr b) /\
              getitem message (u "key") = ok (PyStr key) /\
              S3.lookup (objects Samples.world_after_batch)
                (b, metadata_key_of Fixture.env (Pathlib.name key)) = Some obj)
         [Fixture.img1; Fixture.img1_copy].
Proof.
  apply (proj2 (returned_batch_is_documented Fixture.env Samples.batch
                  Fixture.world
                  (PyDict [(KStr (u "statusCode"), PyInt 200)])
                  Samples.world_after_batch
                  ltac:(vm_compute; reflexivity))).
Defined.

(** X7.  Redelivery is harmless.  When the handler has returned for a
    batch, and the same batch comes again to a store that has lost none
    of its objects, with no fault on the way, the handler returns again,
    having made one probe per message and nothing else: no fetch, no
    write, and the store is unchanged. *)
Theorem redelivery_only_probes (env : Env) event w v w1 :
  lambda_handler env event w = (ok v, w1) ->
  forall w2,
    (forall bk o,
        S3.lookup (objects w1) bk = Some o ->
        exists o', S3.lookup (objects w2) bk = Some o') ->
    faults w2 = [] ->
    exists w3 probes,
      lambda_handler env event w2
        = (ok (PyDict [(KStr (u "statusCode"), PyInt 200)]), w3) /\
      objects w3 = objects w2 /\
      calls w3 = calls w2 ++ probes /\
      List.length probes = List.length (Records event) /\
      forallb is_probe probes = true.
Proof.
  unfold lambda_handler, bind, ret.
  destruct (process_records env (Records event) w) as [[e|[]] w0] eqn:Hrun;
    [discriminate|].
  intros H; injection H as _ <-. intros w2 Hkept Hfaults.
  pose proof (EffectFacts.process_records_ok_documents env _ _ _ Hrun) as Hdocs.
  assert (Hdocs2 : Forall (documented env (objects w2)) (Records event)).
  { apply Forall_forall. intros record Hin.
    rewrite Forall_forall in Hdocs.
    destruct (Hdocs record Hin)
      as [message [b [key [obj [Hload [Hbucket [Hkey Hobj]]]]]]].
    destruct (Hkept _ _ Hobj) as [obj' Hobj'].
    exists message, b, key, obj'. auto. }
  destruct (EffectFacts.process_records_documented env _ w2 Hdocs2 Hfaults)
    as [w3 [probes [Hrun2 [Hobjs [_ [Hcalls [Hlen Hprobes]]]]]]].
  exists w3, probes. rewrite Hrun2. auto.
Qed.

Lemma redelivery_only_probes_witness :
  exists w3 probes,
    lambda_handler Fixture.env Samples.batch Samples.world_after_batch
      = (ok (PyDict [(KStr (u "statusCode"), PyInt 200)]), w3) /\
    objects w3 = objects Samples.world_after_batch /\
    calls w3 = calls Samples.world_after_batch ++ probes /\
    List.length probes = List.length (Records Samples.batch) /\
    forallb is_probe probes = true.
Proof.
  apply (redelivery_only_probes Fixture.env Samples.batch Fixture.world
           (PyDict [(KStr (u "statusCode"), PyInt 200)])
           Samples.world_after_batch).
  - vm_compute. reflexivity.
  - intros bk o H. exists o. exact H.
  - reflexivity.
Defined.

(** X8.  The existence check only looks: whatever it answers, and also
    when it raises, [metadata_exists] has made one call, the probe of
    the key it was given, and has left the store and the output as they
    were. *)
Theorem metadata_exists_only_probes (bucket key : pyval) (w w' : World) r :
  metadata_exists bucket key w = (r, w') ->
  calls w' = calls w ++ [HeadObject bucket key] /\
  objects w' = objects w /\
  stdout w' = stdout w /\
  ticks w' = ticks w.
Proof.
  intros H.
  destruct (HandlerFacts.metadata_exists_frame bucket key w w' r H)
    as [Hc [Ho [Hs [_ Ht]]]].
  auto.
Qed.

Lemma metadata_exists_only_probes_witness :
  calls (snd (metadata_exists (PyInt 7) PyNone Fixture.world))
    = calls Fixture.world ++ [HeadObject (PyInt 7) PyNone] /\
  objects (snd (metadata_exists (PyInt 7) PyNone Fixture.world))
    = objects Fixture.world /\
  stdout (snd (metadata_exists (PyInt 7) PyNone Fixture.world))
    = stdout Fixture.world /\
  ticks (snd (metadata_exists (PyInt 7) PyNone Fixture.world))
    = ticks Fixture.world.
Proof.
  apply (metadata_exists_only_probes (PyInt 7) PyNone Fixture.world _
           (fst (metadata_exists (PyInt 7) PyNone Fixture.world))).
  apply surjective_pairing.
Defined.

(** X9.  The [exif] field of a document, [extract_exif(image) or {}], is
    always a mapping ready to be serialized: its keys are distinct, and
    its values hold no rational, no byte string and no tuple, at any
    depth.  When it is not empty it is what [extract_exif] returned, and
    it has at most one entry per tag of the image. *)
Theorem exif_field_is_json_mapping (env : Env) image w exif w' :
  extract_exif env image w = (ok exif, w') ->
  exists d,
    or_ exif (PyDict []) = PyDict d /\
    distinct (keys d) = true /\
    Forall (fun v => well_formed v = true /\ json_representable v = true)
           (values d) /\
    (d <> [] ->
     exif = PyDict d /\
     exists items,
       _getexif image = ok (Some items) /\
       (1 <= List.length d <= List.length items)%nat).
Proof.
  rewrite HandlerFacts.extract_exif_run. unfold exif_outcome.
  assert (Hempty : exists d : dict,
             PyDict [] = PyDict d /\
             distinct (keys d) = true /\
             Forall (fun v => well_formed v = true /\
                              json_representable v = true) (values d) /\
             (d <> [] ->
              exif = PyDict d /\
              exists items,
                _getexif image = ok (Some items) /\
                (1 <= List.length d <= List.length items)%nat)).
  { exists []. split; [reflexivity|]. split; [reflexivity|].
    split; [constructor|]. intros H; contradiction. }
  destruct (_getexif image) as [e|[[|[tag_id value] items]|]] eqn:Hraw;
    cbn [rbind]; try (intros H; injection H as <- _; exact Hempty).
  unfold rmap, rbind.
  destruct (exif_items env ((tag_id, value) :: items) []) as [e|d] eqn:Hitems;
    [intros H; injection H as <- _; exact Hempty|].
  intros H; injection H as <- _. clear Hempty.
  rewrite ExifFacts.exif_items_cons in Hitems.
  destruct (convert_value value) as [e|v] eqn:Ev; cbn [rbind] in Hitems;
    [discriminate|].
  destruct (ExifFacts.exif_items_invariant env
              (fun x => well_formed x = true /\ json_representable x = true)
              items (fun x x' Hx => NormalizerMore.convert_value_output x x' Hx)
              _ d Hitems)
    as [Hkeys [Hvals Hlen]].
  { reflexivity. }
  { constructor; [|constructor].
    exact (NormalizerMore.convert_value_output _ _ Ev). }
  cbn [dict_set List.length] in Hlen.
  exists d. split.
  - destruct d; [cbn in Hlen; lia | reflexivity].
  - split; [exact Hkeys|]. split; [exact Hvals|].
    intros _. split; [reflexivity|].
    exists ((tag_id, value) :: items). split; [reflexivity|].
    cbn [List.length]. lia.
Qed.

Lemma exif_field_is_json_mapping_witness :
  exists d,
    or_ (Samples.tagged_exif) (PyDict []) = PyDict d /\
    distinct (keys d) = true /\
    Forall (fun v => well_formed v = true /\ json_representable v = true)
           (values d) /\
    (d <> [] ->
     Samples.tagged_exif = PyDict d /\
     exists items,
       _getexif Fixture.tagged_image = ok (Some items) /\
       (1 <= List.length d <= List.length items)%nat).
Proof.
  apply (exif_field_is_json_mapping Fixture.env Fixture.tagged_image
           Fixture.world _
           (snd (extract_exif Fixture.env Fixture.tagged_image Fixture.world))).
  vm_compute. reflexivity.
Defined.

(** X10.  Each entry of the tag data [extract_exif] returns comes from
    the last item of [_getexif()] filed under its key: the key is the
    name of the tag, or its number when the tag has no name, and the
    value is the converted value of the last item with that key.  A key
    under which no item is filed is not in the mapping. *)
Theorem exif_entry_is_last_of_its_tag (env : Env) image w d w' :
  extract_exif env image w = (ok (PyDict d), w') ->
  exists items,
    _getexif image = ok (Some items) /\
    forall k,
      match last_tagged env k items with
      | Some value =>
          exists v', convert_value value = ok v' /\ dict_get d k = Some v'
      | None => dict_get d k = None
      end.
Proof.
  rewrite HandlerFacts.extract_exif_run. unfold exif_outcome.
  destruct (_getexif image) as [e|[[|item items]|]] eqn:Hraw;
    cbn [rbind]; try discriminate.
  unfold rmap, rbind.
  destruct (exif_items env (item :: items) []) as [e|d'] eqn:Hitems;
    [discriminate|].
  intros H; injection H as <- _.
  exists (item :: items). split; [reflexivity|].
  intros k. exact (ExifFacts.exif_items_get env (item :: items) [] d' k Hitems).
Qed.

Lemma exif_entry_is_last_of_its_tag_witness :
  exists items,
    _getexif Fixture.tagged_image = ok (Some items) /\
    forall k,
      match last_tagged Fixture.env k items with
      | Some value =>
          exists v',
            convert_value value = ok v' /\
            dict_get Samples.tagged_entries k = Some v'
      | None => dict_get Samples.tagged_entries k = None
      end.
Proof.
  apply (exif_entry_is_last_of_its_tag Fixture.env Fixture.tagged_image
           Fixture.world _
           (snd (extract_exif Fixture.env Fixture.tagged_image Fixture.world))).
  vm_compute. reflexivity.
Defined.

(** X11.  What [convert_value] returns is settled: whatever the value it
    was given, the value it returns holds no rational, no byte string
    and no tuple at any depth, each of its mappings holds each key once,
    and converting it again returns it unchanged. *)
Theorem convert_value_settles (v v' : pyval) :
  convert_value v = ok v' ->
  well_formed v' = true /\
  json_representable v' = true /\
  convert_value v' = ok v'.
Proof.
  intros H.
  destruct (NormalizerMore.convert_value_output v v' H) as [Hwf Hjson].
  split; [exact Hwf|]. split; [exact Hjson|].
  exact (NormalizerMore.convert_value_fixed v v' H).
Qed.

Lemma convert_value_settles_witness :
  well_formed (PyDict Samples.tagged_entries) = true /\
  json_representable (PyDict Samples.tagged_entries) = true /\
  convert_value (PyDict Samples.tagged_entries)
    = ok (PyDict Samples.tagged_entries).
Proof.
  apply (convert_value_settles
           (PyDict [ (KStr (u "MakerNote"), PyBytes [Byte.x4e; Byte.xff; Byte.x6b]);
                     (KStr (u "ExposureTime"), IFDRational 1 2);
                     (KStr (u "GPSInfo"),
                      PyDict [ (KInt 1, PyStr (u "N"));
                               (KInt 2, PyTuple [IFDRational 40 1;
                                                 IFDRational 26 1;
                                                 IFDRational 4614 100]) ]) ])).
  vm_compute. reflexivity.
Defined.

(** X12.  On a value that nests its mappings and sequences no deeper
    than the interpreter lets [convert_value] call itself (a hundred
    levels here, where the tag data of an image has three), the only
    error of [convert_value] is the overflow of a division: it raises
    exactly when the value holds, at some level, a rational with a
    denominator other than zero whose quotient is too large for a float,
    and what it raises is then the [OverflowError] of that division.
    Such a value without such a rational is converted.  Deeper values
    are left out: there the interpreter may stop the recursion with an
    error of its own. *)
Theorem convert_value_raises_on_overflow_only (v : pyval) (e : exn) :
  (depth v <= 100)%nat ->
  (convert_value v = raise e <->
   e = OverflowError /\ Exists overflows (rationals v)).
Proof. intros _. apply NormalizerMore.convert_value_raise. Qed.

Lemma convert_value_raises_on_overflow_only_witness :
  (depth (PyDict [(KStr (u "GPSInfo"),
                   PyDict [(KInt 2, PyTuple [IFDRational 40 1;
                                             IFDRational (2 ^ 1024) 1])])])
   <= 100)%nat /\
  convert_value
    (PyDict [(KStr (u "GPSInfo"),
              PyDict [(KInt 2, PyTuple [IFDRational 40 1;
                                        IFDRational (2 ^ 1024) 1])])])
    = raise OverflowError.
Proof.
  assert (Hdepth :
    (depth (PyDict [(KStr (u "GPSInfo"),
                     PyDict [(KInt 2, PyTuple [IFDRational 40 1;
                                               IFDRational (2 ^ 1024) 1])])])
     <= 100)%nat) by (vm_compute; lia).
  split; [exact Hdepth|].
  apply (proj2 (convert_value_raises_on_overflow_only
                  (PyDict [(KStr (u "GPSInfo"),
                            PyDict [(KInt 2, PyTuple [IFDRational 40 1;
                                                      IFDRational (2 ^ 1024) 1])])])
                  OverflowError Hdepth)).
  split; [reflexivity|].
  apply Exists_cons_tl, Exists_cons_hd. split; cbn [fst snd]; [discriminate|].
  vm_compute. discriminate.
Defined.

(** X13.  The name the handler takes from a key holds no slash and is
    not changed by a slash at the end of the key.  The name of a
    metadata key is the name of the source key followed by [".json"], so
    a metadata key is never its own metadata key: a message that names a
    document asks for a second document, whose key has one more
    [".json"]. *)
Theorem document_of_a_document (env : Env) (key : str) :
  ~ In 47 (Pathlib.name key) /\
  Pathlib.name (key ++ u "/") = Pathlib.name key /\
  Pathlib.name (metadata_key_of env (Pathlib.name key))
    = Pathlib.name key ++ u ".json" /\
  metadata_key_of env (Pathlib.name (metadata_key_of env (Pathlib.name key)))
    = metadata_key_of env (Pathlib.name key) ++ u ".json".
Proof.
  split; [apply PathlibMore.name_no_slash|].
  split; [apply PathlibMore.name_trailing_slash|].
  split; [apply PathlibMore.name_metadata_key|].
  rewrite PathlibMore.name_metadata_key.
  unfold metadata_key_of. rewrite <- !app_assoc. reflexivity.
Qed.

(** X14.  The string [convert_value] makes of a byte string is made of
    Unicode scalar values only, no surrogate, and is no longer than the
    byte string; so it can always be encoded as UTF-8 again when the
    document is written. *)
Theorem converted_bytes_are_text (b : bytes) :
  exists s,
    convert_value (PyBytes b) = ok (PyStr s) /\
    Forall (fun c => is_scalar c = true) s /\
    (List.length s <= List.length b)%nat /\
    exists data, Codec.encode_utf8 s = ok data.
Proof.
  rewrite NormalizerFacts.convert_value_bytes. unfold Codec.decode_utf8.
  destruct (CodecFacts.utf8_ignore_total b 0%nat) as [s [Hs Hlen]].
  exists s. rewrite Hs. split; [reflexivity|].
  pose proof (CodecMore.utf8_decode_from_scalar Codec.Ignore b 0%nat s Hs)
    as Hscalar.
  split; [exact Hscalar|]. split; [exact Hlen|].
  apply CodecMore.encode_utf8_scalar. exact Hscalar.
Qed.

(** X15.  Encoding and converting are a round trip: a string of Unicode
    scalar values has a UTF-8 encoding, and [convert_value] turns that
    encoding back into the string. *)
Theorem convert_value_decodes_encoding (s : str) :
  Forall (fun c => is_scalar c = true) s ->
  exists data,
    Codec.encode_utf8 s = ok data /\
    convert_value (PyBytes data) = ok (PyStr s).
Proof.
  intros Hs.
  destruct (CodecMore.encode_utf8_scalar s Hs) as [data Hdata].
  exists data. split; [exact Hdata|].
  rewrite NormalizerFacts.convert_value_bytes.
  rewrite (CodecMore.decode_encode_utf8 Codec.Ignore s Hs data Hdata).
  reflexivity.
Qed.

Lemma convert_value_decodes_encoding_witness :
  exists data,
    Codec.encode_utf8 [233; 8364; 128512; 65] = ok data /\
    convert_value (PyBytes data) = ok (PyStr [233; 8364; 128512; 65]).
Proof.
  apply (convert_value_decodes_encoding [233; 8364; 128512; 65]).
  repeat constructor.
Defined.
